(** * mass-rmv: the appointment monitor ([monitor.py])

    A shallow embedding of the state-diffing engine of [monitor.py] and of
    the helpers it relies on, followed by the properties the specification
    states about them.

    Conventions of the embedding.
    - A Python [str] is a Rocq [string]; its characters are the code points
      0..255.  All text the program handles (dates, sentinel phrases) is
      ASCII.
    - A [dict] with string keys is a [gmap string _].
    - A [float] is an IEEE 754 binary64 number, a [spec_float] of the
      standard library with 53 bits of precision.
    - [datetime.strptime] and [datetime.strftime] belong to the Python
      standard library; they are embedded after CPython 3.11
      ([Lib/_strptime.py], C locale, glibc [strftime]) for the directives
      the program uses.
    - Side effects (log lines, notifications, tracking events, file writes)
      are collected, in program order, in a list of [effect]s. *)

From Stdlib Require Import ZArith Ascii String List Bool Lia SpecFloat.
From stdpp Require Import gmap strings list fin_maps pretty.

Local Open Scope string_scope.
Local Open Scope Z_scope.

(** ** Python built-ins on strings *)

Module Py.

Definition code (c : ascii) : Z := Z.of_N (N_of_ascii c).

Definition between (lo hi : Z) (c : ascii) : bool :=
  (lo <=? code c) && (code c <=? hi).

(** [str.isspace] on one character; also the class [\s] of [re]. *)
Definition is_space (c : ascii) : bool :=
  between 9 13 c || between 28 32 c || (code c =? 133) || (code c =? 160).

(** The class [\d] of [re]. *)
Definition is_digit (c : ascii) : bool := between 48 57 c.

Definition digit_val (c : ascii) : Z := code c - 48.

Definition digit_char (n : Z) : ascii := ascii_of_N (Z.to_N (48 + n)).

(** [str.lower] on one character (ASCII letters). *)
Definition lower (c : ascii) : ascii :=
  if between 65 90 c then ascii_of_N (Z.to_N (code c + 32)) else c.

(** [s.lstrip(chars)], the stripped characters given as a predicate. *)
Fixpoint lstrip_by (p : ascii -> bool) (s : string) : string :=
  match s with
  | String c t => if p c then lstrip_by p t else s
  | EmptyString => EmptyString
  end.

(** [s.rstrip(chars)]. *)
Fixpoint rstrip_by (p : ascii -> bool) (s : string) : string :=
  match s with
  | EmptyString => EmptyString
  | String c t =>
      match rstrip_by p t with
      | EmptyString => if p c then EmptyString else String c EmptyString
      | t' => String c t'
      end
  end.

(** [s.strip()] *)
Definition strip (s : string) : string := rstrip_by is_space (lstrip_by is_space s).

(** [s.rstrip(',')] *)
Definition rstrip_comma (s : string) : string := rstrip_by (Ascii.eqb ",") s.

(** [s.startswith(p)] *)
Definition startswith (p s : string) : bool := String.prefix p s.

(** [needle in hay] *)
Fixpoint contains (needle hay : string) : bool :=
  String.prefix needle hay ||
  match hay with
  | EmptyString => false
  | String _ t => contains needle t
  end.

(** Truth value of a [str]: the empty string is false. *)
Definition truthy_str (s : string) : bool :=
  match s with EmptyString => false | _ => true end.

End Py.

(** ** [datetime]: the proleptic Gregorian calendar *)

Module Datetime.

Record datetime := mk_datetime {
  year : Z; month : Z; day : Z;
  hour : Z; minute : Z; second : Z; microsecond : Z
}.

#[global] Instance datetime_eq_dec : EqDecision datetime.
Proof. solve_decision. Defined.

Definition is_leap (y : Z) : bool :=
  (y mod 4 =? 0) && (negb (y mod 100 =? 0) || (y mod 400 =? 0)).

Definition days_in_month (y m : Z) : Z :=
  if m =? 2 then (if is_leap y then 29 else 28)
  else if (m =? 4) || (m =? 6) || (m =? 9) || (m =? 11) then 30
  else 31.

(** [_days_before_year]: days before January 1st of year [y]. *)
Definition days_before_year (y : Z) : Z :=
  let y1 := y - 1 in y1 * 365 + y1 / 4 - y1 / 100 + y1 / 400.

(** [_days_before_month]: days of year [y] before the first of month [m]. *)
Definition days_before_month (y m : Z) : Z :=
  match m with
  | 1 => 0 | 2 => 31 | 3 => 59 | 4 => 90 | 5 => 120 | 6 => 151
  | 7 => 181 | 8 => 212 | 9 => 243 | 10 => 273 | 11 => 304 | _ => 334
  end + (if (2 <? m) && is_leap y then 1 else 0).

(** [date.toordinal]: 0001-01-01 is day 1. *)
Definition toordinal (d : datetime) : Z :=
  days_before_year (year d) + days_before_month (year d) (month d) + day d.

(** [date.weekday]: Monday is 0. *)
Definition weekday (d : datetime) : Z := (toordinal d + 6) mod 7.

(** The checks of the [datetime] constructor. *)
Definition valid (d : datetime) : bool :=
  (1 <=? year d) && (year d <=? 9999) &&
  (1 <=? month d) && (month d <=? 12) &&
  (1 <=? day d) && (day d <=? days_in_month (year d) (month d)) &&
  (0 <=? hour d) && (hour d <=? 23) &&
  (0 <=? minute d) && (minute d <=? 59) &&
  (0 <=? second d) && (second d <=? 59) &&
  (0 <=? microsecond d) && (microsecond d <=? 999999).

(** Comparison of naive datetimes: the field tuples, lexicographically. *)
Definition fields (d : datetime) : list Z :=
  [year d; month d; day d; hour d; minute d; second d; microsecond d].

Fixpoint lex_compare (a b : list Z) : comparison :=
  match a, b with
  | x :: a', y :: b' =>
      match x ?= y with Eq => lex_compare a' b' | c => c end
  | [], [] => Eq
  | [], _ :: _ => Lt
  | _ :: _, [] => Gt
  end.

Definition compare (a b : datetime) : comparison := lex_compare (fields a) (fields b).

Definition ltb (a b : datetime) : bool :=
  match compare a b with Lt => true | _ => false end.

Definition gtb (a b : datetime) : bool := ltb b a.

(** [a - b] as a [timedelta], kept as its total number of microseconds. *)
Definition sub (a b : datetime) : Z :=
  let days := toordinal a - toordinal b in
  let secs := (second a + minute a * 60 + hour a * 3600)
              - (second b + minute b * 60 + hour b * 3600) in
  (days * 86400 + secs) * 1000000 + (microsecond a - microsecond b).

(** A Python [float] is an IEEE 754 binary64 number: a [spec_float] with
    53 bits of precision and exponents below 1024, every operation rounded
    to the nearest number, ties to even. *)

(** An [int] as a binary number, before any rounding. *)
Definition as_binary (n : Z) : spec_float :=
  match n with
  | 0 => S754_zero false
  | Zpos p => S754_finite false p 0
  | Zneg p => S754_finite true p 0
  end.

(** [a / b] on two [int]s: the quotient, rounded once. *)
Definition true_divide (a b : Z) : spec_float := SFdiv 53 1024 (as_binary a) (as_binary b).

(** [float(n)] *)
Definition of_int (n : Z) : spec_float := binary_normalize 53 1024 n 0 false.

(** [timedelta.total_seconds()]: the microseconds divided by [10**6]. *)
Definition total_seconds (td : Z) : spec_float := true_divide td 1000000.

(** [td.total_seconds() / 3600] *)
Definition hours (td : Z) : spec_float := SFdiv 53 1024 (total_seconds td) (of_int 3600).

End Datetime.

(** ** [datetime.strptime]

    CPython turns the format into a regular expression
    ([TimeRE.pattern]), matches it at the start of the data with
    [IGNORECASE], and converts the named groups.  The regular expression
    engine backtracks: a matcher returns every way of matching a prefix of
    its input, in the engine's order of preference, and the match the
    engine reports is the first one. *)

Module Strptime.
Import Py Datetime.

Inductive ValueError :=
| DoesNotMatch (data format : string)   (* time data ... does not match format ... *)
| UnconvertedData (rest : string)       (* unconverted data remains: ... *)
| BadDirective (format : string)        (* ... is a bad directive in format ... *)
| YearOutOfRange (y : Z)                (* year ... is out of range *)
| DayOutOfRange.                        (* day is out of range for month *)

#[global] Instance ValueError_eq_dec : EqDecision ValueError.
Proof. solve_decision. Defined.

Definition matcher (A : Type) : Type := string -> list (A * string).

Definition m_ret {A} (a : A) : matcher A := fun s => [(a, s)].

Definition m_bind {A B} (m : matcher A) (f : A -> matcher B) : matcher B :=
  fun s => flat_map (fun ar => f (fst ar) (snd ar)) (m s).

Definition m_alt {A} (m1 m2 : matcher A) : matcher A :=
  fun s => (m1 s ++ m2 s)%list.

Definition m_map {A B} (f : A -> B) (m : matcher A) : matcher B :=
  fun s => map (fun ar => (f (fst ar), snd ar)) (m s).

(** One character of a class. *)
Definition m_char (p : ascii -> bool) : matcher ascii :=
  fun s => match s with
           | String c t => if p c then [(c, t)] else []
           | EmptyString => []
           end.

(** A literal character, letters compared without case. *)
Definition m_lit (c : ascii) : matcher unit :=
  m_map (fun _ => tt) (m_char (fun x => Ascii.eqb (lower x) (lower c))).

(** A literal word, without case. *)
Fixpoint m_word (w : string) : matcher unit :=
  match w with
  | EmptyString => m_ret tt
  | String c w' => m_bind (m_lit c) (fun _ => m_word w')
  end.

(** [(w0|w1|...)]: the index of the alternative that matched, counted
    from [i]. *)
Fixpoint m_names (i : Z) (ws : list string) : matcher Z :=
  match ws with
  | [] => fun _ => []
  | w :: ws' => m_alt (m_map (fun _ => i) (m_word w)) (m_names (i + 1) ws')
  end.

(** [\s+], greedy: the longest run of white space first. *)
Fixpoint m_spaces (s : string) : list (unit * string) :=
  match s with
  | String c t => if is_space c then (m_spaces t ++ [(tt, t)])%list else []
  | EmptyString => []
  end.

(** One digit, or two, of given classes, as a number. *)
Definition m_d1 (p : ascii -> bool) : matcher Z := m_map digit_val (m_char p).

Definition m_d2 (p1 p2 : ascii -> bool) : matcher Z :=
  m_bind (m_char p1) (fun a =>
  m_bind (m_char p2) (fun b => m_ret (10 * digit_val a + digit_val b))).

Definition a_weekday : list string := ["mon"; "tue"; "wed"; "thu"; "fri"; "sat"; "sun"].
Definition a_month : list string :=
  ["jan"; "feb"; "mar"; "apr"; "may"; "jun"; "jul"; "aug"; "sep"; "oct"; "nov"; "dec"].
Definition am_pm : list string := ["am"; "pm"].

(** The named groups of a match ([found.groupdict()]). *)
Record groups := mk_groups {
  g_a : option Z; g_b : option Z; g_d : option Z; g_Y : option Z;
  g_I : option Z; g_M : option Z; g_p : option Z
}.

Definition no_groups : groups := mk_groups None None None None None None None.

(** The directives the program uses, with the regular expressions of
    [TimeRE.__init__]. *)
Definition directive (c : ascii) : option (groups -> matcher groups) :=
  let set (upd : groups -> Z -> groups) (m : matcher Z) :=
    Some (fun g => m_map (upd g) m) in
  if Ascii.eqb c "a" then
    set (fun g v => mk_groups (Some v) (g_b g) (g_d g) (g_Y g) (g_I g) (g_M g) (g_p g))
        (m_names 0 a_weekday)
  else if Ascii.eqb c "b" then
    set (fun g v => mk_groups (g_a g) (Some v) (g_d g) (g_Y g) (g_I g) (g_M g) (g_p g))
        (m_names 1 a_month)
  else if Ascii.eqb c "d" then      (* 3[0-1]|[1-2]\d|0[1-9]|[1-9]| [1-9] *)
    set (fun g v => mk_groups (g_a g) (g_b g) (Some v) (g_Y g) (g_I g) (g_M g) (g_p g))
        (m_alt (m_d2 (between 51 51) (between 48 49))
        (m_alt (m_d2 (between 49 50) is_digit)
        (m_alt (m_d2 (between 48 48) (between 49 57))
        (m_alt (m_d1 (between 49 57))
               (m_bind (m_char (Ascii.eqb " ")) (fun _ => m_d1 (between 49 57)))))))
  else if Ascii.eqb c "Y" then      (* \d\d\d\d *)
    set (fun g v => mk_groups (g_a g) (g_b g) (g_d g) (Some v) (g_I g) (g_M g) (g_p g))
        (m_bind (m_d2 is_digit is_digit) (fun hi =>
         m_bind (m_d2 is_digit is_digit) (fun lo => m_ret (100 * hi + lo))))
  else if Ascii.eqb c "I" then      (* 1[0-2]|0[1-9]|[1-9] *)
    set (fun g v => mk_groups (g_a g) (g_b g) (g_d g) (g_Y g) (Some v) (g_M g) (g_p g))
        (m_alt (m_d2 (between 49 49) (between 48 50))
        (m_alt (m_d2 (between 48 48) (between 49 57))
               (m_d1 (between 49 57))))
  else if Ascii.eqb c "M" then      (* [0-5]\d|\d *)
    set (fun g v => mk_groups (g_a g) (g_b g) (g_d g) (g_Y g) (g_I g) (Some v) (g_p g))
        (m_alt (m_d2 (between 48 53) is_digit) (m_d1 is_digit))
  else if Ascii.eqb c "p" then
    set (fun g v => mk_groups (g_a g) (g_b g) (g_d g) (g_Y g) (g_I g) (g_M g) (Some v))
        (m_names 0 am_pm)
  else None.

(** [TimeRE.pattern]: the matcher of a format.  A run of white space in
    the format stands for [\s+], [%x] for the expression of directive [x],
    any other character for itself.  [None] when a directive is not one of
    the above. *)
Fixpoint pattern (fmt : string) (after_space : bool) : option (groups -> matcher groups) :=
  match fmt with
  | EmptyString => Some (fun g => m_ret g)
  | String c rest =>
      if is_space c then
        match pattern rest true with
        | Some k =>
            if after_space then Some k
            else Some (fun g => m_bind m_spaces (fun _ => k g))
        | None => None
        end
      else if Ascii.eqb c "%" then
        match rest with
        | String x rest' =>
            match directive x, pattern rest' false with
            | Some m, Some k => Some (fun g => m_bind (m g) k)
            | _, _ => None
            end
        | EmptyString => None
        end
      else
        match pattern rest false with
        | Some k => Some (fun g => m_bind (m_lit c) (fun _ => k g))
        | None => None
        end
  end.

Definition get (o : option Z) (default : Z) : Z :=
  match o with Some v => v | None => default end.

(** The conversion of the groups, then the [datetime] constructor. *)
Definition convert (g : groups) : ValueError + datetime :=
  let y := get (g_Y g) 1900 in
  let m := get (g_b g) 1 in
  let d := get (g_d g) 1 in
  let h := match g_I g with
           | Some h =>
               match g_p g with
               | Some 1 => if h =? 12 then h else h + 12      (* PM *)
               | _ => if h =? 12 then 0 else h               (* AM, or no marker *)
               end
           | None => 0
           end in
  let mi := get (g_M g) 0 in
  if (y <? 1) || (9999 <? y) then inl (YearOutOfRange y)
  else if (d <? 1) || (days_in_month y m <? d) then inl DayOutOfRange
  else inr (mk_datetime y m d h mi 0 0).

(** [datetime.strptime(data, fmt)]; [inl] is a raised [ValueError]. *)
Definition strptime (data fmt : string) : ValueError + datetime :=
  match pattern fmt false with
  | None => inl (BadDirective fmt)
  | Some m =>
      match m no_groups data with
      | [] => inl (DoesNotMatch data fmt)
      | (g, EmptyString) :: _ => convert g
      | (_, rest) :: _ => inl (UnconvertedData rest)
      end
  end.

(** *** [datetime.strftime] (C locale, glibc) *)

Definition weekday_abbr (d : datetime) : string :=
  nth (Z.to_nat (weekday d)) ["Mon"; "Tue"; "Wed"; "Thu"; "Fri"; "Sat"; "Sun"] "".

Definition month_abbr (d : datetime) : string :=
  nth (Z.to_nat (month d - 1))
      ["Jan"; "Feb"; "Mar"; "Apr"; "May"; "Jun"; "Jul"; "Aug"; "Sep"; "Oct"; "Nov"; "Dec"] "".

(** Two decimal digits, zero padded. *)
Definition dec2 (n : Z) : string :=
  String (digit_char (n / 10)) (String (digit_char (n mod 10)) EmptyString).

(** [%Y]: the year in decimal, not padded (glibc). *)
Definition dec_year (y : Z) : string :=
  if y <? 10 then String (digit_char y) EmptyString
  else if y <? 100 then dec2 y
  else if y <? 1000 then String (digit_char (y / 100)) (dec2 (y mod 100))
  else dec2 (y / 100) +:+ dec2 (y mod 100).

Definition hour12 (d : datetime) : Z :=
  if hour d mod 12 =? 0 then 12 else hour d mod 12.

Definition format_directive (c : ascii) (d : datetime) : string :=
  if Ascii.eqb c "a" then weekday_abbr d
  else if Ascii.eqb c "b" then month_abbr d
  else if Ascii.eqb c "d" then dec2 (day d)
  else if Ascii.eqb c "Y" then dec_year (year d)
  else if Ascii.eqb c "I" then dec2 (hour12 d)
  else if Ascii.eqb c "M" then dec2 (minute d)
  else if Ascii.eqb c "p" then (if hour d <? 12 then "AM" else "PM")
  else String "%" (String c EmptyString).

Fixpoint strftime (d : datetime) (fmt : string) : string :=
  match fmt with
  | String "%" (String x rest) => format_directive x d +:+ strftime d rest
  | String c rest => String c (strftime d rest)
  | EmptyString => EmptyString
  end.

End Strptime.

(** ** The monitor *)

Module Monitor.
Import Py Datetime Strptime.

Definition STATE_FILE : string := "state.json".
Definition LOCATIONS_MAP_FILE : string := "locations_map.json".

(** One entry of the scraped data: the dictionary with the keys ['id'],
    ['service_center'] and ['earliest_date'] ([loc_id] stands for ['id']). *)
Record location := mk_location {
  loc_id : string;
  service_center : string;
  earliest_date : string
}.

(** One entry of the full catalogue of service centres. *)
Record center := mk_center {
  center_id : string;
  center_name : string
}.

Inductive level := INFO | WARNING | ERROR.

(** The record handed to [wandb.log] by [log_appointment_event].  The
    fields read from the clock and from the tracking session (weekday,
    hour, month, timestamp, check number) are left out. *)
Record wandb_event := mk_wandb_event {
  event_type : string;
  location_id : string;
  location_name : string;
  previous_appointment : option string;
  new_appointment : option string;
  time_difference_hours : option spec_float
}.

(** What a cycle does to the outside world.
    - [Log]: a line handed to [logger].
    - [LogParseError]: the error line of [parse_date]; the text of the
      exception is kept as the exception.
    - [Ntfy]: [requests.post(url, data=message)].  The line logged after it
      (sent, or the delivery error, which is never propagated) is part of
      it.
    - [Wandb]: [wandb.log] of an appointment event.
    - [WandbNoChange]: [wandb.log] of a ["no_change"] record, with its
      [location_id], [location_name] and [current_appointment].
    - [SaveJson]: a file rewritten with a mapping. *)
Inductive effect :=
| Log (lvl : level) (text : string)
| LogParseError (date_str : string) (e : ValueError)
| Ntfy (url message : string)
| Wandb (ev : wandb_event)
| WandbNoChange (id name : string) (current : option string)
| SaveJson (data : gmap string string) (file : string).

(** Code that logs: a result and the effects issued on the way. *)
Definition W (A : Type) : Type := A * list effect.

Definition ret {A} (a : A) : W A := (a, []).

Definition bind {A B} (m : W A) (k : A -> W B) : W B :=
  (fst (k (fst m)), snd m ++ snd (k (fst m)))%list.

Definition emit (e : effect) : W unit := (tt, [e]).

#[local] Notation "x <- m ;; k" := (bind m (fun x => k))
  (at level 100, m at next level, right associativity).
#[local] Notation "m ;;; k" := (bind m (fun _ => k))
  (at level 100, right associativity).

(** Truth value of a [dict]. *)
Definition truthy_dict (m : gmap string string) : bool :=
  negb (bool_decide (m = ∅)).

(** An optional string inside an f-string. *)
Definition fmt (o : option string) : string :=
  match o with Some s => s | None => "None" end.

Definition nl : string := String (ascii_of_nat 10) EmptyString.

(** *** [get_friendly_name] *)
Definition get_friendly_name (location_id : string) (locations_map : gmap string string)
  : W string :=
  let friendly_name := default ("ID-" +:+ location_id) (locations_map !! location_id) in
  (if startswith "ID-" friendly_name
   then emit (Log WARNING ("Location ID " +:+ location_id +:+
                           " not found in locations map, using fallback: " +:+ friendly_name))
   else ret tt) ;;;
  ret friendly_name.

(** [get_friendly_name(location_id, locations_map) if locations_map else f"ID-{location_id}"] *)
Definition name_of (location_id : string) (locations_map : option (gmap string string))
  : W string :=
  match locations_map with
  | Some m => if truthy_dict m then get_friendly_name location_id m
              else ret ("ID-" +:+ location_id)
  | None => ret ("ID-" +:+ location_id)
  end.

(** *** [refresh_locations_map_if_needed]

    Returns the flag and the dictionary as the call leaves it. *)
Definition refresh_locations_map_if_needed
    (locations_map : gmap string string) (all_locations_data : list center)
  : W (bool * gmap string string) :=
  if negb (truthy_dict locations_map) then ret (false, locations_map)
  else
    let current_ids : gset string := dom locations_map in
    let new_ids : gset string := list_to_set (center_id <$> all_locations_data) in
    if negb (bool_decide (new_ids ∖ current_ids = ∅)) then
      emit (Log INFO "New locations found, updating locations map...") ;;;
      m <- fold_left
             (fun (acc : W (gmap string string)) loc =>
                m <- acc ;;
                if bool_decide (m !! center_id loc = None) then
                  emit (Log INFO ("Added new location: " +:+ center_id loc +:+ " -> "
                                  +:+ center_name loc)) ;;;
                  ret (<[center_id loc := center_name loc]> m)
                else ret m)
             all_locations_data (ret locations_map) ;;
      emit (SaveJson m LOCATIONS_MAP_FILE) ;;;
      ret (true, m)
    else ret (false, locations_map).

(** *** [parse_date] *)
Definition parse_date (date_str : string) : W (option datetime) :=
  if contains "No Appointments" date_str || contains "No Date Found" date_str
     || contains "Location Not Available" date_str
  then ret None
  else
    let clean_date_str := rstrip_comma (strip date_str) in
    match strptime clean_date_str "%a %b %d, %Y, %I:%M %p" with
    | inr d => ret (Some d)
    | inl _ =>
        match strptime clean_date_str "%a %b %d, %Y" with
        | inr d => ret (Some d)
        | inl e => emit (LogParseError date_str e) ;;; ret None
        end
    end.

(** [parse_date(s) if s else None] *)
Definition parse_opt (s : option string) : W (option datetime) :=
  match s with
  | Some s => if truthy_str s then parse_date s else ret None
  | None => ret None
  end.

(** *** [send_ntfy_notification] *)
Definition send_ntfy_notification (url message : string) : W unit :=
  emit (Ntfy url message).

(** *** [log_appointment_event] *)
Definition log_appointment_event (wandb_run : bool) (event_type : string)
    (location_data : location) (previous_date new_date : option string)
    (time_diff_hours : option spec_float) (locations_map : option (gmap string string)) : W unit :=
  if negb wandb_run then ret tt
  else
    parse_opt new_date ;;;
    parse_opt previous_date ;;;
    let location_id := loc_id location_data in
    location_name <- name_of location_id locations_map ;;
    emit (Wandb (mk_wandb_event event_type (loc_id location_data) location_name
                                previous_date new_date time_diff_hours)) ;;;
    emit (Log INFO ("Logged " +:+ event_type +:+ " event to wandb for " +:+ location_name)).

(** What a cycle reads from outside: the scraper, the clock and the file
    [booking.md] (empty when the file is missing). *)
Record Env := mk_env {
  get_rmv_data : string -> list center -> option (list location);
  now : datetime;
  appointment_text_links : string
}.

Definition has_time (new_date_str : string) : bool :=
  contains "AM" new_date_str || contains "PM" new_date_str.

(** The text of the notification, before the links are appended. *)
Definition message_for (location_name new_date_str : string) (new_date : datetime) : string :=
  if has_time new_date_str
  then "New appointment at " +:+ location_name +:+ ": "
       +:+ strftime new_date "%a, %b %d, %Y at %I:%M %p"
  else "New earliest date at " +:+ location_name +:+ ": "
       +:+ strftime new_date "%a, %b %d, %Y".

Section Cycle.
Variable env : Env.
Variables (ntfy_url : string) (wandb_run : bool)
          (locations_map : option (gmap string string)).

(** The body of the first loop of [check_for_appointments]: one entry of
    the scraped data against the dictionary [state]; the result is the
    dictionary after the iteration.  Each [continue] of the source ends a
    branch here. *)
Definition check_location (state : gmap string string) (location_data : location)
  : W (gmap string string) :=
  let location_id := loc_id location_data in
  location_name <- name_of location_id locations_map ;;
  let new_date_str := earliest_date location_data in
  new_date <- parse_date new_date_str ;;
  match new_date with
  | None =>
      (if contains "Location Not Available" new_date_str
       then emit (Log INFO ("Location " +:+ location_name +:+ " (ID: " +:+ location_id +:+
              ") is currently not available. Preserving previous appointment data."))
       else emit (Log INFO ("No appointments found for " +:+ location_name +:+ " (ID: "
                            +:+ location_id +:+ ")."))) ;;;
      ret state
  | Some new_date =>
      let last_known_date_str := state !! location_id in
      last_known_date <- parse_opt last_known_date_str ;;
      let time_diff (a b : option datetime) : option spec_float :=
        match a, b with Some a, Some b => Some (hours (sub a b)) | _, _ => None end in
      if match last_known_date with Some l => ltb l (now env) | None => false end then
        (* the last known appointment has passed *)
        emit (Log INFO ("Last known appointment at " +:+ location_name +:+
                        " has passed (was: " +:+ fmt last_known_date_str +:+
                        "). Updating state with new data: " +:+ new_date_str)) ;;;
        let time_diff_hours := time_diff (Some new_date) last_known_date in
        let state := <[location_id := new_date_str]> state in
        let message := message_for location_name new_date_str new_date in
        log_appointment_event wandb_run "expired_replaced" location_data
          last_known_date_str (Some new_date_str) time_diff_hours locations_map ;;;
        let message := message +:+ nl +:+ appointment_text_links env in
        send_ntfy_notification ntfy_url message ;;;
        ret state
      else if match last_known_date with Some l => gtb new_date l | None => false end then
        (* a later date than the one recorded *)
        emit (Log INFO ("Location " +:+ location_name +:+ " (ID: " +:+ location_id +:+
                        ") appears to have new availability: " +:+ new_date_str)) ;;;
        let time_diff_hours := time_diff (Some new_date) last_known_date in
        let message := message_for location_name new_date_str new_date in
        let state := <[location_id := new_date_str]> state in
        emit (Log INFO ("Preparing notification for " +:+ location_name +:+ " (ID: " +:+
                        location_id +:+ "): " +:+ message)) ;;;
        log_appointment_event wandb_run "new_availability" location_data
          last_known_date_str (Some new_date_str) time_diff_hours locations_map ;;;
        emit (Log INFO ("Location " +:+ location_name +:+ " (ID: " +:+ location_id +:+
                        ") became available again. Previous: " +:+ fmt last_known_date_str +:+
                        ", New: " +:+ new_date_str)) ;;;
        let message := message +:+ nl +:+ appointment_text_links env in
        send_ntfy_notification ntfy_url message ;;;
        ret state
      else if match last_known_date with Some l => ltb new_date l | None => true end then
        (* an earlier date, or the first one *)
        let message := message_for location_name new_date_str new_date in
        let state :=
          if has_time new_date_str
          then <[location_id := strftime new_date "%a %b %d, %Y, %I:%M %p"]> state
          else <[location_id := strftime new_date "%a %b %d, %Y"]> state in
        let message := message +:+ nl +:+ appointment_text_links env in
        send_ntfy_notification ntfy_url message ;;;
        let time_diff_hours := time_diff last_known_date (Some new_date) in
        let event_type :=
          match last_known_date with
          | None => "first_appointment" | Some _ => "earlier_appointment"
          end in
        log_appointment_event wandb_run event_type location_data
          last_known_date_str (Some new_date_str) time_diff_hours locations_map ;;;
        ret state
      else
        emit (Log INFO ("No change for " +:+ location_name +:+ ". Earliest is still "
                        +:+ fmt last_known_date_str)) ;;;
        (if wandb_run then
           location_name_for_logging <- name_of location_id locations_map ;;
           emit (WandbNoChange (loc_id location_data) location_name_for_logging
                               last_known_date_str)
         else ret tt) ;;;
        ret state
  end.

(** The body of the second loop, run when the dictionary is empty. *)
Definition populate_location (state : gmap string string) (location_data : location)
  : W (gmap string string) :=
  let location_id := loc_id location_data in
  let location_name := service_center location_data in
  let new_date_str := earliest_date location_data in
  new_date <- parse_date new_date_str ;;
  match new_date with
  | Some _ =>
      let state := <[location_id := new_date_str]> state in
      emit (Log INFO ("Added " +:+ location_name +:+ " to state: " +:+ new_date_str)) ;;;
      log_appointment_event wandb_run "initial_population" location_data
        None (Some new_date_str) None locations_map ;;;
      ret state
  | None => ret state
  end.

(** The effects of a cycle, each with the identifier of the entry whose
    iteration issued it ([None] outside the loops). *)
Definition trace : Type := list (option string * effect).

Definition outside (w : list effect) : trace := map (fun e => (None, e)) w.
Definition inside (location_id : string) (w : list effect) : trace :=
  map (fun e => (Some location_id, e)) w.

(** [for location_data in live_data: body], the dictionary threaded
    through the iterations. *)
Fixpoint for_each (body : gmap string string -> location -> W (gmap string string))
    (live_data : list location) (state : gmap string string)
  : gmap string string * trace :=
  match live_data with
  | [] => (state, [])
  | location_data :: rest =>
      let r := body state location_data in
      let r' := for_each body rest (fst r) in
      (fst r', (inside (loc_id location_data) (snd r) ++ snd r')%list)
  end.

(** *** [check_for_appointments]

    The dictionary [state] is updated in place by the source and returned;
    here the dictionary returned is the result. *)
Definition check_for_appointments (rmv_url : string) (locations_to_monitor : list center)
    (state : gmap string string) : gmap string string * trace :=
  let t0 := outside [Log INFO "--- Running RMV Appointment Check ---"] in
  let live_data := get_rmv_data env rmv_url locations_to_monitor in
  match live_data with
  | None | Some [] =>
      (state, (t0 ++ outside [Log WARNING "Could not fetch live appointment data."])%list)
  | Some live_data =>
      let r1 := for_each check_location live_data state in
      let r2 :=
        if negb (truthy_dict (fst r1)) then
          let r := for_each populate_location live_data (fst r1) in
          (fst r, (outside [Log INFO
             "State was empty. Populating with earliest available appointments."]
             ++ snd r)%list)
        else (fst r1, []) in
      (fst r2, (t0 ++ snd r1 ++ snd r2
                ++ outside [SaveJson (fst r2) STATE_FILE; Log INFO "--- Check complete ---"])%list)
  end.

End Cycle.

End Monitor.

(** ** The decision table

    What the specification calls the classification of a location, written
    as a function of the parsed dates, together with what each class does
    to the dictionary and which signals (effects other than log lines) it
    issues.  The lemmas below show that [check_location] computes exactly
    this table. *)

Module Table.
Import Py Datetime Strptime Monitor.
Local Open Scope list_scope.

Definition is_log (e : effect) : bool :=
  match e with Log _ _ | LogParseError _ _ => true | _ => false end.

(** The effects that are not log lines. *)
Definition signals (w : list effect) : list effect :=
  List.filter (fun e => negb (is_log e)) w.

Definition signals_t (t : trace) : trace :=
  List.filter (fun te => negb (is_log (snd te))) t.

(** The effects issued while the entries of location [k] were processed. *)
Definition at_location (k : string) (t : trace) : list effect :=
  map snd (List.filter (fun te => bool_decide (fst te = Some k)) t).

(** The value of [parse_date], without its log lines. *)
Definition parsed (s : string) : option datetime := fst (parse_date s).

(** The date recorded for [k], when there is one that parses. *)
Definition last_known (st : gmap string string) (k : string) : option datetime :=
  fst (parse_opt (st !! k)).

(** The canonical form of a date: with the time of day exactly when the
    scraped text carries an [AM] or [PM] marker. *)
Definition canonical (raw : string) (d : datetime) : string :=
  if has_time raw then strftime d "%a %b %d, %Y, %I:%M %p" else strftime d "%a %b %d, %Y".

Inductive verdict :=
| no_date
| expired_replaced (d l : datetime)
| new_availability (d l : datetime)
| first_appointment (d : datetime)
| earlier_appointment (d l : datetime)
| no_change (d l : datetime).

Definition classify (now : datetime) (st : gmap string string) (loc : location) : verdict :=
  match parsed (earliest_date loc) with
  | None => no_date
  | Some d =>
      match last_known st (loc_id loc) with
      | None => first_appointment d
      | Some l =>
          if ltb l now then expired_replaced d l
          else if gtb d l then new_availability d l
          else if ltb d l then earlier_appointment d l
          else no_change d l
      end
  end.

Definition next_state (v : verdict) (st : gmap string string) (loc : location)
  : gmap string string :=
  match v with
  | no_date | no_change _ _ => st
  | expired_replaced _ _ | new_availability _ _ => <[loc_id loc := earliest_date loc]> st
  | first_appointment d | earlier_appointment d _ =>
      <[loc_id loc := canonical (earliest_date loc) d]> st
  end.

Section Expected.
Context (env : Env) (ntfy_url : string) (wandb_run : bool)
        (locations_map : option (gmap string string)).

Definition notice (loc : location) (d : datetime) : effect :=
  Ntfy ntfy_url
    (message_for (fst (name_of (loc_id loc) locations_map)) (earliest_date loc) d
     +:+ nl +:+ appointment_text_links env).

Definition event (ty : string) (loc : location) (st : gmap string string)
    (diff : option spec_float) : list effect :=
  if wandb_run
  then [Wandb (mk_wandb_event ty (loc_id loc) (fst (name_of (loc_id loc) locations_map))
                 (st !! loc_id loc) (Some (earliest_date loc)) diff)]
  else [].

Definition expected_signals (v : verdict) (st : gmap string string) (loc : location)
  : list effect :=
  match v with
  | no_date => []
  | expired_replaced d l =>
      event "expired_replaced" loc st (Some (hours (sub d l))) ++ [notice loc d]
  | new_availability d l =>
      event "new_availability" loc st (Some (hours (sub d l))) ++ [notice loc d]
  | first_appointment d => notice loc d :: event "first_appointment" loc st None
  | earlier_appointment d l =>
      notice loc d :: event "earlier_appointment" loc st (Some (hours (sub l d)))
  | no_change d l =>
      if wandb_run
      then [WandbNoChange (loc_id loc) (fst (name_of (loc_id loc) locations_map))
                          (st !! loc_id loc)]
      else []
  end.

(** The first loop, by the table. *)
Fixpoint expected_run (live_data : list location) (st : gmap string string)
  : gmap string string * trace :=
  match live_data with
  | [] => (st, [])
  | loc :: rest =>
      let v := classify (now env) st loc in
      let r := expected_run rest (next_state v st loc) in
      (fst r, inside (loc_id loc) (expected_signals v st loc) ++ snd r)
  end.

End Expected.

(** The cycles of [run_monitor]'s loop that have completed: one
    environment per cycle, the dictionary handed from each to the next. *)
Fixpoint run_cycles (ntfy_url : string) (wandb_run : bool)
    (locations_map : option (gmap string string)) (rmv_url : string)
    (locations_to_monitor : list center) (envs : list Env) (state : gmap string string)
  : gmap string string :=
  match envs with
  | [] => state
  | env :: rest =>
      run_cycles ntfy_url wandb_run locations_map rmv_url locations_to_monitor rest
        (fst (check_for_appointments env ntfy_url wandb_run locations_map rmv_url
                locations_to_monitor state))
  end.

End Table.

(** ** The statements

    The vocabulary of the claims: the parser, the directory merge and the
    behaviour of whole cycles as the specification words them, and the
    inputs used as examples. *)

Module Statements.
Import Py Datetime Strptime Monitor Table.
Local Open Scope list_scope.

(** Examples of environments. *)
Definition june_1st : datetime := mk_datetime 2024 6 1 0 0 0 0.
Definition scraped (live_data : option (list location)) (t : datetime) : Env :=
  mk_env (fun _ _ => live_data) t "".

(** The event types the first loop can log. *)
Definition loop_event_types : list string :=
  ["expired_replaced"; "new_availability"; "first_appointment"; "earlier_appointment"].

(** What claim C5 says of a cycle, for one entry of the scraped data: when
    its classification changes the dictionary, the value recorded is the
    canonical form of the scraped date. *)
Definition changes_state (v : verdict) : bool :=
  match v with no_date | no_change _ _ => false | _ => true end.

Definition stores_canonical (env : Env) (st : gmap string string) (loc : location) : Prop :=
  forall d, parsed (earliest_date loc) = Some d ->
  changes_state (classify (now env) st loc) = true ->
  fst (check_for_appointments env "ntfy" true None "url" [] st) !! loc_id loc
  = Some (canonical (earliest_date loc) d).

(** One step of the loop of [refresh_locations_map_if_needed], on the
    dictionary alone. *)
Definition add_new (m : gmap string string) (c : center) : gmap string string :=
  if bool_decide (m !! center_id c = None) then <[center_id c := center_name c]> m else m.

(** The first entry of the catalogue with identifier [k]. *)
Definition first_named (k : string) (catalog : list center) : option center :=
  List.find (fun c => bool_decide (center_id c = k)) catalog.

(** The parser as the specification words it. *)
Definition sentinels : list string :=
  ["No Appointments"; "No Date Found"; "Location Not Available"].

Definition DATE_TIME : string := "%a %b %d, %Y, %I:%M %p".
Definition DATE_ONLY : string := "%a %b %d, %Y".

(** The text handed to [strptime]: outer white space removed, then the
    trailing commas. *)
Definition cleaned (raw : string) : string := rstrip_comma (strip raw).

Definition no_sentinel (raw : string) : Prop :=
  forall phrase, In phrase sentinels -> contains phrase raw = false.

Inductive parse_spec (raw : string) : option datetime -> list effect -> Prop :=
| spec_sentinel phrase :
    In phrase sentinels -> contains phrase raw = true ->
    parse_spec raw None []
| spec_date_time d :
    no_sentinel raw -> strptime (cleaned raw) DATE_TIME = inr d ->
    parse_spec raw (Some d) []
| spec_date_only e d :
    no_sentinel raw -> strptime (cleaned raw) DATE_TIME = inl e ->
    strptime (cleaned raw) DATE_ONLY = inr d ->
    parse_spec raw (Some d) []
| spec_failure e e' :
    no_sentinel raw -> strptime (cleaned raw) DATE_TIME = inl e ->
    strptime (cleaned raw) DATE_ONLY = inl e' ->
    parse_spec raw None [LogParseError raw e'].

Fixpoint comma_free (p : string) : bool :=
  match p with
  | EmptyString => true
  | String c p' => negb (Ascii.eqb c ",") && comma_free p'
  end.

(** The value [v] was written for [k] from an entry of [live_data] whose
    scraped text parses to a date: it is that text, or the canonical form
    of that date. *)
Definition written_from (live_data : list location) (k : string) (v : option string) : Prop :=
  exists loc d,
    In loc live_data /\ loc_id loc = k /\ parsed (earliest_date loc) = Some d /\
    (v = Some (earliest_date loc) \/ v = Some (canonical (earliest_date loc) d)).

(** A notification, or an appointment event (every kind but ["no_change"]). *)
Definition is_alert (e : effect) : bool :=
  match e with Ntfy _ _ | Wandb _ => true | _ => false end.

Definition quiet (t : trace) : Prop := forall o e, In (o, e) t -> is_alert e = false.

(** What claim C2 says of two cycles on the same scraped data, the second
    started from the dictionary the first returned. *)
Definition second_cycle_is_idle (env1 env2 : Env) (ntfy_url : string) (wandb_run : bool)
    (locations_map : option (gmap string string)) (rmv_url : string) (locs : list center)
    (st : gmap string string) : Prop :=
  let r1 := check_for_appointments env1 ntfy_url wandb_run locations_map rmv_url locs st in
  let r2 := check_for_appointments env2 ntfy_url wandb_run locations_map rmv_url locs (fst r1) in
  fst r2 = fst r1 /\ quiet (snd r2).

Definition july_2nd_10am : datetime := mk_datetime 2024 7 2 10 0 0 0.

Definition june_2nd : datetime := mk_datetime 2024 6 2 0 0 0 0.

End Statements.

(** ** The files of the monitor

    [state.json] and [locations_map.json] hold a JSON object whose keys
    and values are strings, written by [json.dump] and read back by
    [json.load] as the same dictionary.  [logger] has two handlers, the
    console and the file [monitor.log]: a line logged is appended to that
    file.  The files are the content of the JSON files that exist, by
    path, and the content of the log, kept as the effects that logged a
    line, oldest first (the time stamp the handler puts in front of a line
    is not kept). *)

Module Files.
Import Monitor.
Local Open Scope list_scope.

Record files := mk_files {
  json_files : gmap string (gmap string string);
  monitor_log : list effect
}.

(** *** [load_json] *)
Definition load_json (fs : files) (file_path : string) : gmap string string :=
  match json_files fs !! file_path with
  | None => ∅
  | Some data => data
  end.

(** *** [save_json] *)
Definition save_json (data : gmap string string) (file_path : string) (fs : files) : files :=
  mk_files (<[file_path := data]> (json_files fs)) (monitor_log fs).

(** *** [load_locations_map] *)
Definition load_locations_map (fs : files) : gmap string string :=
  match json_files fs !! LOCATIONS_MAP_FILE with
  | None => ∅
  | Some data => data
  end.

(** *** [save_locations_map] *)
Definition save_locations_map (locations_map : gmap string string) (fs : files) : files :=
  mk_files (<[LOCATIONS_MAP_FILE := locations_map]> (json_files fs)) (monitor_log fs).

(** The effects that hand a line to [logger]: a log line, the error line
    of [parse_date], and a notification, after which one line is logged
    whether it was delivered or not. *)
Definition writes_log (e : effect) : bool :=
  match e with
  | Log _ _ | LogParseError _ _ | Ntfy _ _ => true
  | Wandb _ | WandbNoChange _ _ _ | SaveJson _ _ => false
  end.

(** What an effect does to the files: [SaveJson] rewrites a JSON file, a
    line logged goes to the end of [monitor.log]. *)
Definition perform (fs : files) (e : effect) : files :=
  match e with
  | SaveJson data file => save_json data file fs
  | _ => if writes_log e then mk_files (json_files fs) (monitor_log fs ++ [e]) else fs
  end.

(** The files after a run of effects, in order. *)
Definition after (w : list effect) (fs : files) : files := fold_left perform w fs.

End Files.

(** ** [run_monitor]: the directory of names at start-up

    The step of [run_monitor] between the fetch of the catalogue and the
    loop (lines 429-439): the directory of names is created from the
    catalogue when [locations_map.json] is missing or empty, and loaded
    and refreshed otherwise. *)

Module Startup.
Import Py Monitor Files.
Local Open Scope list_scope.

#[local] Notation "x <- m ;; k" := (bind m (fun x => k))
  (at level 100, m at next level, right associativity).
#[local] Notation "m ;;; k" := (bind m (fun _ => k))
  (at level 100, right associativity).

(** [{loc['id']: loc['service_center'] for loc in all_locations_data}] *)
Definition names_of (all_locations_data : list center) : gmap string string :=
  fold_left (fun m loc => <[center_id loc := center_name loc]> m) all_locations_data ∅.

(** The directory as [run_monitor] holds it when the loop starts. *)
Definition open_locations_map (fs : files) (all_locations_data : list center)
  : W (gmap string string) :=
  let locations_map := load_locations_map fs in
  if negb (truthy_dict locations_map) then
    emit (Log INFO "Creating locations mapping file...") ;;;
    let locations_map := names_of all_locations_data in
    emit (SaveJson locations_map LOCATIONS_MAP_FILE) ;;;
    emit (Log INFO ("Created locations mapping with " +:+ pretty (size locations_map)
                    +:+ " locations")) ;;;
    ret locations_map
  else
    emit (Log INFO ("Loaded existing locations mapping with " +:+ pretty (size locations_map)
                    +:+ " locations")) ;;;
    r <- refresh_locations_map_if_needed locations_map all_locations_data ;;
    ret (snd r).

End Startup.

(** ** [run_monitor]: the loop

    One turn of the [while] loop calls [check_for_appointments] inside a
    [try].  The call either returns, and its result is the dictionary of
    the next turn, or raises: the exception is logged and the loop goes
    on with the dictionary the call was given, which the call has mutated
    in place up to the point where it raised. *)

Module Loop.
Import Monitor Table Files.
Local Open Scope list_scope.

(** A turn of the loop.
    - [completed env]: the call returned, in the environment [env].
    - [aborted state fs]: the call raised; [state] is the dictionary as the
      call left it and [fs] the files after the turn.  Where a call raises
      is not determined here: any dictionary and any files may be left. *)
Inductive turn :=
| completed (env : Env)
| aborted (state : gmap string string) (fs : files).

Definition is_completed (t : turn) : bool :=
  match t with completed _ => true | aborted _ _ => false end.

(** The dictionary the loop holds and the files, after the turns given. *)
Fixpoint run_loop (ntfy_url : string) (wandb_run : bool)
    (locations_map : option (gmap string string)) (rmv_url : string)
    (locations_to_monitor : list center) (frequency_minutes : Z)
    (turns : list turn) (state : gmap string string) (fs : files)
  : gmap string string * files :=
  match turns with
  | [] => (state, fs)
  | completed env :: rest =>
      let r := check_for_appointments env ntfy_url wandb_run locations_map rmv_url
                 locations_to_monitor state in
      let fs := after (map snd (snd r)) fs in
      let fs := perform fs (Log INFO ("Sleeping for " +:+ pretty frequency_minutes
                                      +:+ " minutes...")) in
      run_loop ntfy_url wandb_run locations_map rmv_url locations_to_monitor
        frequency_minutes rest (fst r) fs
  | aborted state' fs' :: rest =>
      run_loop ntfy_url wandb_run locations_map rmv_url locations_to_monitor
        frequency_minutes rest state' fs'
  end.

End Loop.

(** ** Vocabulary of the properties below *)

Module Shapes.
Import Py Datetime Strptime Monitor Table.
Local Open Scope list_scope.

(** One iteration of the first loop, on the dictionary. *)
Definition step (t : datetime) (st : gmap string string) (loc : location)
  : gmap string string :=
  next_state (classify t st loc) st loc.

(** The records handed to [wandb.log]. *)
Definition is_tracking (e : effect) : bool :=
  match e with Wandb _ | WandbNoChange _ _ _ => true | _ => false end.

Definition within (o : option Z) (lo hi : Z) : Prop :=
  match o with Some v => lo <= v <= hi | None => True end.

(** The ranges of the groups of a match. *)
Definition groups_in_range (g : groups) : Prop :=
  within (g_b g) 1 12 /\ within (g_d g) 1 31 /\ within (g_Y g) 0 9999 /\
  within (g_I g) 1 12 /\ within (g_M g) 0 59 /\ within (g_p g) 0 1.

(** A date as [strptime] builds it: a calendar date with a time of day in
    whole minutes. *)
Definition well_formed (d : datetime) : Prop :=
  valid d = true /\ second d = 0 /\ microsecond d = 0.

(** No character of [s] is [c]. *)
Fixpoint lacks (c : ascii) (s : string) : bool :=
  match s with
  | EmptyString => true
  | String x t => negb (Ascii.eqb x c) && lacks c t
  end.

(** The integers from [lo] to [hi]. *)
Definition range (lo hi : Z) : list Z :=
  map (fun i => lo + Z.of_nat i) (seq 0 (Z.to_nat (hi - lo + 1))).

(** The regular expressions of the numeric directives, as [directive]
    has them. *)
Definition day_re : matcher Z :=
  m_alt (m_d2 (between 51 51) (between 48 49))
  (m_alt (m_d2 (between 49 50) is_digit)
  (m_alt (m_d2 (between 48 48) (between 49 57))
  (m_alt (m_d1 (between 49 57))
         (m_bind (m_char (Ascii.eqb " ")) (fun _ => m_d1 (between 49 57)))))).

Definition year_re : matcher Z :=
  m_bind (m_d2 is_digit is_digit) (fun hi =>
  m_bind (m_d2 is_digit is_digit) (fun lo => m_ret (100 * hi + lo))).

Definition hour_re : matcher Z :=
  m_alt (m_d2 (between 49 49) (between 48 50))
  (m_alt (m_d2 (between 48 48) (between 49 57))
         (m_d1 (between 49 57))).

Definition minute_re : matcher Z :=
  m_alt (m_d2 (between 48 53) is_digit) (m_d1 is_digit).

(** A group set. *)
Definition set_a (g : groups) (v : Z) : groups :=
  mk_groups (Some v) (g_b g) (g_d g) (g_Y g) (g_I g) (g_M g) (g_p g).
Definition set_b (g : groups) (v : Z) : groups :=
  mk_groups (g_a g) (Some v) (g_d g) (g_Y g) (g_I g) (g_M g) (g_p g).
Definition set_d (g : groups) (v : Z) : groups :=
  mk_groups (g_a g) (g_b g) (Some v) (g_Y g) (g_I g) (g_M g) (g_p g).
Definition set_Y (g : groups) (v : Z) : groups :=
  mk_groups (g_a g) (g_b g) (g_d g) (Some v) (g_I g) (g_M g) (g_p g).
Definition set_I (g : groups) (v : Z) : groups :=
  mk_groups (g_a g) (g_b g) (g_d g) (g_Y g) (Some v) (g_M g) (g_p g).
Definition set_M (g : groups) (v : Z) : groups :=
  mk_groups (g_a g) (g_b g) (g_d g) (g_Y g) (g_I g) (Some v) (g_p g).
Definition set_p (g : groups) (v : Z) : groups :=
  mk_groups (g_a g) (g_b g) (g_d g) (g_Y g) (g_I g) (g_M g) (Some v).

(** The matcher of the time of day, [, %I:%M %p], then of what follows. *)
Definition time_re (k : groups -> matcher groups) (g : groups) : matcher groups :=
  m_bind (m_lit ",") (fun _ =>
  m_bind m_spaces (fun _ =>
  m_bind (m_map (set_I g) hour_re) (fun g =>
  m_bind (m_lit ":") (fun _ =>
  m_bind (m_map (set_M g) minute_re) (fun g =>
  m_bind m_spaces (fun _ =>
  m_bind (m_map (set_p g) (m_names 0 am_pm)) k)))))).

(** The matcher of the date, [%a %b %d, %Y], then of what follows. *)
Definition date_re (k : groups -> matcher groups) (g : groups) : matcher groups :=
  m_bind (m_map (set_a g) (m_names 0 a_weekday)) (fun g =>
  m_bind m_spaces (fun _ =>
  m_bind (m_map (set_b g) (m_names 1 a_month)) (fun g =>
  m_bind m_spaces (fun _ =>
  m_bind (m_map (set_d g) day_re) (fun g =>
  m_bind (m_lit ",") (fun _ =>
  m_bind m_spaces (fun _ =>
  m_bind (m_map (set_Y g) year_re) k))))))).

(** The text of a date and of a time of day, as [strftime] writes them. *)
Definition date_text (d : datetime) (rest : string) : string :=
  weekday_abbr d +:+ String " " (month_abbr d +:+ String " " (dec2 (day d) +:+
  String "," (String " " (dec_year (year d) +:+ rest)))).

Definition time_text (d : datetime) : string :=
  String "," (String " " (dec2 (hour12 d) +:+ String ":" (dec2 (minute d) +:+
  String " " ((if hour d <? 12 then "AM" else "PM") +:+ "")))).

(** A text that does not start with white space. *)
Definition solid (s : string) : Prop :=
  match s with String c _ => is_space c = false | EmptyString => True end.

(** The other ways a number can be read: a shorter number, the text
    resuming at a digit. *)
Definition backtracks (rest : string) (tl : list (Z * string)) : Prop :=
  Forall (fun x => exists c, snd x = String c rest /\ is_digit c = true) tl.

(** The last character of a text. *)
Fixpoint last_char (s : string) : option ascii :=
  match s with
  | EmptyString => None
  | String c EmptyString => Some c
  | String _ t => last_char t
  end.

(** The same day at 00:00. *)
Definition at_midnight (d : datetime) : datetime :=
  mk_datetime (year d) (month d) (day d) 0 0 0 0.

End Shapes.

(** ** The loop body computes the decision table *)

Module Facts.
Import Py Datetime Strptime Monitor Table.
Local Open Scope list_scope.

Lemma signals_app a b : signals (a ++ b) = signals a ++ signals b.
Proof. apply List.filter_app. Qed.

Lemma signals_t_app a b : signals_t (a ++ b) = signals_t a ++ signals_t b.
Proof. apply List.filter_app. Qed.

Lemma signals_t_inside k w : signals_t (inside k w) = inside k (signals w).
Proof.
  unfold signals_t, inside, signals. induction w as [|e w IH]; [reflexivity|].
  cbn. destruct (is_log e); cbn; rewrite IH; reflexivity.
Qed.

Lemma parse_date_signals s : signals (snd (parse_date s)) = [].
Proof.
  unfold parse_date.
  destruct (_ || _); [reflexivity|].
  destruct (strptime _ _); [|reflexivity].
  destruct (strptime _ _); reflexivity.
Qed.

Lemma parse_opt_signals o : signals (snd (parse_opt o)) = [].
Proof.
  destruct o as [s|]; [|reflexivity]. simpl.
  destruct (truthy_str s); [apply parse_date_signals|reflexivity].
Qed.

Lemma name_of_signals k lm : signals (snd (name_of k lm)) = [].
Proof.
  destruct lm as [m|]; [|reflexivity]. simpl.
  destruct (truthy_dict m); [|reflexivity].
  unfold get_friendly_name. simpl.
  destruct (startswith _ _); reflexivity.
Qed.

Lemma log_event_signals wb ty loc prev new diff lm :
  signals (snd (log_appointment_event wb ty loc prev new diff lm)) =
  if wb then [Wandb (mk_wandb_event ty (loc_id loc) (fst (name_of (loc_id loc) lm)) prev new diff)]
  else [].
Proof.
  unfold log_appointment_event. destruct wb; [|reflexivity].
  cbn [negb bind fst snd emit].
  rewrite !signals_app, !parse_opt_signals, name_of_signals. reflexivity.
Qed.

(** Nothing scraped: the cycle stops after two log lines. *)
Lemma check_for_appointments_no_data env ntfy_url wandb_run locations_map rmv_url locs st :
  get_rmv_data env rmv_url locs = None \/ get_rmv_data env rmv_url locs = Some [] ->
  check_for_appointments env ntfy_url wandb_run locations_map rmv_url locs st
  = (st, outside [Log INFO "--- Running RMV Appointment Check ---";
                  Log WARNING "Could not fetch live appointment data."]).
Proof.
  unfold check_for_appointments. intros [-> | ->]; reflexivity.
Qed.

Section Body.
Context (env : Env) (ntfy_url : string) (wandb_run : bool)
        (locations_map : option (gmap string string)).

Lemma check_location_state st loc :
  fst (check_location env ntfy_url wandb_run locations_map st loc)
  = next_state (classify (now env) st loc) st loc.
Proof.
  unfold check_location, classify, parsed, last_known.
  destruct (name_of (loc_id loc) locations_map) as [name w0].
  destruct (parse_date (earliest_date loc)) as [[d|] w1]; cbn [bind fst snd]; [|reflexivity].
  destruct (parse_opt (st !! loc_id loc)) as [[l|] w2]; cbn [bind fst snd].
  - destruct (ltb l (now env)); [reflexivity|].
    destruct (gtb d l); [reflexivity|].
    destruct (ltb d l); [|reflexivity].
    cbn [bind fst snd send_ntfy_notification emit ret next_state]. unfold canonical.
    destruct (has_time _); reflexivity.
  - cbn [bind fst snd send_ntfy_notification emit ret next_state]. unfold canonical.
    destruct (has_time _); reflexivity.
Qed.

Lemma check_location_signals st loc :
  signals (snd (check_location env ntfy_url wandb_run locations_map st loc))
  = expected_signals env ntfy_url wandb_run locations_map (classify (now env) st loc) st loc.
Proof.
  unfold check_location, classify, parsed, last_known, expected_signals, event, notice.
  pose proof (name_of_signals (loc_id loc) locations_map) as H0.
  pose proof (parse_date_signals (earliest_date loc)) as H1.
  pose proof (parse_opt_signals (st !! loc_id loc)) as H2.
  destruct (name_of (loc_id loc) locations_map) as [name w0] eqn:Hn.
  destruct (parse_date (earliest_date loc)) as [[d|] w1]; cbn [bind fst snd] in *.
  2:{ rewrite !signals_app, H0, H1. destruct (contains _ _); reflexivity. }
  destruct (parse_opt (st !! loc_id loc)) as [[l|] w2]; cbn [bind fst snd] in *.
  - destruct (ltb l (now env)); [|destruct (gtb d l); [|destruct (ltb d l)]];
      cbn [bind fst snd emit send_ntfy_notification ret];
      destruct wandb_run;
      cbn [bind fst snd emit send_ntfy_notification ret];
      rewrite ?signals_app, ?log_event_signals, ?Hn, ?H0, ?H1, ?H2; reflexivity.
  - cbn [bind fst snd emit send_ntfy_notification ret];
      destruct wandb_run;
      rewrite ?signals_app, ?log_event_signals, ?Hn, ?H0, ?H1, ?H2; reflexivity.
Qed.

Lemma for_each_check_location live_data : forall st,
  let r := for_each (check_location env ntfy_url wandb_run locations_map) live_data st in
  fst r = fst (expected_run env ntfy_url wandb_run locations_map live_data st) /\
  signals_t (snd r) = snd (expected_run env ntfy_url wandb_run locations_map live_data st).
Proof.
  induction live_data as [|loc rest IH]; intros st; [split; reflexivity|].
  cbn [for_each expected_run fst snd].
  rewrite signals_t_app, signals_t_inside, check_location_signals, check_location_state.
  destruct (IH (next_state (classify (now env) st loc) st loc)) as [E1 E2].
  rewrite E1, E2. split; reflexivity.
Qed.

Lemma next_state_nonempty v st loc : st ≠ ∅ -> next_state v st loc ≠ ∅.
Proof.
  intros H. destruct v; cbn [next_state]; try assumption; apply insert_non_empty.
Qed.

Lemma last_known_nonempty st k d : last_known st k = Some d -> st ≠ ∅.
Proof.
  unfold last_known. intros H ->. rewrite lookup_empty in H. discriminate.
Qed.

Lemma next_state_dated st loc d :
  parsed (earliest_date loc) = Some d ->
  next_state (classify (now env) st loc) st loc ≠ ∅.
Proof.
  intros Hd. unfold classify. rewrite Hd.
  destruct (last_known st (loc_id loc)) as [l|] eqn:Hl.
  2:{ apply insert_non_empty. }
  destruct (ltb l (now env)); [apply insert_non_empty|].
  destruct (gtb d l); [apply insert_non_empty|].
  destruct (ltb d l); [apply insert_non_empty|].
  cbn. eapply last_known_nonempty; eauto.
Qed.

Lemma expected_run_nonempty live_data : forall st,
  st ≠ ∅ -> fst (expected_run env ntfy_url wandb_run locations_map live_data st) ≠ ∅.
Proof.
  induction live_data as [|loc rest IH]; intros st H; [exact H|].
  cbn [expected_run fst]. apply IH, next_state_nonempty, H.
Qed.

Lemma expected_run_empty live_data : forall st,
  fst (expected_run env ntfy_url wandb_run locations_map live_data st) = ∅ ->
  Forall (fun loc => parsed (earliest_date loc) = None) live_data.
Proof.
  induction live_data as [|loc rest IH]; intros st H; [constructor|].
  cbn [expected_run fst] in H.
  destruct (parsed (earliest_date loc)) as [d|] eqn:Hd.
  - exfalso. revert H. apply expected_run_nonempty. eapply next_state_dated; eauto.
  - constructor; [assumption|]. eapply IH; eauto.
Qed.

Lemma populate_location_absent st loc :
  parsed (earliest_date loc) = None ->
  fst (populate_location wandb_run locations_map st loc) = st /\
  signals (snd (populate_location wandb_run locations_map st loc)) = [].
Proof.
  unfold parsed, populate_location. intros H.
  pose proof (parse_date_signals (earliest_date loc)) as H1.
  destruct (parse_date (earliest_date loc)) as [o w]. cbn in H. subst o.
  cbn [bind fst snd ret] in *. rewrite signals_app, H1. auto.
Qed.

Lemma for_each_populate_absent live_data : forall st,
  Forall (fun loc => parsed (earliest_date loc) = None) live_data ->
  fst (for_each (populate_location wandb_run locations_map) live_data st) = st /\
  signals_t (snd (for_each (populate_location wandb_run locations_map) live_data st)) = [].
Proof.
  induction live_data as [|loc rest IH]; intros st H; [auto|].
  inversion H as [|? ? Hloc Hrest]; subst.
  destruct (populate_location_absent st loc Hloc) as [E1 E2].
  cbn [for_each fst snd]. rewrite E1, signals_t_app, signals_t_inside, E2.
  destruct (IH st Hrest) as [E3 E4]. rewrite E3, E4. auto.
Qed.

(** A whole cycle, on its signals: the second loop never changes the
    dictionary and never issues a signal, because the test [if not state]
    reads the dictionary after the first loop has filled it. *)
Lemma check_for_appointments_signals rmv_url locs st loc rest :
  get_rmv_data env rmv_url locs = Some (loc :: rest) ->
  let r := check_for_appointments env ntfy_url wandb_run locations_map rmv_url locs st in
  let e := expected_run env ntfy_url wandb_run locations_map (loc :: rest) st in
  fst r = fst e /\
  signals_t (snd r) = snd e ++ [(None, SaveJson (fst e) STATE_FILE)].
Proof.
  intros Hget. unfold check_for_appointments. rewrite Hget.
  destruct (for_each_check_location (loc :: rest) st) as [H1 H2].
  set (r1 := for_each _ (loc :: rest) st) in *.
  set (e := expected_run _ _ _ _ (loc :: rest) st) in *.
  cbn [fst snd].
  unfold truthy_dict. rewrite negb_involutive.
  destruct (bool_decide (fst r1 = ∅)) eqn:Hb.
  - apply bool_decide_eq_true in Hb.
    assert (Forall (fun loc => parsed (earliest_date loc) = None) (loc :: rest)) as Hall.
    { apply (expected_run_empty _ st). fold e. congruence. }
    destruct (for_each_populate_absent (loc :: rest) (fst r1) Hall) as [E1 E2].
    cbn [fst snd]. rewrite E1. split; [assumption|].
    rewrite !signals_t_app, E2, H2, H1. reflexivity.
  - cbn [fst snd]. split; [assumption|].
    rewrite !signals_t_app, H2, H1. reflexivity.
Qed.

End Body.

End Facts.

(** ** One location within a whole cycle *)

Module Once.
Import Py Datetime Strptime Monitor Table Facts.
Local Open Scope list_scope.

Lemma at_location_app k a b : at_location k (a ++ b) = at_location k a ++ at_location k b.
Proof. unfold at_location. rewrite List.filter_app, List.map_app. reflexivity. Qed.

Lemma at_location_inside k k' w :
  at_location k (inside k' w) = if bool_decide (k' = k) then w else [].
Proof.
  unfold at_location, inside. induction w as [|e w IH]; cbn.
  - destruct (bool_decide _); reflexivity.
  - destruct (bool_decide (k' = k)) eqn:E.
    + apply bool_decide_eq_true in E. subst k'.
      rewrite bool_decide_eq_true_2 by reflexivity. cbn. rewrite IH. reflexivity.
    + apply bool_decide_eq_false in E.
      rewrite bool_decide_eq_false_2 by congruence. exact IH.
Qed.

Lemma at_location_outside k w : at_location k (outside w) = [].
Proof. unfold at_location, outside. induction w as [|e w IH]; cbn; auto. Qed.

Lemma at_location_signals k t : at_location k (signals_t t) = signals (at_location k t).
Proof.
  unfold at_location, signals_t, signals. induction t as [|[o e] t IH]; [reflexivity|].
  cbn. destruct (is_log e) eqn:E1; destruct (bool_decide (o = Some k)) eqn:E2; cbn;
    rewrite ?E1, ?E2; cbn; rewrite IH; reflexivity.
Qed.

Section Unique.
Context (env : Env) (ntfy_url : string) (wandb_run : bool)
        (locations_map : option (gmap string string)).
#[local] Abbreviation expected_run := (expected_run env ntfy_url wandb_run locations_map).
#[local] Abbreviation expected_signals := (expected_signals env ntfy_url wandb_run locations_map).

Lemma classify_ext t st st' loc :
  st !! loc_id loc = st' !! loc_id loc -> classify t st loc = classify t st' loc.
Proof. unfold classify, last_known. intros ->. reflexivity. Qed.

Lemma expected_signals_ext v st st' loc :
  st !! loc_id loc = st' !! loc_id loc -> expected_signals v st loc = expected_signals v st' loc.
Proof. unfold expected_signals, event. intros ->. reflexivity. Qed.

Lemma next_state_other v st loc k :
  loc_id loc ≠ k -> next_state v st loc !! k = st !! k.
Proof. intros H. destruct v; cbn; rewrite ?lookup_insert_ne by assumption; reflexivity. Qed.

Lemma next_state_ext v st st' loc :
  st !! loc_id loc = st' !! loc_id loc ->
  next_state v st loc !! loc_id loc = next_state v st' loc !! loc_id loc.
Proof. intros H. destruct v; cbn; rewrite ?lookup_insert_eq; auto. Qed.

Lemma expected_run_app a b st :
  expected_run (a ++ b) st =
  (fst (expected_run b (fst (expected_run a st))),
   snd (expected_run a st) ++ snd (expected_run b (fst (expected_run a st)))).
Proof.
  revert st. induction a as [|loc a IH]; intros st; cbn [app expected_run fst snd].
  - destruct (expected_run b st); reflexivity.
  - rewrite IH. cbn [fst snd]. rewrite app_assoc. reflexivity.
Qed.

(** Entries of other locations leave [k] alone. *)
Lemma expected_run_others l k : forall st,
  Forall (fun loc => loc_id loc ≠ k) l ->
  fst (expected_run l st) !! k = st !! k /\ at_location k (snd (expected_run l st)) = [].
Proof.
  induction l as [|loc l IH]; intros st H; [auto|].
  inversion H as [|? ? Hloc Hl]; subst. cbn [expected_run fst snd].
  destruct (IH (next_state (classify (now env) st loc) st loc) Hl) as [E1 E2].
  rewrite E1, at_location_app, E2, at_location_inside, next_state_other by assumption.
  rewrite bool_decide_eq_false_2 by assumption. auto.
Qed.

(** A location met once in the scraped data is judged against the
    dictionary the cycle started from. *)
Lemma expected_run_once pre loc post st :
  Forall (fun l => loc_id l ≠ loc_id loc) (pre ++ post) ->
  let v := classify (now env) st loc in
  fst (expected_run (pre ++ loc :: post) st) !! loc_id loc = next_state v st loc !! loc_id loc /\
  at_location (loc_id loc) (snd (expected_run (pre ++ loc :: post) st)) = expected_signals v st loc.
Proof.
  intros H. apply Forall_app in H as [Hpre Hpost].
  destruct (expected_run_others pre (loc_id loc) st Hpre) as [E1 E2].
  rewrite expected_run_app. cbn [fst snd expected_run].
  set (st1 := fst (expected_run pre st)) in *.
  destruct (expected_run_others post (loc_id loc)
              (next_state (classify (now env) st1 loc) st1 loc) Hpost) as [E3 E4].
  rewrite E3, !at_location_app, E2, E4, at_location_inside.
  rewrite bool_decide_eq_true_2 by reflexivity.
  rewrite (classify_ext _ st1 st) by assumption.
  rewrite (expected_signals_ext _ st1 st) by assumption.
  rewrite app_nil_r. cbn [app]. split; [|reflexivity].
  apply next_state_ext; assumption.
Qed.

(** The same for a whole cycle. *)
Lemma check_for_appointments_once rmv_url locs pre loc post st :
  get_rmv_data env rmv_url locs = Some (pre ++ loc :: post) ->
  Forall (fun l => loc_id l ≠ loc_id loc) (pre ++ post) ->
  let r := check_for_appointments env ntfy_url wandb_run locations_map rmv_url locs st in
  let v := classify (now env) st loc in
  fst r !! loc_id loc = next_state v st loc !! loc_id loc /\
  signals (at_location (loc_id loc) (snd r)) = expected_signals v st loc.
Proof.
  intros Hget Hu.
  assert (exists x xs, pre ++ loc :: post = x :: xs) as (x & xs & Hx).
  { destruct pre; cbn; eauto. }
  rewrite Hx in Hget.
  destruct (check_for_appointments_signals env ntfy_url wandb_run locations_map
              rmv_url locs st x xs Hget) as [E1 E2].
  rewrite <- Hx in *.
  destruct (expected_run_once pre loc post st Hu) as [E3 E4].
  cbn zeta. rewrite E1, <- at_location_signals, E2, at_location_app, E4.
  cbn. rewrite app_nil_r. auto.
Qed.

(** When every entry of location [k] is without a date. *)
Lemma expected_run_dateless l k : forall st,
  Forall (fun loc => loc_id loc = k -> parsed (earliest_date loc) = None) l ->
  fst (expected_run l st) !! k = st !! k /\ at_location k (snd (expected_run l st)) = [].
Proof.
  induction l as [|loc l IH]; intros st H; [auto|].
  inversion H as [|? ? Hloc Hl]; subst. cbn [expected_run fst snd].
  destruct (IH (next_state (classify (now env) st loc) st loc) Hl) as [E1 E2].
  rewrite E1, at_location_app, E2, at_location_inside.
  destruct (decide (loc_id loc = k)) as [Hk|Hk].
  - unfold classify. rewrite (Hloc Hk). cbn.
    destruct (bool_decide _); auto.
  - rewrite next_state_other by assumption.
    rewrite bool_decide_eq_false_2 by assumption. auto.
Qed.

Lemma check_for_appointments_dateless rmv_url locs live_data st k :
  get_rmv_data env rmv_url locs = Some live_data ->
  Forall (fun loc => loc_id loc = k -> parsed (earliest_date loc) = None) live_data ->
  let r := check_for_appointments env ntfy_url wandb_run locations_map rmv_url locs st in
  fst r !! k = st !! k /\ signals (at_location k (snd r)) = [].
Proof.
  intros Hget H. destruct live_data as [|x xs].
  - unfold check_for_appointments. rewrite Hget. cbn. auto.
  - destruct (check_for_appointments_signals env ntfy_url wandb_run locations_map
                rmv_url locs st x xs Hget) as [E1 E2].
    destruct (expected_run_dateless (x :: xs) k st H) as [E3 E4].
    cbn zeta. rewrite E1, <- at_location_signals, E2, at_location_app, E4. cbn. auto.
Qed.

End Unique.

End Once.

(** ** The claims of the specification *)

Module Claims.
Import Py Datetime Strptime Monitor Table Statements Facts Once.
Local Open Scope list_scope.

Lemma parsed_sentinel s :
  contains "No Appointments" s = true \/ contains "No Date Found" s = true
  \/ contains "Location Not Available" s = true ->
  parse_date s = (None, []).
Proof.
  unfold parse_date. intros [H|[H|H]]; rewrite H, ?orb_true_r; reflexivity.
Qed.

Lemma last_known_Some st k s l :
  st !! k = Some s -> parsed s = Some l -> last_known st k = Some l.
Proof.
  unfold last_known, parsed. intros -> H. cbn.
  destruct s; [vm_compute in H; discriminate|exact H].
Qed.

Lemma Forall_of_In {A} (P : A -> Prop) l : (forall x, In x l -> P x) -> Forall P l.
Proof. intros H. apply List.Forall_forall. exact H. Qed.

(** Claim C8.  When the scraper returns nothing ([None] or an empty list),
    the cycle classifies nothing, notifies nobody, does not rewrite the state
    file and returns the dictionary it was given: its result is that
    dictionary and its only effects are the two log lines. *)
Theorem C8_no_data_skips_the_cycle env ntfy_url wandb_run locations_map rmv_url locs st :
  get_rmv_data env rmv_url locs = None \/ get_rmv_data env rmv_url locs = Some [] ->
  check_for_appointments env ntfy_url wandb_run locations_map rmv_url locs st
  = (st, outside [Log INFO "--- Running RMV Appointment Check ---";
                  Log WARNING "Could not fetch live appointment data."]).
Proof. apply check_for_appointments_no_data. Qed.

Lemma C8_witness :
  check_for_appointments (scraped None june_1st) "ntfy" true None "url" []
    {[ "3" := "Wed Aug 14, 2024" ]}
  = ({[ "3" := "Wed Aug 14, 2024" ]},
     outside [Log INFO "--- Running RMV Appointment Check ---";
              Log WARNING "Could not fetch live appointment data."]).
Proof. apply C8_no_data_skips_the_cycle. left. reflexivity. Defined.

(** Claim C4.  A location whose scraped value is the "Location Not
    Available" sentinel keeps, after the cycle, exactly the entry it had
    before (none when it had none), and no event and no notification is
    issued while it is processed: the effects of its iterations are log
    lines only. *)
Theorem C4_unavailable_is_preserved env ntfy_url wandb_run locations_map rmv_url locs
    live_data st k :
  get_rmv_data env rmv_url locs = Some live_data ->
  (forall loc, In loc live_data -> loc_id loc = k ->
     contains "Location Not Available" (earliest_date loc) = true) ->
  let r := check_for_appointments env ntfy_url wandb_run locations_map rmv_url locs st in
  fst r !! k = st !! k /\ signals (at_location k (snd r)) = [].
Proof.
  intros Hget H. eapply check_for_appointments_dateless; [exact Hget|].
  apply Forall_of_In. intros loc Hin Hk. unfold parsed.
  rewrite parsed_sentinel; [reflexivity|]. right. right. auto.
Qed.

Lemma C4_witness :
  let r := check_for_appointments
             (scraped (Some [mk_location "3" "Three" "Location Not Available"]) june_1st)
             "ntfy" true None "url" [] {[ "3" := "Wed Aug 14, 2024" ]} in
  fst r !! "3" = ({[ "3" := "Wed Aug 14, 2024" ]} : gmap string string) !! "3"
  /\ signals (at_location "3" (snd r)) = [].
Proof.
  apply (C4_unavailable_is_preserved _ _ _ _ _ _
           [mk_location "3" "Three" "Location Not Available"]).
  - reflexivity.
  - intros loc [<-|[]] _. reflexivity.
Defined.

(** Claim C10.  A location whose scraped value is a "no appointment"
    sentinel ("No Appointments", "No Date Found") while the dictionary
    holds an entry for it keeps that entry, and no notification (indeed no
    signal at all) is issued for it. *)
Theorem C10_no_appointment_keeps_prior env ntfy_url wandb_run locations_map rmv_url locs
    live_data st k v :
  get_rmv_data env rmv_url locs = Some live_data ->
  (forall loc, In loc live_data -> loc_id loc = k ->
     contains "No Appointments" (earliest_date loc) = true
     \/ contains "No Date Found" (earliest_date loc) = true) ->
  st !! k = Some v ->
  let r := check_for_appointments env ntfy_url wandb_run locations_map rmv_url locs st in
  fst r !! k = Some v /\ signals (at_location k (snd r)) = [].
Proof.
  intros Hget H Hv. rewrite <- Hv.
  eapply check_for_appointments_dateless; [exact Hget|].
  apply Forall_of_In. intros loc Hin Hk. unfold parsed.
  rewrite parsed_sentinel; [reflexivity|]. destruct (H loc Hin Hk); auto.
Qed.

Lemma C10_witness :
  let r := check_for_appointments
             (scraped (Some [mk_location "3" "Three" "No Appointments Available"]) june_1st)
             "ntfy" true None "url" [] {[ "3" := "Wed Aug 14, 2024" ]} in
  fst r !! "3" = Some "Wed Aug 14, 2024" /\ signals (at_location "3" (snd r)) = [].
Proof.
  apply (C10_no_appointment_keeps_prior _ _ _ _ _ _
           [mk_location "3" "Three" "No Appointments Available"]).
  - reflexivity.
  - intros loc [<-|[]] _. left. reflexivity.
  - reflexivity.
Defined.

(** Claim C3.  When the entry recorded for a location parses to a date
    strictly before [now] and the scraped value parses to a date [d], the
    location (met once in the scraped data) is classified
    [expired_replaced]: the dictionary ends with the scraped text for it,
    whatever the order of [d] and the stale date [l], and the signals of its
    iteration are the [expired_replaced] event carrying
    [(d - l) / 1h], as the float the program computes, when tracking is on,
    followed by the notification. *)
Theorem C3_lapsed_prior_is_replaced env ntfy_url wandb_run locations_map rmv_url locs
    pre loc post st prior_str l d :
  get_rmv_data env rmv_url locs = Some (pre ++ loc :: post) ->
  (forall x, In x (pre ++ post) -> loc_id x <> loc_id loc) ->
  st !! loc_id loc = Some prior_str ->
  parsed prior_str = Some l ->
  ltb l (now env) = true ->
  parsed (earliest_date loc) = Some d ->
  let r := check_for_appointments env ntfy_url wandb_run locations_map rmv_url locs st in
  let name := fst (name_of (loc_id loc) locations_map) in
  fst r !! loc_id loc = Some (earliest_date loc) /\
  signals (at_location (loc_id loc) (snd r)) =
    (if wandb_run
     then [Wandb (mk_wandb_event "expired_replaced" (loc_id loc) name (Some prior_str)
                    (Some (earliest_date loc)) (Some (hours (sub d l))))]
     else [])
    ++ [Ntfy ntfy_url (message_for name (earliest_date loc) d +:+ nl
                       +:+ appointment_text_links env)].
Proof.
  intros Hget Hu Hst Hl Hlt Hd.
  destruct (check_for_appointments_once env ntfy_url wandb_run locations_map rmv_url locs
              pre loc post st Hget (Forall_of_In _ _ Hu)) as [E1 E2].
  cbn zeta in *. rewrite E1, E2. unfold classify.
  rewrite Hd, (last_known_Some _ _ _ _ Hst Hl), Hlt.
  cbn [next_state expected_signals]. unfold event, notice.
  rewrite lookup_insert_eq, Hst. auto.
Qed.

(** An appointment 3865 hours and 20 minutes after the lapsed one: the
    float logged, [8499957890460331 * 2^-41], prints as
    [3865.3333333333335]. *)
Lemma C3_witness :
  let env := scraped (Some [mk_location "5" "Five" "Mon Jun 10, 2024, 10:20 AM"]) june_1st in
  let r := check_for_appointments env "ntfy" true None "url" []
             {[ "5" := "Mon Jan 01, 2024, 09:00 AM" ]} in
  fst r !! "5" = Some "Mon Jun 10, 2024, 10:20 AM" /\
  signals (at_location "5" (snd r)) =
    [Wandb (mk_wandb_event "expired_replaced" "5" "ID-5" (Some "Mon Jan 01, 2024, 09:00 AM")
              (Some "Mon Jun 10, 2024, 10:20 AM")
              (Some (S754_finite false 8499957890460331 (-41))));
     Ntfy "ntfy" ("New appointment at ID-5: Mon, Jun 10, 2024 at 10:20 AM" +:+ nl +:+ "")].
Proof.
  apply (C3_lapsed_prior_is_replaced
           (scraped (Some [mk_location "5" "Five" "Mon Jun 10, 2024, 10:20 AM"]) june_1st)
           "ntfy" true None "url" [] [] (mk_location "5" "Five" "Mon Jun 10, 2024, 10:20 AM") []
           {[ "5" := "Mon Jan 01, 2024, 09:00 AM" ]} "Mon Jan 01, 2024, 09:00 AM"
           (mk_datetime 2024 1 1 9 0 0 0) (mk_datetime 2024 6 10 10 20 0 0)).
  - reflexivity.
  - intros x [].
  - reflexivity.
  - vm_compute. reflexivity.
  - reflexivity.
  - vm_compute. reflexivity.
Defined.

Lemma expected_signals_events env ntfy_url wandb_run locations_map v st loc ev :
  In (Wandb ev) (expected_signals env ntfy_url wandb_run locations_map v st loc) ->
  In (event_type ev) loop_event_types.
Proof.
  unfold expected_signals, event, notice, loop_event_types.
  destruct v, wandb_run; cbn; intros H;
    repeat (destruct H as [H|H]; [try discriminate; injection H as <-; cbn; auto 6|]);
    try contradiction.
Qed.

Lemma expected_run_events env ntfy_url wandb_run locations_map l : forall st o ev,
  In (o, Wandb ev) (snd (expected_run env ntfy_url wandb_run locations_map l st)) ->
  In (event_type ev) loop_event_types.
Proof.
  induction l as [|loc l IH]; intros st o ev H; [contradiction|].
  cbn [expected_run snd] in H. apply in_app_or in H as [H|H]; [|eapply IH; eauto].
  unfold inside in H. apply in_map_iff in H as (e & He & Hin). injection He as _ ->.
  eapply expected_signals_events; eauto.
Qed.

(** The second loop is dead code: whatever the inputs, no cycle logs an
    ["initial_population"] event. *)
Lemma initial_population_never_logged env ntfy_url wandb_run locations_map rmv_url locs st o ev :
  In (o, Wandb ev)
     (snd (check_for_appointments env ntfy_url wandb_run locations_map rmv_url locs st)) ->
  event_type ev <> "initial_population".
Proof.
  intros H.
  assert (In (event_type ev) loop_event_types) as Hty.
  { destruct (get_rmv_data env rmv_url locs) as [[|x xs]|] eqn:Hget.
    - unfold check_for_appointments in H. rewrite Hget in H. cbn in H.
      destruct H as [H|[H|[]]]; discriminate.
    - destruct (check_for_appointments_signals env ntfy_url wandb_run locations_map
                  rmv_url locs st x xs Hget) as [_ E].
      assert (In (o, Wandb ev) (signals_t
        (snd (check_for_appointments env ntfy_url wandb_run locations_map rmv_url locs st))))
        as H'.
      { apply List.filter_In. split; [exact H|reflexivity]. }
      rewrite E in H'. apply in_app_or in H' as [H'|[H'|[]]]; [|discriminate].
      eapply expected_run_events; eauto.
    - unfold check_for_appointments in H. rewrite Hget in H. cbn in H.
      destruct H as [H|[H|[]]]; discriminate. }
  intros E. rewrite E in Hty. cbn in Hty.
  repeat (destruct Hty as [Hty|Hty]; [discriminate|]). contradiction.
Qed.

(** Claim C1 (the code departs from it).  With an empty dictionary and one
    location scraped with the date "Tue Jul 02, 2024", the cycle records
    the date, but through the first loop: the signals are the notification
    and a [first_appointment] event; no [initial_population] event is
    logged, because the second loop is guarded by the dictionary the first
    loop has just filled. *)
Theorem C1_first_loop_preempts_bootstrap :
  let env := scraped (Some [mk_location "7" "Seven" "Tue Jul 02, 2024"]) june_1st in
  let r := check_for_appointments env "ntfy" true None "url" [] ∅ in
  fst r = {[ "7" := "Tue Jul 02, 2024" ]} /\
  signals_t (snd r) =
    [(Some "7", Ntfy "ntfy" ("New earliest date at ID-7: Tue, Jul 02, 2024" +:+ nl +:+ ""));
     (Some "7", Wandb (mk_wandb_event "first_appointment" "7" "ID-7" None
                         (Some "Tue Jul 02, 2024") None));
     (None, SaveJson {[ "7" := "Tue Jul 02, 2024" ]} STATE_FILE)].
Proof. vm_compute. split; reflexivity. Qed.

(** Claim C5, as stated, fails: a lapsed entry is replaced by the scraped
    text as it is, here with its trailing comma, not by the canonical
    form. *)
Lemma C5_counterexample :
  let loc := mk_location "5" "Five" "Mon Jun 10, 2024, 10:30 AM," in
  ~ stores_canonical (scraped (Some [loc]) june_1st)
      {[ "5" := "Mon Jan 01, 2024, 09:00 AM" ]} loc.
Proof.
  intros loc H.
  specialize (H (mk_datetime 2024 6 10 10 30 0 0)).
  vm_compute in H. specialize (H eq_refl eq_refl). discriminate H.
Qed.

(** Claim C5, amended.  For a location met once in the scraped data, with
    a scraped date [d]: a first or an earlier appointment records the
    canonical form of [d], which carries the time of day exactly when the
    scraped text has an [AM] or [PM] marker; a replaced lapsed entry and a
    new availability record the scraped text unchanged; otherwise the entry
    stays as it was. *)
Theorem C5_persisted_value env ntfy_url wandb_run locations_map rmv_url locs
    pre loc post st d :
  get_rmv_data env rmv_url locs = Some (pre ++ loc :: post) ->
  (forall x, In x (pre ++ post) -> loc_id x <> loc_id loc) ->
  parsed (earliest_date loc) = Some d ->
  let r := check_for_appointments env ntfy_url wandb_run locations_map rmv_url locs st in
  fst r !! loc_id loc =
    match classify (now env) st loc with
    | first_appointment _ | earlier_appointment _ _ =>
        Some (if has_time (earliest_date loc)
              then strftime d "%a %b %d, %Y, %I:%M %p"
              else strftime d "%a %b %d, %Y")
    | expired_replaced _ _ | new_availability _ _ => Some (earliest_date loc)
    | no_change _ _ | no_date => st !! loc_id loc
    end.
Proof.
  intros Hget Hu Hd.
  destruct (check_for_appointments_once env ntfy_url wandb_run locations_map rmv_url locs
              pre loc post st Hget (Forall_of_In _ _ Hu)) as [E1 _].
  cbn zeta in *. rewrite E1. unfold classify. rewrite Hd.
  destruct (last_known st (loc_id loc)) as [l|];
    [destruct (ltb l (now env)); [|destruct (gtb d l); [|destruct (ltb d l)]]|];
    cbn [next_state]; rewrite ?lookup_insert_eq; reflexivity.
Qed.

Lemma C5_witness :
  let loc := mk_location "5" "Five" "Mon Jun 03, 2024, 10:30 AM," in
  let env := scraped (Some [loc]) june_1st in
  let st : gmap string string := {[ "5" := "Mon Jun 10, 2024, 09:00 AM" ]} in
  fst (check_for_appointments env "ntfy" true None "url" [] st) !! "5"
  = Some "Mon Jun 03, 2024, 10:30 AM".
Proof.
  exact (C5_persisted_value
           (scraped (Some [mk_location "5" "Five" "Mon Jun 03, 2024, 10:30 AM,"]) june_1st)
           "ntfy" true None "url" [] [] (mk_location "5" "Five" "Mon Jun 03, 2024, 10:30 AM,") []
           {[ "5" := "Mon Jun 10, 2024, 09:00 AM" ]} (mk_datetime 2024 6 3 10 30 0 0)
           eq_refl (fun x (H : In x []) => match H with end) eq_refl).
Defined.

(** *** The directory of names *)

Lemma refresh_fold_fst catalog : forall (acc : W (gmap string string)),
  fst (fold_left
         (fun (acc : W (gmap string string)) loc =>
            bind acc (fun m =>
              if bool_decide (m !! center_id loc = None) then
                bind (emit (Log INFO ("Added new location: " +:+ center_id loc +:+ " -> "
                                      +:+ center_name loc)))
                     (fun _ => ret (<[center_id loc := center_name loc]> m))
              else ret m))
         catalog acc)
  = fold_left add_new catalog (fst acc).
Proof.
  induction catalog as [|c l IH]; intros acc; [reflexivity|].
  cbn [fold_left]. rewrite IH. f_equal.
  unfold add_new. cbn [bind fst]. destruct (bool_decide _); reflexivity.
Qed.

Lemma add_all_lookup catalog : forall (m : gmap string string) k,
  fold_left add_new catalog m !! k =
  match m !! k with
  | Some v => Some v
  | None => center_name <$> first_named k catalog
  end.
Proof.
  induction catalog as [|c l IH]; intros m k; cbn [fold_left].
  - destruct (m !! k); reflexivity.
  - rewrite IH. unfold add_new, first_named. cbn [List.find].
    repeat case_bool_decide; subst; simplify_map_eq; try reflexivity; try congruence.
    all: try (match goal with |- context [match ?x with _ => _ end] => destruct x eqn:? end;
              simplify_map_eq; reflexivity || congruence).
Qed.

Lemma new_ids_nonempty (m : gmap string string) (catalog : list center) :
  (list_to_set (center_id <$> catalog) : gset string) ∖ dom m ≠ ∅
  <-> exists c, In c catalog /\ m !! center_id c = None.
Proof.
  split.
  - intros H. apply set_choose_L in H as [x Hx].
    apply elem_of_difference in Hx as [Hin Hout].
    apply elem_of_list_to_set, list_elem_of_fmap in Hin as (c & -> & Hc).
    exists c. split; [apply list_elem_of_In; exact Hc|].
    apply not_elem_of_dom. exact Hout.
  - intros (c & Hc & Hm) E.
    assert (center_id c ∈ (list_to_set (center_id <$> catalog) : gset string) ∖ dom m) as Hx.
    { apply elem_of_difference. split.
      - apply elem_of_list_to_set, list_elem_of_fmap. exists c.
        split; [reflexivity|apply list_elem_of_In; exact Hc].
      - apply not_elem_of_dom. exact Hm. }
    rewrite E in Hx. apply not_elem_of_empty in Hx. exact Hx.
Qed.

(** Claim C7.  [refresh_locations_map_if_needed] on an empty directory
    returns [False] at once, with the directory and the outside world
    untouched.  On a directory that is not empty, every mapping it held is
    still there with its name, every identifier it did not hold is mapped
    as the catalogue gives it (by its first entry there) and to nothing
    when the catalogue has no entry for it, the result is [True] exactly
    when the catalogue has an entry whose identifier was not mapped, and
    [False] leaves directory and file as they were. *)
Theorem C7_merge_adds_only_unmapped (m : gmap string string) (catalog : list center) :
  let r := refresh_locations_map_if_needed m catalog in
  (m = ∅ -> r = ((false, m), [])) /\
  (m ≠ ∅ ->
     (forall k v, m !! k = Some v -> snd (fst r) !! k = Some v) /\
     (forall k, m !! k = None ->
        snd (fst r) !! k = center_name <$> first_named k catalog) /\
     (fst (fst r) = true <-> exists c, In c catalog /\ m !! center_id c = None) /\
     (fst (fst r) = false -> r = ((false, m), []))).
Proof.
  cbn zeta. unfold refresh_locations_map_if_needed, truthy_dict. split.
  - intros ->. reflexivity.
  - intros Hm. rewrite (bool_decide_eq_false_2 _ Hm). cbn [negb].
    destruct (bool_decide (_ ∖ _ = ∅)) eqn:Hd; cbn [negb].
    + apply bool_decide_eq_true in Hd. cbn [ret fst snd].
      assert (forall c, In c catalog -> m !! center_id c <> None) as Hall.
      { intros c Hc Hn. apply (proj2 (new_ids_nonempty m catalog)); eauto. }
      repeat split; auto.
      * intros k Hk. rewrite Hk. unfold first_named.
        destruct (List.find _ catalog) as [c|] eqn:Hf; [|reflexivity].
        apply List.find_some in Hf as [Hc Hid]. apply bool_decide_eq_true in Hid.
        subst k. exfalso. eapply Hall; eauto.
      * discriminate.
      * intros (c & Hc & Hn). exfalso. eapply Hall; eauto.
    + apply bool_decide_eq_false in Hd. cbn [bind emit ret fst snd].
      rewrite refresh_fold_fst. cbn [ret fst].
      repeat split.
      * intros k v Hk. rewrite add_all_lookup, Hk. reflexivity.
      * intros k Hk. rewrite add_all_lookup, Hk. reflexivity.
      * intros _. apply new_ids_nonempty. exact Hd.
      * discriminate.
Qed.

(** *** The date parser *)

Lemma lstrip_by_snoc p s c :
  p c = false -> lstrip_by p (s +:+ String c "") = lstrip_by p s +:+ String c "".
Proof.
  intros Hc. induction s as [|a t IH]; simpl.
  - rewrite Hc. reflexivity.
  - destruct (p a); [exact IH|reflexivity].
Qed.

Lemma rstrip_by_snoc_keep p s c :
  p c = false -> rstrip_by p (s +:+ String c "") = s +:+ String c "".
Proof.
  intros Hc. induction s as [|a t IH]; simpl.
  - rewrite Hc. reflexivity.
  - rewrite IH. destruct t; reflexivity.
Qed.

Lemma rstrip_by_snoc_drop p s c :
  p c = true -> rstrip_by p (s +:+ String c "") = rstrip_by p s.
Proof.
  intros Hc. induction s as [|a t IH]; simpl.
  - rewrite Hc. reflexivity.
  - rewrite IH. reflexivity.
Qed.

Lemma rstrip_by_lstrip_by p s :
  rstrip_by p s = s -> rstrip_by p (lstrip_by p s) = lstrip_by p s.
Proof.
  induction s as [|a t IH]; [reflexivity|]. intros H. cbn [lstrip_by].
  destruct (p a) eqn:Ha; [|exact H].
  apply IH. cbn in H. rewrite Ha in H.
  destruct (rstrip_by p t); [discriminate|]. injection H as H. exact H.
Qed.

Lemma cleaned_trailing_comma s :
  rstrip_by is_space s = s -> cleaned (s +:+ ",") = cleaned s.
Proof.
  intros H. unfold cleaned, strip, rstrip_comma.
  rewrite lstrip_by_snoc by reflexivity.
  rewrite rstrip_by_snoc_keep by reflexivity.
  rewrite rstrip_by_snoc_drop by reflexivity.
  rewrite rstrip_by_lstrip_by by exact H. reflexivity.
Qed.

Lemma prefix_trailing_comma p : forall s,
  comma_free p = true -> String.prefix p (s +:+ ",") = String.prefix p s.
Proof.
  induction p as [|c p IH]; intros s H; [destruct s; reflexivity|].
  cbn in H. apply andb_true_iff in H as [Hc Hp].
  destruct s as [|a t]; simpl.
  - destruct (ascii_dec c ","); [|reflexivity].
    subst c. discriminate Hc.
  - destruct (ascii_dec c a); [apply IH; exact Hp|reflexivity].
Qed.

Lemma contains_trailing_comma p s :
  comma_free p = true -> contains p (s +:+ ",") = contains p s.
Proof.
  intros H. induction s as [|a t IH].
  - pose proof (prefix_trailing_comma p "" H) as E. simpl in *.
    rewrite E. destruct p; reflexivity.
  - pose proof (prefix_trailing_comma p (String a t) H) as E. simpl in *.
    rewrite E, IH. reflexivity.
Qed.

(** Claim C6.  [parse_date] returns on every string, and what it returns
    is what the specification says: absent, silently, when the string
    contains one of the three sentinel phrases; otherwise the date read
    from the cleaned string in the date and time format, or else in the
    date-only format; and when both fail, absent with one parse-error line
    naming the string.  One trailing comma more does not change the result
    (for a string that does not end with white space). *)
Theorem C6_parse_date_meets_its_contract :
  (forall raw, parse_spec raw (fst (parse_date raw)) (snd (parse_date raw))) /\
  (forall raw, rstrip_by is_space raw = raw ->
     fst (parse_date (raw +:+ ",")) = fst (parse_date raw)).
Proof.
  split.
  - intros raw. unfold parse_date.
    destruct (contains "No Appointments" raw) eqn:H1.
    { eapply spec_sentinel; [|exact H1]. cbn; auto. }
    destruct (contains "No Date Found" raw) eqn:H2.
    { eapply spec_sentinel; [|exact H2]. cbn; auto. }
    destruct (contains "Location Not Available" raw) eqn:H3.
    { eapply spec_sentinel; [|exact H3]. cbn; auto. }
    assert (no_sentinel raw) as Hno.
    { intros p [<-|[<-|[<-|[]]]]; assumption. }
    cbn [orb]. fold (cleaned raw). fold DATE_TIME. fold DATE_ONLY.
    destruct (strptime (cleaned raw) DATE_TIME) as [e|d] eqn:E1.
    + destruct (strptime (cleaned raw) DATE_ONLY) as [e'|d] eqn:E2.
      * eapply spec_failure; eauto.
      * eapply spec_date_only; eauto.
    + eapply spec_date_time; eauto.
  - intros raw H. unfold parse_date.
    rewrite !contains_trailing_comma by reflexivity.
    fold (cleaned raw). fold (cleaned (raw +:+ ",")).
    rewrite (cleaned_trailing_comma raw H).
    destruct (_ || _); [reflexivity|].
    destruct (strptime (cleaned raw) _); [|reflexivity].
    destruct (strptime (cleaned raw) _); reflexivity.
Qed.

(** The relation determines the result. *)
Lemma parse_spec_functional raw r1 w1 r2 w2 :
  parse_spec raw r1 w1 -> parse_spec raw r2 w2 -> r1 = r2 /\ w1 = w2.
Proof.
  intros H1 H2.
  destruct H1 as [p Hp Hc|d Hn E|e d Hn E E'|e e' Hn E E'];
    destruct H2 as [p2 Hp2 Hc2|d2 Hn2 E2|e2 d2 Hn2 E2 E2'|e2 e2' Hn2 E2 E2'];
    try (split; reflexivity);
    try (rewrite (Hn2 p Hp) in Hc; discriminate);
    try (rewrite (Hn p2 Hp2) in Hc2; discriminate);
    try congruence.
  all: split; congruence.
Qed.

Example parse_date_examples :
  parse_date "Mon Jun 10, 2024, 10:30 AM," = (Some (mk_datetime 2024 6 10 10 30 0 0), [])
  /\ parse_date " Tue Jul 02, 2024 " = (Some (mk_datetime 2024 7 2 0 0 0 0), [])
  /\ parse_date "No Appointments Available" = (None, [])
  /\ parse_date "soon" = (None, [LogParseError "soon" (DoesNotMatch "soon" DATE_ONLY)]).
Proof. vm_compute. repeat split; reflexivity. Qed.

(** *** Where the entries of the dictionary come from *)

Section Origin.
Context (ntfy_url : string) (wandb_run : bool) (locations_map : option (gmap string string))
        (rmv_url : string) (locs : list center).

Lemma next_state_origin t st loc k :
  next_state (classify t st loc) st loc !! k = st !! k \/
  written_from [loc] k (next_state (classify t st loc) st loc !! k).
Proof.
  unfold classify. destruct (parsed (earliest_date loc)) as [d|] eqn:Hd; [|left; reflexivity].
  destruct (decide (loc_id loc = k)) as [Hk|Hk].
  2:{ left. apply next_state_other. exact Hk. }
  assert (forall v, v = Some (earliest_date loc) \/ v = Some (canonical (earliest_date loc) d) ->
                    written_from [loc] k v) as W.
  { intros v Hv. exists loc, d. cbn. auto. }
  subst k.
  destruct (last_known st (loc_id loc)) as [l|];
    [destruct (ltb l t); [|destruct (gtb d l); [|destruct (ltb d l)]]|];
    cbn [next_state]; rewrite ?lookup_insert_eq; auto.
Qed.

Lemma next_state_keeps v st loc k :
  is_Some (st !! k) -> is_Some (next_state v st loc !! k).
Proof.
  intros H. destruct v; cbn [next_state]; try exact H;
    (destruct (decide (loc_id loc = k)) as [<-|Hk];
     [rewrite lookup_insert_eq; eauto|rewrite lookup_insert_ne by exact Hk; exact H]).
Qed.

Lemma written_from_weaken a b k v :
  written_from b k v -> written_from (a ++ b) k v.
Proof.
  intros (loc & d & Hin & H). exists loc, d. split; [apply in_or_app; auto|exact H].
Qed.

Lemma expected_run_origin env l : forall st k,
  let final := fst (expected_run env ntfy_url wandb_run locations_map l st) in
  (is_Some (st !! k) -> is_Some (final !! k)) /\
  (final !! k = st !! k \/ written_from l k (final !! k)).
Proof.
  induction l as [|loc l IH]; intros st k; cbn [expected_run fst]; [auto|].
  destruct (IH (next_state (classify (now env) st loc) st loc) k) as [K O].
  split.
  - intros H. apply K, next_state_keeps, H.
  - destruct O as [O|O].
    + rewrite O. destruct (next_state_origin (now env) st loc k) as [E|E]; [auto|].
      right. destruct E as (x & d & [<-|[]] & H). exists loc, d. cbn. auto.
    + right. apply (written_from_weaken [loc]). exact O.
Qed.

(** One cycle. *)
Lemma check_for_appointments_origin env st k :
  let final := fst (check_for_appointments env ntfy_url wandb_run locations_map
                      rmv_url locs st) in
  (is_Some (st !! k) -> is_Some (final !! k)) /\
  (final !! k = st !! k \/
   exists live_data, get_rmv_data env rmv_url locs = Some live_data /\
                     written_from live_data k (final !! k)).
Proof.
  destruct (get_rmv_data env rmv_url locs) as [[|x xs]|] eqn:Hget.
  - unfold check_for_appointments. rewrite Hget. cbn. auto.
  - destruct (check_for_appointments_signals env ntfy_url wandb_run locations_map
                rmv_url locs st x xs Hget) as [E _].
    cbn zeta. rewrite E.
    destruct (expected_run_origin env (x :: xs) st k) as [K O].
    split; [exact K|]. destruct O as [O|O]; [auto|]. right. eauto.
  - unfold check_for_appointments. rewrite Hget. cbn. auto.
Qed.

(** Claim C9.  Over any number of cycles, an entry of the dictionary is
    never deleted, and an entry that differs from the one the monitor
    started with was written by one of the cycles from a scraped value that
    parsed to a date.  Started from the empty dictionary (no state file),
    every key was therefore written from such an observation. *)
Theorem C9_entries_come_from_dated_observations (envs : list Env) :
  forall (st : gmap string string) (k : string),
  let final := run_cycles ntfy_url wandb_run locations_map rmv_url locs envs st in
  (is_Some (st !! k) -> is_Some (final !! k)) /\
  (final !! k = st !! k \/
   exists env live_data,
     In env envs /\ get_rmv_data env rmv_url locs = Some live_data /\
     written_from live_data k (final !! k)) /\
  (st = ∅ -> is_Some (final !! k) ->
   exists env live_data,
     In env envs /\ get_rmv_data env rmv_url locs = Some live_data /\
     written_from live_data k (final !! k)).
Proof.
  assert (forall st k,
    let final := run_cycles ntfy_url wandb_run locations_map rmv_url locs envs st in
    (is_Some (st !! k) -> is_Some (final !! k)) /\
    (final !! k = st !! k \/
     exists env live_data,
       In env envs /\ get_rmv_data env rmv_url locs = Some live_data /\
       written_from live_data k (final !! k))) as Main.
  { induction envs as [|env envs IH]; intros st k; cbn [run_cycles]; [auto|].
    set (st1 := fst (check_for_appointments env ntfy_url wandb_run locations_map
                       rmv_url locs st)).
    destruct (check_for_appointments_origin env st k) as [K1 O1]. fold st1 in K1, O1.
    destruct (IH st1 k) as [K O]. split; [auto|].
    destruct O as [O|(e & ld & He & Hget & W)].
    - rewrite O. destruct O1 as [O1|(ld & Hget & W)]; [auto|].
      right. exists env, ld. cbn. auto.
    - right. exists e, ld. cbn. auto. }
  intros st k. destruct (Main st k) as [K O]. repeat split; [exact K|exact O|].
  intros -> [v Hv]. destruct O as [O|O]; [|exact O].
  rewrite O, lookup_empty in Hv. discriminate.
Qed.

End Origin.

(** *** Running a cycle twice *)

(** Claim C2, as stated, fails: a date without a time of day stands for
    midnight, so a date of today (or of the past) recorded by the first
    cycle has lapsed when the second cycle reads it, and the second cycle
    notifies again. *)
Lemma C2_counterexample :
  let env := scraped (Some [mk_location "7" "Seven" "Tue Jul 02, 2024"]) july_2nd_10am in
  ~ second_cycle_is_idle env env "ntfy" true None "url" [] ∅.
Proof.
  intros env [_ Q].
  specialize (Q (Some "7")
    (Ntfy "ntfy" ("New earliest date at ID-7: Tue, Jul 02, 2024" +:+ nl +:+ ""))).
  assert (is_alert (Ntfy "ntfy" ("New earliest date at ID-7: Tue, Jul 02, 2024"
                                 +:+ nl +:+ "")) = false) as H; [|discriminate H].
  apply Q. vm_compute. auto 10.
Qed.

Lemma lex_compare_refl a : lex_compare a a = Eq.
Proof. induction a as [|x a IH]; [reflexivity|]. cbn. rewrite Z.compare_refl. exact IH. Qed.

Lemma lex_compare_antisym a : forall b, lex_compare b a = CompOpp (lex_compare a b).
Proof.
  induction a as [|x a IH]; intros [|y b]; try reflexivity.
  cbn. rewrite (Z.compare_antisym x y). destruct (x ?= y); cbn; auto.
Qed.

Lemma lex_compare_eq a : forall b, lex_compare a b = Eq -> a = b.
Proof.
  induction a as [|x a IH]; intros [|y b] H; try discriminate; [reflexivity|].
  cbn in H. destruct (x ?= y) eqn:E; try discriminate.
  apply Z.compare_eq in E. subst. f_equal. auto.
Qed.

Lemma ltb_irrefl d : ltb d d = false.
Proof. unfold ltb, compare. rewrite lex_compare_refl. reflexivity. Qed.

Lemma not_ltb_gtb d l : gtb d l = false -> ltb d l = false -> d = l.
Proof.
  unfold gtb, ltb, compare. intros H1 H2.
  rewrite (lex_compare_antisym (fields d) (fields l)) in H1.
  destruct (lex_compare (fields d) (fields l)) eqn:E; try discriminate.
  apply lex_compare_eq in E. destruct d, l. unfold fields in E. cbn in E.
  injection E; intros; subst; reflexivity.
Qed.

Lemma last_known_insert st k s d :
  parsed s = Some d -> last_known (<[k := s]> st) k = Some d.
Proof. intros H. eapply last_known_Some; [apply lookup_insert_eq|exact H]. Qed.

Lemma last_known_ext st st' k : st !! k = st' !! k -> last_known st k = last_known st' k.
Proof. unfold last_known. intros ->. reflexivity. Qed.

Section Twice.
Context (ntfy_url : string) (wandb_run : bool) (locations_map : option (gmap string string))
        (rmv_url : string) (locs : list center).

(** After its iteration, the date recorded for a location is the scraped
    one, provided the canonical form reads back as the same date. *)
Lemma next_state_settles t st loc d :
  parsed (earliest_date loc) = Some d ->
  parsed (canonical (earliest_date loc) d) = Some d ->
  last_known (next_state (classify t st loc) st loc) (loc_id loc) = Some d.
Proof.
  intros Hd Hc. unfold classify. rewrite Hd.
  destruct (last_known st (loc_id loc)) as [l|] eqn:Hl.
  - destruct (ltb l t); [apply last_known_insert; exact Hd|].
    destruct (gtb d l) eqn:Hg; [apply last_known_insert; exact Hd|].
    destruct (ltb d l) eqn:Hlt; [apply last_known_insert; exact Hc|].
    cbn [next_state]. rewrite Hl. f_equal. symmetry. apply not_ltb_gtb; assumption.
  - apply last_known_insert. exact Hc.
Qed.

(** A cycle over data whose dates are all recorded already, and not
    lapsed, changes nothing and alerts nobody. *)
Lemma expected_run_settled env l : forall st,
  (forall loc d, In loc l -> parsed (earliest_date loc) = Some d ->
     last_known st (loc_id loc) = Some d /\ ltb d (now env) = false) ->
  fst (expected_run env ntfy_url wandb_run locations_map l st) = st /\
  quiet (snd (expected_run env ntfy_url wandb_run locations_map l st)) /\
  (forall loc d, In loc l -> parsed (earliest_date loc) = Some d ->
     classify (now env) st loc = no_change d d).
Proof.
  induction l as [|loc l IH]; intros st H.
  - cbn. repeat split; [intros o e []|intros loc d []].
  - assert (forall x d, In x (loc :: l) -> parsed (earliest_date x) = Some d ->
              classify (now env) st x = no_change d d) as Hc.
    { intros x d Hx Hd. destruct (H x d Hx Hd) as [Hl Hn].
      unfold classify. rewrite Hd, Hl, Hn. unfold gtb. rewrite ltb_irrefl. reflexivity. }
    assert (next_state (classify (now env) st loc) st loc = st) as Hs.
    { destruct (parsed (earliest_date loc)) as [d|] eqn:Hd.
      - rewrite (Hc loc d (or_introl eq_refl) Hd). reflexivity.
      - unfold classify. rewrite Hd. reflexivity. }
    cbn [expected_run fst snd]. rewrite Hs.
    destruct (IH st) as (E & Q & _).
    { intros x d Hx. apply H. right. exact Hx. }
    repeat split; [exact E| |exact Hc].
    intros o e Hin. apply in_app_or in Hin as [Hin|Hin]; [|eapply Q; exact Hin].
    unfold inside in Hin. apply in_map_iff in Hin as (e' & He & Hin). injection He as _ ->.
    destruct (parsed (earliest_date loc)) as [d|] eqn:Hd.
    + rewrite (Hc loc d (or_introl eq_refl) Hd) in Hin. cbn in Hin.
      destruct wandb_run; [destruct Hin as [<-|[]]; reflexivity|destruct Hin].
    + unfold classify in Hin. rewrite Hd in Hin. destruct Hin.
Qed.

Lemma quiet_signals t : quiet (signals_t t) -> quiet t.
Proof.
  intros Q o e Hin. destruct (is_alert e) eqn:E; [|reflexivity].
  rewrite <- E. apply (Q o e). apply List.filter_In. split; [exact Hin|].
  destruct e; try discriminate; reflexivity.
Qed.

Lemma NoDup_split_ids (l : list location) : forall pre loc post,
  List.NoDup (map loc_id l) -> l = pre ++ loc :: post ->
  Forall (fun x => loc_id x ≠ loc_id loc) (pre ++ post).
Proof.
  intros pre loc post H ->. rewrite map_app in H. cbn in H.
  apply NoDup_remove_2 in H. apply List.Forall_forall. intros x Hx E.
  apply H. rewrite <- map_app, <- E. apply in_map. exact Hx.
Qed.

(** Claim C2, amended.  Two cycles on the same scraped data, the second
    started from the dictionary the first returned: when the locations of
    the data are distinct, and every scraped date is not before the time of
    the second cycle and is read back from its canonical form, the second
    cycle returns the dictionary unchanged, sends no notification and logs
    no appointment event, and every location with a date is classified
    [no_change] (a location without a date is passed over). *)
Theorem C2_second_cycle_is_idle env1 env2 live_data st :
  get_rmv_data env1 rmv_url locs = Some live_data ->
  get_rmv_data env2 rmv_url locs = Some live_data ->
  List.NoDup (map loc_id live_data) ->
  (forall loc d, In loc live_data -> parsed (earliest_date loc) = Some d ->
     ltb d (now env2) = false /\ parsed (canonical (earliest_date loc) d) = Some d) ->
  let r1 := check_for_appointments env1 ntfy_url wandb_run locations_map rmv_url locs st in
  second_cycle_is_idle env1 env2 ntfy_url wandb_run locations_map rmv_url locs st /\
  (forall loc d, In loc live_data -> parsed (earliest_date loc) = Some d ->
     classify (now env2) (fst r1) loc = no_change d d).
Proof.
  intros Hget1 Hget2 Hnd H. cbn zeta. unfold second_cycle_is_idle. cbn zeta.
  set (r1 := check_for_appointments env1 ntfy_url wandb_run locations_map rmv_url locs st).
  destruct live_data as [|x xs].
  { split; [|intros loc d []].
    rewrite (check_for_appointments_no_data env2 _ _ _ _ _ (fst r1) (or_intror Hget2)).
    split; [reflexivity|]. intros o e [E|[E|[]]]; injection E as _ <-; reflexivity. }
  assert (forall loc d, In loc (x :: xs) -> parsed (earliest_date loc) = Some d ->
            last_known (fst r1) (loc_id loc) = Some d /\ ltb d (now env2) = false) as Hset.
  { intros loc d Hin Hd. destruct (H loc d Hin Hd) as [Hn Hc]. split; [|exact Hn].
    apply in_split in Hin as (pre & post & Hsplit).
    pose proof (NoDup_split_ids _ pre loc post Hnd Hsplit) as Hu.
    rewrite Hsplit in Hget1.
    destruct (check_for_appointments_once env1 ntfy_url wandb_run locations_map rmv_url locs
                pre loc post st Hget1 Hu) as [E _].
    fold r1 in E. rewrite (last_known_ext _ _ _ E).
    apply next_state_settles; assumption. }
  destruct (check_for_appointments_signals env2 ntfy_url wandb_run locations_map
              rmv_url locs (fst r1) x xs Hget2) as [E1 E2].
  destruct (expected_run_settled env2 (x :: xs) (fst r1) Hset) as (S1 & Q & C).
  split; [split|exact C].
  - rewrite E1. exact S1.
  - apply quiet_signals. rewrite E2. intros o e Hin.
    apply in_app_or in Hin as [Hin|[Hin|[]]]; [eapply Q; exact Hin|].
    injection Hin as _ <-. reflexivity.
Qed.

End Twice.

Lemma C2_witness :
  let live_data := [mk_location "7" "Seven" "Tue Jul 02, 2024";
                    mk_location "5" "Five" "Mon Jun 10, 2024, 10:30 AM";
                    mk_location "3" "Three" "Location Not Available"] in
  let st : gmap string string := {[ "5" := "Mon Jan 01, 2024, 09:00 AM" ]} in
  let r1 := check_for_appointments (scraped (Some live_data) june_1st)
              "ntfy" true None "url" [] st in
  second_cycle_is_idle (scraped (Some live_data) june_1st) (scraped (Some live_data) june_2nd)
    "ntfy" true None "url" [] st /\
  (forall loc d, In loc live_data -> parsed (earliest_date loc) = Some d ->
     classify june_2nd (fst r1) loc = no_change d d).
Proof.
  apply (C2_second_cycle_is_idle "ntfy" true None "url" []
           (scraped (Some [mk_location "7" "Seven" "Tue Jul 02, 2024";
                           mk_location "5" "Five" "Mon Jun 10, 2024, 10:30 AM";
                           mk_location "3" "Three" "Location Not Available"]) june_1st)
           (scraped (Some [mk_location "7" "Seven" "Tue Jul 02, 2024";
                           mk_location "5" "Five" "Mon Jun 10, 2024, 10:30 AM";
                           mk_location "3" "Three" "Location Not Available"]) june_2nd)).
  - reflexivity.
  - reflexivity.
  - cbn. repeat constructor; cbn; intuition discriminate.
  - intros loc d [<-|[<-|[<-|[]]]] Hd; vm_compute in Hd; try discriminate;
      injection Hd as <-; vm_compute; split; reflexivity.
Defined.

End Claims.

(** ** What the parser can return *)

Module Reading.
Import Py Datetime Strptime Monitor Table Statements Facts Once Files Shapes.
Local Open Scope list_scope.

Lemma in_m_map {A B} (f : A -> B) (m : matcher A) s b r :
  In (b, r) (m_map f m s) -> exists a, In (a, r) (m s) /\ b = f a.
Proof.
  unfold m_map. intros H. apply in_map_iff in H as ([a r'] & E & H).
  cbn in E. injection E as <- <-. eauto.
Qed.

Lemma in_m_bind {A B} (m : matcher A) (k : A -> matcher B) s x :
  In x (m_bind m k s) -> exists a r, In (a, r) (m s) /\ In x (k a r).
Proof.
  unfold m_bind. intros H. apply in_flat_map in H as ([a r] & H1 & H2). eauto.
Qed.

Lemma in_m_alt {A} (m1 m2 : matcher A) s x :
  In x (m_alt m1 m2 s) -> In x (m1 s) \/ In x (m2 s).
Proof. apply in_app_or. Qed.

Lemma in_m_char p s c r : In (c, r) (m_char p s) -> p c = true.
Proof.
  unfold m_char. destruct s as [|a t]; [intros []|].
  destruct (p a) eqn:E; [|intros []]. intros [H|[]]. injection H as <- _. exact E.
Qed.

Lemma between_digit lo hi c :
  between lo hi c = true -> lo - 48 <= digit_val c <= hi - 48.
Proof. unfold between, digit_val. intros H. apply andb_true_iff in H as [H1 H2]. lia. Qed.

Lemma in_m_d1 lo hi s v r :
  In (v, r) (m_d1 (between lo hi) s) -> lo - 48 <= v <= hi - 48.
Proof.
  unfold m_d1. intros H. apply in_m_map in H as (c & H & ->).
  apply in_m_char in H. apply between_digit. exact H.
Qed.

Lemma in_m_d2 lo1 hi1 lo2 hi2 s v r :
  In (v, r) (m_d2 (between lo1 hi1) (between lo2 hi2) s) ->
  10 * (lo1 - 48) + (lo2 - 48) <= v <= 10 * (hi1 - 48) + (hi2 - 48).
Proof.
  unfold m_d2. intros H.
  apply in_m_bind in H as (a & r1 & Ha & H).
  apply in_m_bind in H as (b & r2 & Hb & H).
  destruct H as [H|[]]. injection H as <- _.
  apply in_m_char, between_digit in Ha. apply in_m_char, between_digit in Hb. lia.
Qed.

Lemma in_m_names ws : forall i s v r,
  In (v, r) (m_names i ws s) -> i <= v < i + Z.of_nat (length ws).
Proof.
  induction ws as [|w ws IH]; intros i s v r H; [destruct H|].
  cbn [m_names] in H. apply in_m_alt in H as [H|H].
  - apply in_m_map in H as (u & _ & ->). cbn [length]. lia.
  - apply IH in H. cbn [length]. lia.
Qed.

(** Each directive keeps the groups within their ranges. *)
Lemma directive_in_range c f g s g' r :
  directive c = Some f -> groups_in_range g -> In (g', r) (f g s) -> groups_in_range g'.
Proof.
  unfold directive, groups_in_range, is_digit.
  intros Hf (Hb & Hd & HY & HI & HM & Hp) H.
  repeat match type of Hf with
  | (if ?b then _ else _) = _ => destruct b
  end; try discriminate; injection Hf as <-;
    apply in_m_map in H as (v & H & ->); cbn [g_a g_b g_d g_Y g_I g_M g_p];
    repeat match goal with |- _ /\ _ => split end; try assumption; cbn [within].
  - change (In (v, r) (m_names 1 a_month s)) in H.
    apply in_m_names in H. cbn in H. lia.
  - repeat (apply in_m_alt in H as [H|H]);
      try (apply in_m_d2 in H; lia); try (apply in_m_d1 in H; lia).
    apply in_m_bind in H as (a & r1 & _ & H). apply in_m_d1 in H. lia.
  - apply in_m_bind in H as (hi & r1 & H1 & H).
    apply in_m_bind in H as (lo & r2 & H2 & H).
    destruct H as [H|[]]. injection H as <- _.
    apply in_m_d2 in H1. apply in_m_d2 in H2. lia.
  - repeat (apply in_m_alt in H as [H|H]);
      try (apply in_m_d2 in H; lia); try (apply in_m_d1 in H; lia).
  - repeat (apply in_m_alt in H as [H|H]);
      try (apply in_m_d2 in H; lia); try (apply in_m_d1 in H; lia).
  - change (In (v, r) (m_names 0 am_pm s)) in H.
    apply in_m_names in H. cbn in H. lia.
Qed.

Lemma pattern_in_range n : forall fmt b m g s g' r,
  (String.length fmt <= n)%nat ->
  pattern fmt b = Some m -> groups_in_range g -> In (g', r) (m g s) -> groups_in_range g'.
Proof.
  induction n as [|n IH]; intros fmt b m g s g' r Hn Hm Hg H.
  - destruct fmt; [|cbn in Hn; lia]. cbn in Hm. injection Hm as <-.
    destruct H as [H|[]]. injection H as <- _. exact Hg.
  - destruct fmt as [|c rest].
    { cbn in Hm. injection Hm as <-. destruct H as [H|[]]. injection H as <- _. exact Hg. }
    cbn [String.length] in Hn. cbn [pattern] in Hm.
    destruct (is_space c).
    + destruct (pattern rest true) as [k|] eqn:Hk; [|discriminate].
      destruct b; injection Hm as <-.
      * apply (IH rest true k g s g' r); [lia|exact Hk|exact Hg|exact H].
      * apply in_m_bind in H as (u & r1 & _ & H).
        apply (IH rest true k g r1 g' r); [lia|exact Hk|exact Hg|exact H].
    + destruct (Ascii.eqb c "%").
      * destruct rest as [|x rest']; [discriminate|].
        destruct (directive x) as [f|] eqn:Hf; [|discriminate].
        destruct (pattern rest' false) as [k|] eqn:Hk; [|discriminate].
        injection Hm as <-. apply in_m_bind in H as (g1 & r1 & H1 & H).
        cbn [String.length] in Hn.
        apply (IH rest' false k g1 r1 g' r); [lia|exact Hk| |exact H].
        eapply directive_in_range; eauto.
      * destruct (pattern rest false) as [k|] eqn:Hk; [|discriminate].
        injection Hm as <-. apply in_m_bind in H as (u & r1 & _ & H).
        apply (IH rest false k g r1 g' r); [lia|exact Hk|exact Hg|exact H].
Qed.

Lemma convert_well_formed g d :
  groups_in_range g -> convert g = inr d -> well_formed d.
Proof.
  unfold groups_in_range, convert, get, within.
  intros (Hb & Hd & HY & HI & HM & Hp) H. cbv zeta in H.
  destruct (_ || _) eqn:Ey in H; [discriminate|].
  destruct (_ || _) eqn:Ed in H; [discriminate|].
  injection H as <-. apply orb_false_iff in Ey as [Ey1 Ey2]. apply orb_false_iff in Ed as [Ed1 Ed2].
  unfold well_formed, valid. cbn [year month day hour minute second microsecond].
  destruct g as [ga gb gd gY gI gM gp]; cbn [g_a g_b g_d g_Y g_I g_M g_p] in *.
  repeat split.
  assert (0 <= match gI with
               | Some h => match gp with
                           | Some 1 => if h =? 12 then h else h + 12
                           | _ => if h =? 12 then 0 else h
                           end
               | None => 0
               end <= 23) as Hh.
  { destruct gI as [h|]; [|lia]. destruct gp as [[|[| |]|]|]; destruct (h =? 12) eqn:E; lia. }
  destruct gb, gd, gY, gM; repeat (apply andb_true_iff; split); lia.
Qed.

Lemma no_groups_in_range : groups_in_range no_groups.
Proof. unfold groups_in_range, no_groups, within. cbn. tauto. Qed.

Lemma strptime_well_formed s fmt d : strptime s fmt = inr d -> well_formed d.
Proof.
  unfold strptime. destruct (pattern fmt false) as [m|] eqn:Hm; [|discriminate].
  destruct (m no_groups s) as [|[g r] t] eqn:E; [discriminate|].
  destruct r; [|discriminate]. apply convert_well_formed.
  eapply (pattern_in_range (String.length fmt) fmt false m no_groups s g "");
    [lia|exact Hm|apply no_groups_in_range|].
  rewrite E. left. reflexivity.
Qed.

Lemma parsed_well_formed raw d : parsed raw = Some d -> well_formed d.
Proof.
  unfold parsed, parse_date. destruct (_ || _); [discriminate|].
  destruct (strptime _ "%a %b %d, %Y, %I:%M %p") as [e|d1] eqn:E1.
  - destruct (strptime _ "%a %b %d, %Y") as [e'|d2] eqn:E2; [discriminate|].
    cbn. intros H. injection H as <-. eapply strptime_well_formed; eauto.
  - cbn. intros H. injection H as <-. eapply strptime_well_formed; eauto.
Qed.

(** X1.  Whatever the text, a date returned by [parse_date] is a date of
    the calendar (the month has that day, the year is between 1 and 9999)
    with a time of day in whole minutes: hour 0..23, minute 0..59, no
    seconds and no microseconds. *)
Theorem parse_date_returns_calendar_dates date_str d :
  fst (parse_date date_str) = Some d ->
  valid d = true /\ second d = 0 /\ microsecond d = 0.
Proof. intros H. exact (parsed_well_formed date_str d H). Qed.

Lemma parse_date_returns_calendar_dates_witness :
  valid (mk_datetime 2024 2 29 22 5 0 0) = true /\
  second (mk_datetime 2024 2 29 22 5 0 0) = 0 /\
  microsecond (mk_datetime 2024 2 29 22 5 0 0) = 0.
Proof.
  apply (parse_date_returns_calendar_dates "thu feb 29, 2024, 10:05 pm,").
  vm_compute. reflexivity.
Defined.

End Reading.

(** ** Whole cycles *)

Module Cycles.
Import Py Datetime Strptime Monitor Table Statements Facts Once Files Shapes.
Local Open Scope list_scope.

Section Run.
Context (env : Env) (ntfy_url : string) (wandb_run : bool)
        (locations_map : option (gmap string string)).
#[local] Abbreviation expected_run := (expected_run env ntfy_url wandb_run locations_map).
#[local] Abbreviation expected_signals := (expected_signals env ntfy_url wandb_run locations_map).
#[local] Abbreviation cycle := (check_for_appointments env ntfy_url wandb_run locations_map).

(** The dictionary a cycle returns is the fold of the decision table over
    the scraped entries. *)
Lemma expected_run_fst l : forall st,
  fst (expected_run l st) = fold_left (step (now env)) l st.
Proof.
  induction l as [|loc l IH]; intros st; [reflexivity|].
  cbn [Table.expected_run fst fold_left]. apply IH.
Qed.

(** Every signal of the first loop is issued by the iteration of an entry,
    judged against the dictionary as the entries before it left it. *)
Lemma expected_run_in l : forall st o e,
  In (o, e) (snd (expected_run l st)) ->
  exists pre loc post,
    l = pre ++ loc :: post /\ o = Some (loc_id loc) /\
    In e (expected_signals (classify (now env) (fold_left (step (now env)) pre st) loc)
            (fold_left (step (now env)) pre st) loc).
Proof.
  induction l as [|x l IH]; intros st o e H; [destruct H|].
  cbn [Table.expected_run snd] in H. apply in_app_or in H as [H|H].
  - unfold inside in H. apply in_map_iff in H as (e' & E & H). injection E as <- <-.
    exists [], x, l. auto.
  - apply IH in H as (pre & loc & post & -> & Ho & H).
    exists (x :: pre), loc, post. auto.
Qed.

Lemma in_signals_t (t : trace) o e :
  In (o, e) t -> is_log e = false -> In (o, e) (signals_t t).
Proof. intros H E. apply List.filter_In. cbn. rewrite E. auto. Qed.

(** The signals of a cycle: those of an entry of the scraped data, or the
    write of the state file. *)
Lemma cycle_signal_in rmv_url locs st o e :
  In (o, e) (snd (cycle rmv_url locs st)) -> is_log e = false ->
  exists live_data, get_rmv_data env rmv_url locs = Some live_data /\
    (In (o, e) (snd (expected_run live_data st)) \/
     (o = None /\ e = SaveJson (fst (cycle rmv_url locs st)) STATE_FILE)).
Proof.
  intros H E. destruct (get_rmv_data env rmv_url locs) as [[|x xs]|] eqn:Hget.
  - rewrite check_for_appointments_no_data in H by auto.
    destruct H as [H|[H|[]]]; injection H as _ <-; discriminate.
  - destruct (check_for_appointments_signals env ntfy_url wandb_run locations_map
                rmv_url locs st x xs Hget) as [E1 E2].
    apply in_signals_t in H; [|exact E]. rewrite E2 in H.
    exists (x :: xs). split; [reflexivity|].
    apply in_app_or in H as [H|[H|[]]]; [auto|]. right. injection H as <- <-.
    rewrite E1. auto.
  - rewrite check_for_appointments_no_data in H by auto.
    destruct H as [H|[H|[]]]; injection H as _ <-; discriminate.
Qed.

End Run.

(** X2.  With tracking off ([wandb_run] false), a cycle hands nothing to
    [wandb.log]: no appointment event and no ["no_change"] record appears
    among its effects, whatever the data and the dictionary. *)
Theorem tracking_off_logs_no_record env ntfy_url locations_map rmv_url locs st o e :
  In (o, e) (snd (check_for_appointments env ntfy_url false locations_map rmv_url locs st)) ->
  is_tracking e = false.
Proof.
  intros H. destruct (is_tracking e) eqn:T; [|reflexivity]. exfalso.
  assert (is_log e = false) as L by (destruct e; try discriminate; reflexivity).
  destruct (cycle_signal_in _ _ _ _ _ _ _ _ _ H L) as (live & _ & [Hin|[_ ->]]); [|discriminate].
  apply expected_run_in in Hin as (pre & loc & post & _ & _ & Hin).
  destruct (classify _ _ _); cbn in Hin;
    repeat (destruct Hin as [<-|Hin]; [discriminate|]); exact Hin.
Qed.

Lemma tracking_off_witness :
  is_tracking (Ntfy "ntfy" ("New earliest date at ID-7: Tue, Jul 02, 2024" +:+ nl +:+ "")) = false.
Proof.
  apply (tracking_off_logs_no_record
           (scraped (Some [mk_location "7" "Seven" "Tue Jul 02, 2024"]) june_1st)
           "ntfy" None "url" [] ∅ (Some "7")).
  vm_compute. auto 10.
Defined.

(** X3.  The dictionary a cycle returns depends on the scraped data, the
    clock and the dictionary it was given, and on nothing else: the
    notification address, tracking, the directory of names and the booking
    text do not influence it.  It is the fold of the decision table over the
    scraped entries. *)
Theorem state_ignores_reporting env ntfy_url wandb_run locations_map rmv_url locs st :
  fst (check_for_appointments env ntfy_url wandb_run locations_map rmv_url locs st)
  = match get_rmv_data env rmv_url locs with
    | Some live_data => fold_left (step (now env)) live_data st
    | None => st
    end.
Proof.
  destruct (get_rmv_data env rmv_url locs) as [[|x xs]|] eqn:Hget.
  - rewrite check_for_appointments_no_data by auto. reflexivity.
  - destruct (check_for_appointments_signals env ntfy_url wandb_run locations_map
                rmv_url locs st x xs Hget) as [E _].
    cbn zeta in E. rewrite E. apply expected_run_fst.
  - rewrite check_for_appointments_no_data by auto. reflexivity.
Qed.

Lemma perform_json_ext e (fs1 fs2 : files) :
  json_files fs1 = json_files fs2 -> json_files (perform fs1 e) = json_files (perform fs2 e).
Proof. intros H. destruct e; cbn; rewrite ?H; reflexivity. Qed.

Lemma after_json_ext w : forall fs1 fs2 : files,
  json_files fs1 = json_files fs2 -> json_files (after w fs1) = json_files (after w fs2).
Proof.
  unfold after. induction w as [|e w IH]; intros fs1 fs2 H; [exact H|].
  cbn [fold_left]. apply IH, perform_json_ext, H.
Qed.

Lemma perform_no_write e (fs : files) :
  (forall data file, e <> SaveJson data file) -> json_files (perform fs e) = json_files fs.
Proof. intros H. destruct e; try reflexivity. exfalso. eapply H. reflexivity. Qed.

Lemma after_json_signals w : forall fs : files,
  json_files (after w fs) = json_files (after (signals w) fs).
Proof.
  unfold after, signals. induction w as [|e w IH]; intros fs; [reflexivity|].
  cbn [fold_left List.filter]. destruct (is_log e) eqn:E; cbn [negb fold_left].
  - rewrite <- IH. apply after_json_ext, perform_no_write.
    intros data file ->. discriminate E.
  - apply IH.
Qed.

Lemma signals_map_snd (t : trace) : signals (map snd t) = map snd (signals_t t).
Proof.
  unfold signals, signals_t. induction t as [|[o e] t IH]; [reflexivity|].
  cbn. destruct (is_log e); cbn; rewrite IH; reflexivity.
Qed.

Lemma after_app a b (fs : files) : after (a ++ b) fs = after b (after a fs).
Proof. apply fold_left_app. Qed.

Lemma after_no_write w : forall fs : files,
  (forall e, In e w -> forall data file, e <> SaveJson data file) ->
  json_files (after w fs) = json_files fs.
Proof.
  unfold after. induction w as [|e w IH]; intros fs H; [reflexivity|].
  cbn [fold_left]. rewrite IH by (intros e' He'; apply H; right; exact He').
  apply perform_no_write, H. left. reflexivity.
Qed.

(** The log only grows: by the lines of the effects, in order. *)
Lemma after_log w : forall fs : files,
  monitor_log (after w fs) = monitor_log fs ++ List.filter writes_log w.
Proof.
  unfold after. induction w as [|e w IH]; intros fs; cbn [fold_left List.filter].
  - symmetry. apply app_nil_r.
  - rewrite IH. destruct e; cbn; rewrite <- ?app_assoc; reflexivity.
Qed.

Lemma expected_signals_no_write env ntfy_url wandb_run locations_map v st loc e data file :
  In e (expected_signals env ntfy_url wandb_run locations_map v st loc) ->
  e <> SaveJson data file.
Proof.
  unfold expected_signals, event, notice. intros H ->.
  destruct v, wandb_run; cbn in H;
    repeat (destruct H as [H|H]; [discriminate|]); exact H.
Qed.

(** The JSON files after a cycle: with data, [state.json] holds the
    dictionary returned; without, none is written. *)
Lemma after_cycle env ntfy_url wandb_run locations_map rmv_url locs st (fs : files) :
  let r := check_for_appointments env ntfy_url wandb_run locations_map rmv_url locs st in
  json_files (after (map snd (snd r)) fs)
  = match get_rmv_data env rmv_url locs with
    | None | Some [] => json_files fs
    | Some _ => <[STATE_FILE := fst r]> (json_files fs)
    end.
Proof.
  cbn zeta. rewrite after_json_signals, signals_map_snd.
  destruct (get_rmv_data env rmv_url locs) as [[|x xs]|] eqn:Hget.
  - rewrite check_for_appointments_no_data by auto. reflexivity.
  - destruct (check_for_appointments_signals env ntfy_url wandb_run locations_map
                rmv_url locs st x xs Hget) as [E1 E2].
    cbn zeta in E1, E2. rewrite E2, E1, map_app, after_app.
    cbn [map snd]. unfold after at 1. cbn [fold_left perform save_json json_files].
    rewrite (after_no_write
               (map snd (snd (expected_run env ntfy_url wandb_run locations_map (x :: xs) st))) fs).
    + reflexivity.
    + intros e He data file. apply in_map_iff in He as ([o e'] & <- & He).
      apply expected_run_in in He as (pre & loc & post & _ & _ & He).
      eapply expected_signals_no_write. exact He.
  - rewrite check_for_appointments_no_data by auto. reflexivity.
Qed.

(** X4.  The files after a cycle.  A cycle that has data rewrites
    [state.json] with the dictionary it returns, so that [load_json] on it
    afterwards gives back that dictionary, and leaves [locations_map.json]
    as it was; a cycle without data writes no JSON file.  Either way the
    lines the cycle logs are appended to [monitor.log]: nothing logged
    earlier is lost, and a cycle without data adds exactly its two
    lines. *)
Theorem state_file_holds_returned_state env ntfy_url wandb_run locations_map rmv_url locs st fs :
  let r := check_for_appointments env ntfy_url wandb_run locations_map rmv_url locs st in
  let fs' := after (map snd (snd r)) fs in
  match get_rmv_data env rmv_url locs with
  | None | Some [] =>
      json_files fs' = json_files fs /\
      monitor_log fs' = monitor_log fs ++
                        [Log INFO "--- Running RMV Appointment Check ---";
                         Log WARNING "Could not fetch live appointment data."]
  | Some _ =>
      load_json fs' STATE_FILE = fst r /\
      json_files fs' !! LOCATIONS_MAP_FILE = json_files fs !! LOCATIONS_MAP_FILE /\
      exists lines, monitor_log fs' = monitor_log fs ++ lines
  end.
Proof.
  cbn zeta. pose proof (after_cycle env ntfy_url wandb_run locations_map rmv_url locs st fs) as J.
  cbn zeta in J. rewrite after_log.
  destruct (get_rmv_data env rmv_url locs) as [[|x xs]|] eqn:Hget.
  - split; [exact J|]. rewrite check_for_appointments_no_data by auto. reflexivity.
  - unfold load_json. rewrite J, lookup_insert_eq. split; [reflexivity|].
    split; [apply lookup_insert_ne; discriminate|eauto].
  - split; [exact J|]. rewrite check_for_appointments_no_data by auto. reflexivity.
Qed.

(** X5.  Every notification a cycle sends goes to the configured address
    and is about an entry of the scraped data that carries a date: its
    text is the message for that entry's date under the location's
    friendly name, then a line break and the booking text. *)
Theorem notifications_are_about_dated_entries env ntfy_url wandb_run locations_map
    rmv_url locs st o url message :
  In (o, Ntfy url message)
     (snd (check_for_appointments env ntfy_url wandb_run locations_map rmv_url locs st)) ->
  url = ntfy_url /\
  exists live_data loc d,
    get_rmv_data env rmv_url locs = Some live_data /\ In loc live_data /\
    o = Some (loc_id loc) /\ parsed (earliest_date loc) = Some d /\
    message = message_for (fst (name_of (loc_id loc) locations_map)) (earliest_date loc) d
              +:+ nl +:+ appointment_text_links env.
Proof.
  intros H.
  destruct (cycle_signal_in _ _ _ _ _ _ _ _ _ H eq_refl) as (live & Hget & [Hin|[_ E]]);
    [|discriminate].
  apply expected_run_in in Hin as (pre & loc & post & -> & -> & Hin).
  set (st' := fold_left _ pre st) in *.
  assert (forall d, parsed (earliest_date loc) = Some d ->
            Ntfy url message = notice env ntfy_url locations_map loc d ->
            url = ntfy_url /\
            exists live_data loc0 d0,
              Some (pre ++ loc :: post) = Some live_data /\ In loc0 live_data /\
              Some (loc_id loc) = Some (loc_id loc0) /\ parsed (earliest_date loc0) = Some d0 /\
              message = message_for (fst (name_of (loc_id loc0) locations_map))
                          (earliest_date loc0) d0 +:+ nl +:+ appointment_text_links env) as K.
  { intros d Hd E. unfold notice in E. injection E as -> ->. split; [reflexivity|].
    exists (pre ++ loc :: post), loc, d. repeat split; auto.
    apply in_or_app. right. left. reflexivity. }
  rewrite Hget. unfold classify in Hin.
  destruct (parsed (earliest_date loc)) as [d|] eqn:Hd; [|destruct Hin].
  destruct (last_known st' (loc_id loc)) as [l|];
    [destruct (ltb l (now env)); [|destruct (gtb d l); [|destruct (ltb d l)]]|];
    unfold expected_signals, event in Hin; destruct wandb_run; cbn in Hin;
    repeat (destruct Hin as [Hin|Hin]; [try discriminate; try (apply (K d eq_refl); symmetry; exact Hin)|]);
    try contradiction.
Qed.

Lemma notifications_witness :
  "ntfy" = "ntfy" /\
  exists live_data loc d,
    get_rmv_data (scraped (Some [mk_location "7" "Seven" "Tue Jul 02, 2024"]) june_1st) "url" []
    = Some live_data /\ In loc live_data /\
    Some "7" = Some (loc_id loc) /\ parsed (earliest_date loc) = Some d /\
    "New earliest date at ID-7: Tue, Jul 02, 2024" +:+ nl +:+ ""
    = message_for (fst (name_of (loc_id loc) None)) (earliest_date loc) d
      +:+ nl +:+ appointment_text_links
                   (scraped (Some [mk_location "7" "Seven" "Tue Jul 02, 2024"]) june_1st).
Proof.
  apply (notifications_are_about_dated_entries
           (scraped (Some [mk_location "7" "Seven" "Tue Jul 02, 2024"]) june_1st)
           "ntfy" true None "url" [] ∅ (Some "7")).
  vm_compute. auto 10.
Defined.

End Cycles.

(** ** The rules of the decision table, one location at a time *)

Module Rules.
Import Py Datetime Strptime Monitor Table Statements Facts Once Files Shapes.
Local Open Scope list_scope.

Lemma last_known_unreadable st k :
  (forall s, st !! k = Some s -> parsed s = None) -> last_known st k = None.
Proof.
  unfold last_known, parsed. intros H. destruct (st !! k) as [s|]; [|reflexivity].
  cbn. destruct s; [reflexivity|]. apply H. reflexivity.
Qed.

Lemma last_known_read st k s l :
  st !! k = Some s -> parsed s = Some l -> last_known st k = Some l.
Proof.
  unfold last_known, parsed. intros -> H. cbn.
  destruct s; [vm_compute in H; discriminate|exact H].
Qed.

Lemma lex_compare_flip a : forall b, lex_compare b a = CompOpp (lex_compare a b).
Proof.
  induction a as [|x a IH]; intros [|y b]; try reflexivity.
  cbn. rewrite (Z.compare_antisym x y). destruct (x ?= y); cbn; auto.
Qed.

Lemma ltb_asym a b : ltb a b = true -> ltb b a = false.
Proof.
  unfold ltb, compare. rewrite (lex_compare_flip (fields a) (fields b)).
  destruct (lex_compare (fields a) (fields b)); cbn; congruence.
Qed.

Lemma ltb_same d : ltb d d = false.
Proof.
  destruct (ltb d d) eqn:E; [|reflexivity]. pose proof (ltb_asym d d E). congruence.
Qed.

Section OneLocation.
Context (env : Env) (ntfy_url : string) (wandb_run : bool)
        (locations_map : option (gmap string string))
        (rmv_url : string) (locs : list center).
Context (pre : list location) (loc : location) (post : list location).
Context (st : gmap string string).
#[local] Abbreviation r :=
  (check_for_appointments env ntfy_url wandb_run locations_map rmv_url locs st).
#[local] Abbreviation name := (fst (name_of (loc_id loc) locations_map)).
#[local] Abbreviation notification d :=
  (Ntfy ntfy_url (message_for name (earliest_date loc) d +:+ nl +:+ appointment_text_links env)).
#[local] Abbreviation tracked ty diff :=
  (if wandb_run
   then [Wandb (mk_wandb_event ty (loc_id loc) name (st !! loc_id loc)
                  (Some (earliest_date loc)) diff)]
   else []).

(** X6.  A location (met once in the scraped data) with a date, for which
    the dictionary holds no entry, or an entry that does not read as a date
    (empty, a sentinel, anything else), is a first appointment: the
    canonical form of the date is recorded, the notification is sent first,
    and the [first_appointment] event that follows carries no time
    difference and, as previous appointment, the entry as it was. *)
Theorem first_appointment_rule d :
  get_rmv_data env rmv_url locs = Some (pre ++ loc :: post) ->
  (forall x, In x (pre ++ post) -> loc_id x <> loc_id loc) ->
  parsed (earliest_date loc) = Some d ->
  (forall s, st !! loc_id loc = Some s -> parsed s = None) ->
  fst r !! loc_id loc = Some (canonical (earliest_date loc) d) /\
  signals (at_location (loc_id loc) (snd r))
  = notification d :: tracked "first_appointment" None.
Proof.
  intros Hget Hu Hd Hs.
  destruct (check_for_appointments_once env ntfy_url wandb_run locations_map rmv_url locs
              pre loc post st Hget (proj2 (List.Forall_forall _ _) Hu)) as [E1 E2].
  cbn zeta in *. rewrite E1, E2. unfold classify.
  rewrite Hd, (last_known_unreadable _ _ Hs).
  cbn [next_state expected_signals]. unfold event, notice.
  rewrite lookup_insert_eq. auto.
Qed.

(** X7.  A location (met once) whose recorded date [l] has not passed and
    whose scraped date [d] is later than [l] is a new availability: the
    scraped text is recorded as it is, and the [new_availability] event,
    with the time difference [(d - l) / 1h], comes before the
    notification. *)
Theorem new_availability_rule prior l d :
  get_rmv_data env rmv_url locs = Some (pre ++ loc :: post) ->
  (forall x, In x (pre ++ post) -> loc_id x <> loc_id loc) ->
  parsed (earliest_date loc) = Some d ->
  st !! loc_id loc = Some prior -> parsed prior = Some l ->
  ltb l (now env) = false -> gtb d l = true ->
  fst r !! loc_id loc = Some (earliest_date loc) /\
  signals (at_location (loc_id loc) (snd r))
  = tracked "new_availability" (Some (hours (sub d l))) ++ [notification d].
Proof.
  intros Hget Hu Hd Hst Hl Hn Hg.
  destruct (check_for_appointments_once env ntfy_url wandb_run locations_map rmv_url locs
              pre loc post st Hget (proj2 (List.Forall_forall _ _) Hu)) as [E1 E2].
  cbn zeta in *. rewrite E1, E2. unfold classify.
  rewrite Hd, (last_known_read _ _ _ _ Hst Hl), Hn, Hg.
  cbn [next_state expected_signals]. unfold event, notice.
  rewrite lookup_insert_eq. auto.
Qed.

(** X8.  A location (met once) whose recorded date [l] has not passed and
    whose scraped date [d] is earlier than [l] is an earlier appointment:
    the canonical form of [d] is recorded, the notification is sent first,
    and the [earlier_appointment] event that follows carries the time
    difference [(l - d) / 1h]. *)
Theorem earlier_appointment_rule prior l d :
  get_rmv_data env rmv_url locs = Some (pre ++ loc :: post) ->
  (forall x, In x (pre ++ post) -> loc_id x <> loc_id loc) ->
  parsed (earliest_date loc) = Some d ->
  st !! loc_id loc = Some prior -> parsed prior = Some l ->
  ltb l (now env) = false -> ltb d l = true ->
  fst r !! loc_id loc = Some (canonical (earliest_date loc) d) /\
  signals (at_location (loc_id loc) (snd r))
  = notification d :: tracked "earlier_appointment" (Some (hours (sub l d))).
Proof.
  intros Hget Hu Hd Hst Hl Hn Hlt.
  destruct (check_for_appointments_once env ntfy_url wandb_run locations_map rmv_url locs
              pre loc post st Hget (proj2 (List.Forall_forall _ _) Hu)) as [E1 E2].
  cbn zeta in *. rewrite E1, E2. unfold classify, gtb.
  rewrite Hd, (last_known_read _ _ _ _ Hst Hl), Hn, (ltb_asym _ _ Hlt), Hlt.
  cbn [next_state expected_signals]. unfold event, notice.
  rewrite lookup_insert_eq. auto.
Qed.

(** X9.  A location (met once) whose scraped date is the recorded one,
    not yet passed, is left alone: its entry stays as it is, text
    included, nobody is notified, and with tracking on one ["no_change"]
    record carries the entry. *)
Theorem no_change_rule prior d :
  get_rmv_data env rmv_url locs = Some (pre ++ loc :: post) ->
  (forall x, In x (pre ++ post) -> loc_id x <> loc_id loc) ->
  parsed (earliest_date loc) = Some d ->
  st !! loc_id loc = Some prior -> parsed prior = Some d ->
  ltb d (now env) = false ->
  fst r !! loc_id loc = Some prior /\
  signals (at_location (loc_id loc) (snd r))
  = if wandb_run then [WandbNoChange (loc_id loc) name (Some prior)] else [].
Proof.
  intros Hget Hu Hd Hst Hl Hn.
  destruct (check_for_appointments_once env ntfy_url wandb_run locations_map rmv_url locs
              pre loc post st Hget (proj2 (List.Forall_forall _ _) Hu)) as [E1 E2].
  cbn zeta in *. rewrite E1, E2. unfold classify, gtb.
  rewrite Hd, (last_known_read _ _ _ _ Hst Hl), Hn, ltb_same.
  cbn [next_state expected_signals]. rewrite Hst. auto.
Qed.

End OneLocation.

Lemma first_appointment_witness :
  let loc := mk_location "7" "Seven" "Tue Jul 02, 2024, 09:15 AM" in
  let env := scraped (Some [loc]) june_1st in
  let st : gmap string string := {[ "7" := "No Appointments Available" ]} in
  let r := check_for_appointments env "ntfy" true None "url" [] st in
  fst r !! "7" = Some (canonical "Tue Jul 02, 2024, 09:15 AM" (mk_datetime 2024 7 2 9 15 0 0)) /\
  signals (at_location "7" (snd r))
  = [Ntfy "ntfy" (message_for "ID-7" "Tue Jul 02, 2024, 09:15 AM"
                    (mk_datetime 2024 7 2 9 15 0 0) +:+ nl +:+ "");
     Wandb (mk_wandb_event "first_appointment" "7" "ID-7" (st !! "7")
              (Some "Tue Jul 02, 2024, 09:15 AM") None)].
Proof.
  apply (first_appointment_rule
           (scraped (Some [mk_location "7" "Seven" "Tue Jul 02, 2024, 09:15 AM"]) june_1st)
           "ntfy" true None "url" [] [] (mk_location "7" "Seven" "Tue Jul 02, 2024, 09:15 AM") []
           {[ "7" := "No Appointments Available" ]} (mk_datetime 2024 7 2 9 15 0 0)).
  - reflexivity.
  - intros x [].
  - vm_compute. reflexivity.
  - intros s H. vm_compute in H. injection H as <-. vm_compute. reflexivity.
Defined.

(** A slot twenty minutes later: the float logged,
    [6004799503160661 * 2^-54], prints as [0.3333333333333333]. *)
Lemma new_availability_witness :
  let loc := mk_location "5" "Five" "Mon Jun 10, 2024, 09:20 AM" in
  let env := scraped (Some [loc]) june_1st in
  let st : gmap string string := {[ "5" := "Mon Jun 10, 2024, 09:00 AM" ]} in
  let r := check_for_appointments env "ntfy" true None "url" [] st in
  fst r !! "5" = Some "Mon Jun 10, 2024, 09:20 AM" /\
  signals (at_location "5" (snd r))
  = [Wandb (mk_wandb_event "new_availability" "5" "ID-5" (st !! "5")
              (Some "Mon Jun 10, 2024, 09:20 AM")
              (Some (S754_finite false 6004799503160661 (-54))));
     Ntfy "ntfy" ("New appointment at ID-5: Mon, Jun 10, 2024 at 09:20 AM" +:+ nl +:+ "")].
Proof.
  apply (new_availability_rule
           (scraped (Some [mk_location "5" "Five" "Mon Jun 10, 2024, 09:20 AM"]) june_1st)
           "ntfy" true None "url" [] [] (mk_location "5" "Five" "Mon Jun 10, 2024, 09:20 AM") []
           {[ "5" := "Mon Jun 10, 2024, 09:00 AM" ]} "Mon Jun 10, 2024, 09:00 AM"
           (mk_datetime 2024 6 10 9 0 0 0) (mk_datetime 2024 6 10 9 20 0 0)).
  - reflexivity.
  - intros x [].
  - vm_compute. reflexivity.
  - reflexivity.
  - vm_compute. reflexivity.
  - reflexivity.
  - reflexivity.
Defined.

(** A slot fifty minutes earlier: the float logged,
    [7505999378950827 * 2^-53], prints as [0.8333333333333334]. *)
Lemma earlier_appointment_witness :
  let loc := mk_location "5" "Five" "Mon Jun 10, 2024, 08:10 AM" in
  let env := scraped (Some [loc]) june_1st in
  let st : gmap string string := {[ "5" := "Mon Jun 10, 2024, 09:00 AM" ]} in
  let r := check_for_appointments env "ntfy" true None "url" [] st in
  fst r !! "5" = Some "Mon Jun 10, 2024, 08:10 AM" /\
  signals (at_location "5" (snd r))
  = [Ntfy "ntfy" ("New appointment at ID-5: Mon, Jun 10, 2024 at 08:10 AM" +:+ nl +:+ "");
     Wandb (mk_wandb_event "earlier_appointment" "5" "ID-5" (st !! "5")
              (Some "Mon Jun 10, 2024, 08:10 AM")
              (Some (S754_finite false 7505999378950827 (-53))))].
Proof.
  apply (earlier_appointment_rule
           (scraped (Some [mk_location "5" "Five" "Mon Jun 10, 2024, 08:10 AM"]) june_1st)
           "ntfy" true None "url" [] [] (mk_location "5" "Five" "Mon Jun 10, 2024, 08:10 AM") []
           {[ "5" := "Mon Jun 10, 2024, 09:00 AM" ]} "Mon Jun 10, 2024, 09:00 AM"
           (mk_datetime 2024 6 10 9 0 0 0) (mk_datetime 2024 6 10 8 10 0 0)).
  - reflexivity.
  - intros x [].
  - vm_compute. reflexivity.
  - reflexivity.
  - vm_compute. reflexivity.
  - reflexivity.
  - reflexivity.
Defined.

Lemma no_change_witness :
  let loc := mk_location "5" "Five" "Mon Jun 10, 2024, 09:00 AM," in
  let env := scraped (Some [loc]) june_1st in
  let st : gmap string string := {[ "5" := "Mon Jun 10, 2024, 09:00 AM" ]} in
  let r := check_for_appointments env "ntfy" true None "url" [] st in
  fst r !! "5" = Some "Mon Jun 10, 2024, 09:00 AM" /\
  signals (at_location "5" (snd r))
  = [WandbNoChange "5" "ID-5" (Some "Mon Jun 10, 2024, 09:00 AM")].
Proof.
  apply (no_change_rule
           (scraped (Some [mk_location "5" "Five" "Mon Jun 10, 2024, 09:00 AM,"]) june_1st)
           "ntfy" true None "url" [] [] (mk_location "5" "Five" "Mon Jun 10, 2024, 09:00 AM,") []
           {[ "5" := "Mon Jun 10, 2024, 09:00 AM" ]} "Mon Jun 10, 2024, 09:00 AM"
           (mk_datetime 2024 6 10 9 0 0 0)).
  - reflexivity.
  - intros x [].
  - vm_compute. reflexivity.
  - reflexivity.
  - vm_compute. reflexivity.
  - reflexivity.
Defined.

End Rules.

(** ** Floats: quotients in the range of the normal numbers *)

Module Binary64.

Lemma digits2_spec p :
  2 ^ (Zpos (digits2_pos p) - 1) <= Zpos p < 2 ^ Zpos (digits2_pos p).
Proof.
  induction p as [p IH|p IH|]; cbn [digits2_pos]; [| |cbn; lia];
    rewrite Pos2Z.inj_succ;
    replace (Z.succ (Zpos (digits2_pos p)) - 1) with (Z.succ (Zpos (digits2_pos p) - 1)) by lia;
    rewrite !Z.pow_succ_r by lia; lia.
Qed.

Lemma digits2_unique p k :
  2 ^ (k - 1) <= Zpos p < 2 ^ k -> Zpos (digits2_pos p) = k.
Proof.
  intros H. pose proof (digits2_spec p) as S.
  assert (1 <= k) as Hk.
  { destruct (Z_lt_le_dec k 1) as [L|L]; [|exact L]. exfalso.
    assert (2 ^ k <= 2 ^ 0) by (destruct (Z_lt_le_dec k 0);
      [rewrite Z.pow_neg_r by lia; cbn; lia|apply Z.pow_le_mono_r; lia]).
    cbn in *. lia. }
  destruct (Z.lt_trichotomy (Zpos (digits2_pos p)) k) as [L|[E|L]]; [|exact E|]; exfalso.
  - assert (2 ^ Zpos (digits2_pos p) <= 2 ^ (k - 1)) by (apply Z.pow_le_mono_r; lia). lia.
  - assert (2 ^ k <= 2 ^ (Zpos (digits2_pos p) - 1)) by (apply Z.pow_le_mono_r; lia). lia.
Qed.

Lemma shr_1_m mrs : 0 <= shr_m mrs -> shr_m (shr_1 mrs) = shr_m mrs / 2.
Proof.
  destruct mrs as [m r s]. cbn [shr_m shr_1]. intros H.
  destruct m as [|[p|p|]|p]; cbn [shr_m]; try lia; try reflexivity.
  - apply Z.div_unique with 1; lia.
  - apply Z.div_unique with 0; lia.
Qed.

Lemma iter_shr_m n : forall mrs,
  0 <= shr_m mrs -> shr_m (SpecFloat.iter_pos shr_1 n mrs) = shr_m mrs / 2 ^ Zpos n.
Proof.
  induction n as [n IH|n IH|]; intros mrs H; cbn [SpecFloat.iter_pos].
  - assert (0 < 2 ^ Zpos n) as Pn by (apply Z.pow_pos_nonneg; lia).
    assert (0 <= shr_m (shr_1 mrs)) as H1 by (rewrite shr_1_m by exact H; apply Z.div_pos; lia).
    assert (0 <= shr_m (SpecFloat.iter_pos shr_1 n (shr_1 mrs))) as H2
      by (rewrite IH by exact H1; apply Z.div_pos; lia).
    rewrite IH by exact H2. rewrite IH by exact H1. rewrite shr_1_m by exact H.
    rewrite !Z.div_div by lia.
    f_equal. rewrite (Pos2Z.inj_xI n). replace (2 * Zpos n + 1) with (1 + Zpos n + Zpos n) by lia.
    rewrite !Z.pow_add_r by lia. lia.
  - assert (0 < 2 ^ Zpos n) as Pn by (apply Z.pow_pos_nonneg; lia).
    assert (0 <= shr_m (SpecFloat.iter_pos shr_1 n mrs)) as H2
      by (rewrite IH by exact H; apply Z.div_pos; lia).
    rewrite IH by exact H2. rewrite IH by exact H.
    rewrite !Z.div_div by lia.
    f_equal. rewrite (Pos2Z.inj_xO n). replace (2 * Zpos n) with (Zpos n + Zpos n) by lia.
    rewrite !Z.pow_add_r by lia. lia.
  - rewrite shr_1_m by exact H. reflexivity.
Qed.

Lemma shr_record_of_loc_m m l : shr_m (shr_record_of_loc m l) = m.
Proof. destruct l as [|[]]; reflexivity. Qed.

Lemma shr_fexp_spec m e l :
  0 <= m ->
  let n := Z.max 0 (fexp 53 1024 (Zdigits2 m + e) - e) in
  shr_m (fst (shr_fexp 53 1024 m e l)) = m / 2 ^ n /\ snd (shr_fexp 53 1024 m e l) = e + n.
Proof.
  intros H. cbv zeta. unfold shr_fexp, shr.
  destruct (fexp 53 1024 (Zdigits2 m + e) - e) as [|n|n] eqn:E; cbn [fst snd].
  - rewrite shr_record_of_loc_m. cbn. rewrite Z.div_1_r. split; lia.
  - rewrite iter_shr_m by (rewrite shr_record_of_loc_m; exact H).
    rewrite shr_record_of_loc_m. replace (Z.max 0 (Zpos n)) with (Zpos n) by lia. split; lia.
  - rewrite shr_record_of_loc_m. replace (Z.max 0 (Zneg n)) with 0 by lia.
    cbn. rewrite Z.div_1_r. split; lia.
Qed.

Lemma round_nearest_even_bounds m l :
  m <= round_nearest_even m l <= m + 1.
Proof. destruct l as [|[]]; cbn; try lia. destruct (Z.even m); lia. Qed.

Lemma Zdigits2_53 m : 2 ^ 52 <= m < 2 ^ 53 -> Zdigits2 m = 53.
Proof.
  intros H. destruct m as [|p|p]; try (cbn in H; lia). cbn [Zdigits2].
  apply digits2_unique. exact H.
Qed.

(** Rounding a number of at least 53 bits, in the range of the normal
    numbers, gives a normal number of the same sign. *)
Lemma binary_round_aux_normal s mz ez lz :
  2 ^ 52 <= mz -> -1074 <= ez -> Zdigits2 mz + ez <= 1023 ->
  exists m e,
    binary_round_aux 53 1024 s mz ez lz = S754_finite s m e /\
    Zpos (digits2_pos m) = 53 /\
    Zdigits2 mz + ez - 53 <= e <= Zdigits2 mz + ez - 52.
Proof.
  intros Hm He Hd. destruct mz as [|p|p]; try (cbn in Hm; lia).
  pose proof (digits2_spec p) as S. cbn [Zdigits2] in *.
  set (d := Zpos (digits2_pos p)) in *.
  assert (53 <= d) as Hd53.
  { destruct (Z_lt_le_dec d 53) as [L|L]; [|exact L]. exfalso.
    assert (2 ^ d <= 2 ^ 52) by (apply Z.pow_le_mono_r; lia). lia. }
  unfold binary_round_aux.
  destruct (shr_fexp_spec (Zpos p) ez lz) as [M1 E1]; [lia|].
  cbn [Zdigits2] in M1, E1. fold d in M1, E1.
  replace (Z.max 0 (fexp 53 1024 (d + ez) - ez)) with (d - 53) in M1, E1
    by (unfold fexp, emin; lia).
  destruct (shr_fexp 53 1024 (Zpos p) ez lz) as [mrs1 e1]. cbn [fst snd] in M1, E1.
  assert (2 ^ 52 <= shr_m mrs1 < 2 ^ 53) as B1.
  { rewrite M1. assert (0 < 2 ^ (d - 53)) by (apply Z.pow_pos_nonneg; lia).
    assert (2 ^ (d - 1) = 2 ^ (d - 53) * 2 ^ 52) as P1
      by (rewrite <- Z.pow_add_r by lia; f_equal; lia).
    assert (2 ^ d = 2 ^ (d - 53) * 2 ^ 53) as P2
      by (rewrite <- Z.pow_add_r by lia; f_equal; lia).
    split.
    - apply Z.div_le_lower_bound; lia.
    - apply Z.div_lt_upper_bound; lia. }
  pose proof (round_nearest_even_bounds (shr_m mrs1) (loc_of_shr_record mrs1)) as R.
  set (m1 := round_nearest_even (shr_m mrs1) (loc_of_shr_record mrs1)) in *.
  destruct (shr_fexp_spec m1 e1 loc_Exact) as [M2 E2]; [lia|].
  destruct (Z_lt_le_dec m1 (2 ^ 53)) as [L|L].
  - rewrite (Zdigits2_53 m1) in M2, E2 by lia.
    replace (Z.max 0 (fexp 53 1024 (53 + e1) - e1)) with 0 in M2, E2
      by (unfold fexp, emin; lia).
    destruct (shr_fexp 53 1024 m1 e1 loc_Exact) as [mrs2 e2]. cbn [fst snd] in M2, E2.
    rewrite M2. change (2 ^ 0) with 1. rewrite Z.div_1_r.
    destruct m1 as [|q|q]; try lia.
    assert ((e2 <=? 1024 - 53) = true) as -> by (apply Z.leb_le; lia).
    exists q, e2. split; [reflexivity|]. split; [|lia].
    apply digits2_unique. lia.
  - assert (m1 = 2 ^ 53) as Em by lia.
    assert (Zdigits2 m1 = 54) as D54 by (rewrite Em; reflexivity).
    rewrite D54 in M2, E2.
    replace (Z.max 0 (fexp 53 1024 (54 + e1) - e1)) with 1 in M2, E2
      by (unfold fexp, emin; lia).
    destruct (shr_fexp 53 1024 m1 e1 loc_Exact) as [mrs2 e2]. cbn [fst snd] in M2, E2.
    rewrite M2, Em. change (2 ^ 53 / 2 ^ 1) with (Zpos (Z.to_pos (2 ^ 52))).
    assert ((e2 <=? 1024 - 53) = true) as -> by (apply Z.leb_le; lia).
    exists (Z.to_pos (2 ^ 52)), e2. split; [reflexivity|]. split; [reflexivity|lia].
Qed.

(** The quotient of two finite numbers, in the range of the normal numbers,
    is a normal number; its sign is the product of the signs. *)
Lemma SFdiv_normal sx sy mx ex my ey :
  let Dx := Zpos (digits2_pos mx) + ex in
  let Dy := Zpos (digits2_pos my) + ey in
  -1000 <= Dx - Dy <= 1000 -> -1074 <= ex - ey ->
  exists m e,
    SFdiv 53 1024 (S754_finite sx mx ex) (S754_finite sy my ey) = S754_finite (xorb sx sy) m e /\
    Zpos (digits2_pos m) = 53 /\
    Dx - Dy - 53 <= e <= Dx - Dy - 51.
Proof.
  cbv zeta. intros HD He.
  pose proof (digits2_spec mx) as Sx. pose proof (digits2_spec my) as Sy.
  set (d1 := Zpos (digits2_pos mx)) in *. set (d2 := Zpos (digits2_pos my)) in *.
  assert (1 <= d1 /\ 1 <= d2) as [P1 P2] by (unfold d1, d2; lia).
  unfold SFdiv, SFdiv_core_binary. cbn [Zdigits2]. fold d1 d2.
  replace (fexp 53 1024 (d1 + ex - (d2 + ey))) with (d1 + ex - (d2 + ey) - 53)
    by (unfold fexp, emin; lia).
  set (e' := Z.min (d1 + ex - (d2 + ey) - 53) (ex - ey)).
  set (s := ex - ey - e').
  assert (0 <= s) as Hs by (unfold s, e'; lia).
  assert (match s with Zpos _ => Z.shiftl (Zpos mx) s | 0 => Zpos mx | Zneg _ => 0 end
          = Zpos mx * 2 ^ s) as ->.
  { destruct s as [|n|n]; [cbn; lia|apply Z.shiftl_mul_pow2; lia|lia]. }
  pose proof (Z_div_mod (Zpos mx * 2 ^ s) (Zpos my) eq_refl) as DM.
  destruct (Z.div_eucl (Zpos mx * 2 ^ s) (Zpos my)) as [q r]. destruct DM as [DM Hr].
  set (a := d1 - 1 + s - d2).
  assert (52 <= a) as Ha by (unfold a, s, e'; lia).
  assert (0 < 2 ^ s) as Ps by (apply Z.pow_pos_nonneg; lia).
  assert (0 < 2 ^ a) as Pa by (apply Z.pow_pos_nonneg; lia).
  assert (2 ^ d2 * 2 ^ a = 2 ^ (d1 - 1) * 2 ^ s) as E1.
  { rewrite <- !Z.pow_add_r by lia. f_equal. unfold a. lia. }
  assert (2 ^ (d2 - 1) * 2 ^ (a + 2) = 2 ^ d1 * 2 ^ s) as E2.
  { rewrite <- !Z.pow_add_r by lia. f_equal. unfold a. lia. }
  assert (2 ^ a <= q) as Q1.
  { destruct (Z_lt_le_dec q (2 ^ a)) as [L|L]; [|exact L]. exfalso.
    assert (Zpos my * (q + 1) <= Zpos my * 2 ^ a) by (apply Z.mul_le_mono_nonneg_l; lia).
    assert (Zpos my * 2 ^ a < 2 ^ d2 * 2 ^ a) by (apply Z.mul_lt_mono_pos_r; lia).
    assert (2 ^ (d1 - 1) * 2 ^ s <= Zpos mx * 2 ^ s) by (apply Z.mul_le_mono_nonneg_r; lia).
    lia. }
  assert (q < 2 ^ (a + 2)) as Q2.
  { destruct (Z_lt_le_dec q (2 ^ (a + 2))) as [L|L]; [exact L|]. exfalso.
    assert (0 < 2 ^ (d2 - 1)) by (apply Z.pow_pos_nonneg; lia).
    assert (2 ^ (d2 - 1) * 2 ^ (a + 2) <= Zpos my * q).
    { transitivity (Zpos my * 2 ^ (a + 2)).
      - apply Z.mul_le_mono_nonneg_r; lia.
      - apply Z.mul_le_mono_nonneg_l; lia. }
    assert (Zpos mx * 2 ^ s < 2 ^ d1 * 2 ^ s) by (apply Z.mul_lt_mono_pos_r; lia).
    lia. }
  assert (2 ^ 52 <= 2 ^ a) as Q52 by (apply Z.pow_le_mono_r; lia).
  destruct q as [|qp|qp]; try lia.
  pose proof (digits2_spec qp) as Sq. set (dq := Zpos (digits2_pos qp)) in *.
  assert (a + 1 <= dq <= a + 2) as Hdq.
  { split.
    - destruct (Z_lt_le_dec dq (a + 1)) as [L|L]; [|exact L]. exfalso.
      assert (2 ^ dq <= 2 ^ a) by (apply Z.pow_le_mono_r; lia). lia.
    - destruct (Z_lt_le_dec (a + 2) dq) as [L|L]; [|exact L]. exfalso.
      assert (2 ^ (a + 2) <= 2 ^ (dq - 1)) by (apply Z.pow_le_mono_r; lia). lia. }
  destruct (binary_round_aux_normal (xorb sx sy) (Zpos qp) e' (new_location (Zpos my) r))
    as (m & e & E & Dm & Be).
  - lia.
  - unfold e'. lia.
  - cbn [Zdigits2]. fold dq. unfold a, s, e' in *. lia.
  - exists m, e. split; [exact E|]. split; [exact Dm|].
    cbn [Zdigits2] in Be. fold dq in Be. unfold a, s in Hdq. lia.
Qed.

End Binary64.

(** ** Order and difference of dates *)

Module Calendar.
Import Py Datetime Strptime Monitor Table Statements Facts Once Files Shapes.
Local Open Scope list_scope.

Lemma days_before_year_succ y :
  days_before_year (y + 1) = days_before_year y + 365 + (if is_leap y then 1 else 0).
Proof.
  unfold days_before_year, is_leap. replace (y + 1 - 1) with y by lia.
  destruct (y mod 4 =? 0) eqn:E4; destruct (y mod 100 =? 0) eqn:E100;
    destruct (y mod 400 =? 0) eqn:E400; cbn [negb orb andb];
    Z.div_mod_to_equations; lia.
Qed.

Lemma days_before_year_le y1 y2 : y1 <= y2 -> days_before_year y1 <= days_before_year y2.
Proof.
  intros H. replace y2 with (y1 + (y2 - y1)) by lia.
  assert (0 <= y2 - y1) as Hn by lia. revert Hn. generalize (y2 - y1). clear H y2.
  apply (natlike_ind (fun n => days_before_year y1 <= days_before_year (y1 + n))).
  - replace (y1 + 0) with y1 by lia. lia.
  - intros n Hn IH. replace (y1 + Z.succ n) with (y1 + n + 1) by lia.
    rewrite days_before_year_succ. destruct (is_leap (y1 + n)); lia.
Qed.

Lemma month_cases m :
  1 <= m <= 12 ->
  m = 1 \/ m = 2 \/ m = 3 \/ m = 4 \/ m = 5 \/ m = 6 \/
  m = 7 \/ m = 8 \/ m = 9 \/ m = 10 \/ m = 11 \/ m = 12.
Proof. lia. Qed.

(** The days of the year before a month and the month itself end where the
    next month starts. *)
Lemma days_before_month_succ y m :
  1 <= m <= 11 -> days_before_month y (m + 1) = days_before_month y m + days_in_month y m.
Proof.
  intros H. assert (1 <= m <= 12) as H' by lia.
  destruct (month_cases m H') as [->|[->|[->|[->|[->|[->|[->|[->|[->|[->|[->| ->]]]]]]]]]]];
    try lia; unfold days_before_month, days_in_month; cbn; destruct (is_leap y); reflexivity.
Qed.

Lemma days_before_month_le y m1 m2 :
  1 <= m1 -> m1 <= m2 <= 12 -> days_before_month y m1 <= days_before_month y m2.
Proof.
  intros H1 H2. replace m2 with (m1 + (m2 - m1)) in * by lia.
  assert (0 <= m2 - m1) as Hn by lia. revert Hn H2. generalize (m2 - m1). clear m2.
  apply (natlike_ind (fun n => m1 <= m1 + n <= 12 ->
                               days_before_month y m1 <= days_before_month y (m1 + n))).
  - intros _. replace (m1 + 0) with m1 by lia. lia.
  - intros n Hn IH H. replace (m1 + Z.succ n) with (m1 + n + 1) by lia.
    rewrite days_before_month_succ by lia.
    assert (0 <= days_in_month y (m1 + n)).
    { unfold days_in_month. repeat match goal with |- context [if ?b then _ else _] => destruct b end; lia. }
    lia.
Qed.

Lemma days_in_year y m :
  1 <= m <= 12 ->
  days_before_month y m + days_in_month y m <= 365 + (if is_leap y then 1 else 0).
Proof.
  intros H.
  destruct (month_cases m H) as [->|[->|[->|[->|[->|[->|[->|[->|[->|[->|[->| ->]]]]]]]]]]];
    unfold days_before_month, days_in_month; cbn; destruct (is_leap y); lia.
Qed.

Lemma valid_ranges d :
  valid d = true ->
  1 <= year d <= 9999 /\ 1 <= month d <= 12 /\ 1 <= day d <= days_in_month (year d) (month d) /\
  0 <= hour d <= 23 /\ 0 <= minute d <= 59 /\ 0 <= second d <= 59 /\
  0 <= microsecond d <= 999999.
Proof.
  unfold valid. intros H. repeat (apply andb_true_iff in H as [H ?]). lia.
Qed.

(** The ordinal of a date grows with the date. *)
Lemma toordinal_lt a b :
  valid a = true -> valid b = true ->
  lex_compare [year a; month a; day a] [year b; month b; day b] = Lt ->
  toordinal a < toordinal b.
Proof.
  intros Ha Hb H. apply valid_ranges in Ha, Hb. unfold toordinal. cbn [lex_compare] in H.
  destruct (Z.compare_spec (year a) (year b)) as [Ey|Ey|Ey]; try discriminate.
  - rewrite Ey in *.
    destruct (Z.compare_spec (month a) (month b)) as [Em|Em|Em]; try discriminate.
    + rewrite Em in *. destruct (Z.compare_spec (day a) (day b)); try discriminate. lia.
    + pose proof (days_before_month_le (year b) (month a + 1) (month b)) as L.
      rewrite days_before_month_succ in L by lia. lia.
  - pose proof (days_before_year_le (year a + 1) (year b)) as L.
    rewrite days_before_year_succ in L.
    pose proof (days_in_year (year a) (month a)) as Y.
    assert (0 <= days_before_month (year b) (month b)).
    { pose proof (days_before_month_le (year b) 1 (month b)) as M.
      unfold days_before_month at 1 in M. cbn in M. lia. }
    lia.
Qed.

Lemma toordinal_eq a b :
  lex_compare [year a; month a; day a] [year b; month b; day b] = Eq ->
  toordinal a = toordinal b.
Proof.
  cbn [lex_compare]. unfold toordinal.
  destruct (Z.compare_spec (year a) (year b)); try discriminate.
  destruct (Z.compare_spec (month a) (month b)); try discriminate.
  destruct (Z.compare_spec (day a) (day b)); try discriminate. congruence.
Qed.

(** An earlier date is a negative difference. *)
Lemma ltb_sub a b :
  valid a = true -> valid b = true -> ltb a b = true -> sub a b < 0.
Proof.
  intros Ha Hb H. pose proof (toordinal_lt a b Ha Hb) as L.
  pose proof (toordinal_eq a b) as E.
  apply valid_ranges in Ha, Hb. unfold ltb, compare, fields in H.
  cbn [lex_compare] in *. unfold sub.
  destruct (Z.compare_spec (year a) (year b)); try discriminate; [|specialize (L eq_refl); nia].
  destruct (Z.compare_spec (month a) (month b)); try discriminate; [|specialize (L eq_refl); nia].
  destruct (Z.compare_spec (day a) (day b)); try discriminate; [|specialize (L eq_refl); nia].
  specialize (E eq_refl). rewrite E.
  destruct (Z.compare_spec (hour a) (hour b)); try discriminate; [|nia].
  destruct (Z.compare_spec (minute a) (minute b)); try discriminate; [|nia].
  destruct (Z.compare_spec (second a) (second b)); try discriminate; [|nia].
  destruct (Z.compare_spec (microsecond a) (microsecond b)); try discriminate. nia.
Qed.

Lemma sub_opp a b : sub a b = - sub b a.
Proof. unfold sub. lia. Qed.

Lemma toordinal_range d : valid d = true -> 1 <= toordinal d <= 3652061.
Proof.
  intros V. apply valid_ranges in V as (Y & M & D & _).
  pose proof (days_in_year (year d) (month d) M) as DY.
  pose proof (days_before_month_le (year d) 1 (month d)) as DM.
  unfold days_before_month at 1 in DM. cbn in DM.
  assert (0 <= days_before_year (year d) <= 3651695) as BY
    by (unfold days_before_year; Z.div_mod_to_equations; lia).
  unfold toordinal. destruct (is_leap (year d)); lia.
Qed.

Lemma sub_range a b : valid a = true -> valid b = true -> - 2 ^ 59 < sub a b < 2 ^ 59.
Proof.
  intros Va Vb. pose proof (toordinal_range a Va). pose proof (toordinal_range b Vb).
  apply valid_ranges in Va, Vb. unfold sub. lia.
Qed.

(** The hours of a difference that is not zero: a normal float, of the
    sign of the difference. *)
Lemma hours_finite td :
  td <> 0 -> - 2 ^ 59 < td < 2 ^ 59 ->
  exists m e, hours td = S754_finite (td <? 0) m e.
Proof.
  intros N B. unfold hours, total_seconds, true_divide.
  change (of_int 3600) with (S754_finite false 7916483719987200 (-41)).
  change (as_binary 1000000) with (S754_finite false 1000000 0).
  assert (exists p, as_binary td = S754_finite (td <? 0) p 0 /\ Zpos p < 2 ^ 59) as (p & -> & Hp).
  { destruct td as [|p|p]; [contradiction|exists p|exists p]; split; try reflexivity; lia. }
  pose proof (Binary64.digits2_spec p) as Sp.
  assert (1 <= Zpos (digits2_pos p) <= 59) as Dp.
  { split; [lia|]. destruct (Z_lt_le_dec 59 (Zpos (digits2_pos p))) as [L|L]; [|exact L].
    exfalso. assert (2 ^ 59 <= 2 ^ (Zpos (digits2_pos p) - 1))
      by (apply Z.pow_le_mono_r; lia). lia. }
  destruct (Binary64.SFdiv_normal (td <? 0) false p 0 1000000 0) as (m & e & -> & Dm & Be).
  { change (Zpos (digits2_pos 1000000)) with 20. lia. }
  { lia. }
  change (Zpos (digits2_pos 1000000)) with 20 in Be.
  destruct (Binary64.SFdiv_normal (xorb (td <? 0) false) false m e 7916483719987200 (-41))
    as (m' & e' & -> & _).
  { change (Zpos (digits2_pos 7916483719987200)) with 53. lia. }
  { lia. }
  exists m', e'. f_equal. destruct (td <? 0); reflexivity.
Qed.

Lemma hours_pos td :
  0 < td < 2 ^ 59 -> exists m e, hours td = S754_finite false m e.
Proof.
  intros H. destruct (hours_finite td) as (m & e & E); [lia|lia|].
  exists m, e. rewrite E. f_equal. apply Z.ltb_ge. lia.
Qed.

Lemma last_known_well_formed st k l : last_known st k = Some l -> well_formed l.
Proof.
  unfold last_known, parse_opt. destruct (st !! k) as [s|]; [|discriminate].
  destruct (truthy_str s); [|discriminate]. apply Reading.parsed_well_formed.
Qed.

(** X10.  The time differences a cycle logs: a [first_appointment] event
    has none; a [new_availability] and an [earlier_appointment] event carry
    a strictly positive number of hours (the later date minus the earlier
    one, as a float: finite, positive and not zero); an
    [expired_replaced] event carries the scraped date minus the lapsed
    one, of either sign.  No other appointment event is logged. *)
Theorem logged_time_differences env ntfy_url wandb_run locations_map rmv_url locs st o ev :
  In (o, Wandb ev)
     (snd (check_for_appointments env ntfy_url wandb_run locations_map rmv_url locs st)) ->
  (event_type ev = "first_appointment" /\ time_difference_hours ev = None) \/
  (event_type ev = "expired_replaced" /\ exists q, time_difference_hours ev = Some q) \/
  ((event_type ev = "new_availability" \/ event_type ev = "earlier_appointment") /\
   exists m e, time_difference_hours ev = Some (S754_finite false m e)).
Proof.
  intros H.
  destruct (Cycles.cycle_signal_in _ _ _ _ _ _ _ _ _ H eq_refl) as (live & _ & [Hin|[_ E]]);
    [|discriminate].
  apply Cycles.expected_run_in in Hin as (pre & loc & post & _ & _ & Hin).
  set (st' := fold_left _ pre st) in *. unfold classify in Hin.
  destruct (parsed (earliest_date loc)) as [d|] eqn:Hd; [|destruct Hin].
  apply Reading.parsed_well_formed in Hd as (Vd & _).
  destruct (last_known st' (loc_id loc)) as [l|] eqn:Hl.
  - apply last_known_well_formed in Hl as (Vl & _).
    pose proof (sub_range d l Vd Vl) as Rdl. pose proof (sub_range l d Vl Vd) as Rld.
    pose proof (sub_opp d l) as Opp.
    destruct (ltb l (now env)); [|destruct (gtb d l) eqn:G; [|destruct (ltb d l) eqn:L]];
      unfold expected_signals, event, notice in Hin; destruct wandb_run;
      cbn -[hours sub] in Hin;
      repeat (destruct Hin as [Hin|Hin];
              [try discriminate; injection Hin as <-; cbn -[hours sub]|]);
      try contradiction.
    + right. left. eauto.
    + right. right. split; [auto|].
      pose proof (ltb_sub l d Vl Vd G).
      destruct (hours_pos (sub d l)) as (m & e & ->); [lia|eauto].
    + right. right. split; [auto|].
      pose proof (ltb_sub d l Vd Vl L).
      destruct (hours_pos (sub l d)) as (m & e & ->); [lia|eauto].
  - unfold expected_signals, event, notice in Hin; destruct wandb_run; cbn in Hin;
      repeat (destruct Hin as [Hin|Hin]; [try discriminate; injection Hin as <-; cbn|]);
      try contradiction.
    left. auto.
Qed.

Lemma logged_time_differences_witness :
  let ev := mk_wandb_event "earlier_appointment" "5" "ID-5" (Some "Mon Jun 10, 2024, 09:00 AM")
              (Some "Mon Jun 10, 2024, 08:10 AM")
              (Some (S754_finite false 7505999378950827 (-53))) in
  (event_type ev = "first_appointment" /\ time_difference_hours ev = None) \/
  (event_type ev = "expired_replaced" /\ exists q, time_difference_hours ev = Some q) \/
  ((event_type ev = "new_availability" \/ event_type ev = "earlier_appointment") /\
   exists m e, time_difference_hours ev = Some (S754_finite false m e)).
Proof.
  apply (logged_time_differences
           (scraped (Some [mk_location "5" "Five" "Mon Jun 10, 2024, 08:10 AM"]) june_1st)
           "ntfy" true None "url" [] {[ "5" := "Mon Jun 10, 2024, 09:00 AM" ]} (Some "5")).
  vm_compute. auto 10.
Defined.

End Calendar.

(** ** Reading back what was written *)

Module RoundTrip.
Import Py Datetime Strptime Monitor Table Statements Facts Once Files Shapes.
Local Open Scope list_scope.

Lemma pattern_date_only :
  pattern DATE_ONLY false = Some (date_re (fun g => m_ret g)).
Proof. reflexivity. Qed.

Lemma pattern_date_time :
  pattern DATE_TIME false = Some (date_re (time_re (fun g => m_ret g))).
Proof. reflexivity. Qed.

Lemma strftime_date_only d : strftime d DATE_ONLY = date_text d "".
Proof. reflexivity. Qed.

Lemma strftime_date_time d : strftime d DATE_TIME = date_text d (time_text d).
Proof. reflexivity. Qed.

(** *** Steps of the matcher *)

Lemma m_bind_map {A B C} (f : A -> B) (m : matcher A) (k : B -> matcher C) s :
  m_bind (m_map f m) k s = m_bind m (fun a => k (f a)) s.
Proof.
  unfold m_bind, m_map. induction (m s) as [|[a r] l IH]; [reflexivity|].
  cbn. rewrite IH. reflexivity.
Qed.

(** When only the first way of matching lets the rest match. *)
Lemma m_bind_first {A B} (m : matcher A) (k : A -> matcher B) s a r tl :
  m s = (a, r) :: tl -> Forall (fun x => k (fst x) (snd x) = []) tl ->
  m_bind m k s = k a r.
Proof.
  unfold m_bind. intros -> H. cbn [flat_map fst snd].
  induction H as [|x l Hx Hl IH]; cbn [flat_map]; [apply app_nil_r|].
  rewrite Hx. exact IH.
Qed.

Lemma m_bind_one {A B} (m : matcher A) (k : A -> matcher B) s a r :
  m s = [(a, r)] -> m_bind m k s = k a r.
Proof. intros H. eapply m_bind_first; [exact H|constructor]. Qed.

Lemma range_in lo hi v : lo <= v <= hi -> In v (range lo hi).
Proof.
  intros H. unfold range. apply in_map_iff. exists (Z.to_nat (v - lo)).
  split; [lia|]. apply in_seq. lia.
Qed.

Lemma spaces_one s : solid s -> m_spaces (String " " s) = [(tt, s)].
Proof.
  intros H. cbn [m_spaces]. change (is_space " ") with true. cbv iota.
  destruct s as [|c t]; [reflexivity|]. cbn in H. cbn [m_spaces]. rewrite H. reflexivity.
Qed.

Lemma digit_char_spec n :
  0 <= n <= 9 ->
  is_digit (digit_char n) = true /\ digit_val (digit_char n) = n /\
  is_space (digit_char n) = false /\ between 48 (48 + n) (digit_char n) = true /\
  between (48 + n) 57 (digit_char n) = true.
Proof.
  intros H. apply (range_in 0 9) in H. cbv in H.
  repeat (destruct H as [<-|H]; [vm_compute; auto|]). destruct H.
Qed.

Lemma dec2_digits n :
  0 <= n <= 99 ->
  exists a b, dec2 n = String a (String b "") /\
    is_digit a = true /\ is_digit b = true /\ 10 * digit_val a + digit_val b = n /\
    is_space a = false /\ code a = 48 + n / 10 /\ code b = 48 + n mod 10.
Proof.
  intros H. unfold dec2.
  assert (0 <= n / 10 <= 9) as Ha by (Z.div_mod_to_equations; lia).
  assert (0 <= n mod 10 <= 9) as Hb by (Z.div_mod_to_equations; lia).
  destruct (digit_char_spec _ Ha) as (A1 & A2 & A3 & _).
  destruct (digit_char_spec _ Hb) as (B1 & B2 & _).
  exists (digit_char (n / 10)), (digit_char (n mod 10)).
  repeat split; try assumption.
  - rewrite A2, B2. Z.div_mod_to_equations; lia.
  - unfold digit_val in A2. lia.
  - unfold digit_val in B2. lia.
Qed.

Lemma m_bind_none {A B} (m : matcher A) (k : A -> matcher B) s :
  m s = [] -> m_bind m k s = [].
Proof. unfold m_bind. intros ->. reflexivity. Qed.

Lemma digit_blocks c :
  is_digit c = true ->
  is_space c = false /\ (forall r, m_lit "," (String c r) = []) /\
  (forall r, m_lit ":" (String c r) = []).
Proof.
  destruct c as [[] [] [] [] [] [] [] []]; intros H; vm_compute in H; try discriminate H;
    repeat split; reflexivity.
Qed.

Lemma lit_head c r : m_lit c (String c r) = [(tt, r)].
Proof. unfold m_lit, m_map, m_char. rewrite Ascii.eqb_refl. reflexivity. Qed.

Lemma m_d2_two p1 p2 a b r :
  p1 a = true -> p2 b = true ->
  m_d2 p1 p2 (String a (String b r)) = [(10 * digit_val a + digit_val b, r)].
Proof.
  intros Ha Hb. unfold m_d2, m_bind, m_char, m_ret. rewrite Ha. cbn [flat_map fst snd].
  rewrite Hb. reflexivity.
Qed.

(** *** The names *)

Lemma read_weekday d rest :
  m_names 0 a_weekday (weekday_abbr d +:+ rest) = [(weekday d, rest)].
Proof.
  unfold weekday_abbr.
  assert (0 <= weekday d <= 6) as H by (unfold weekday; Z.div_mod_to_equations; lia).
  remember (weekday d) as k eqn:E. clear E. apply (range_in 0 6) in H. cbv in H.
  repeat (destruct H as [<-|H]; [reflexivity|]). destruct H.
Qed.

Lemma read_month d rest :
  1 <= month d <= 12 ->
  m_names 1 a_month (month_abbr d +:+ rest) = [(month d, rest)] /\
  solid (month_abbr d +:+ rest).
Proof.
  unfold month_abbr. intros H.
  remember (month d) as k eqn:E. clear E. apply (range_in 1 12) in H. cbv in H.
  repeat (destruct H as [<-|H]; [split; reflexivity|]). destruct H.
Qed.

Lemma read_am_pm (b : bool) :
  m_names 0 am_pm ((if b then "AM" else "PM") +:+ "") = [(if b then 0 else 1, "")] /\
  solid ((if b then "AM" else "PM") +:+ "").
Proof. destruct b; split; reflexivity. Qed.

(** *** The numbers *)

Lemma read_day v rest :
  1 <= v <= 31 ->
  exists tl, day_re (dec2 v +:+ rest) = (v, rest) :: tl /\ backtracks rest tl.
Proof.
  intros H. apply (range_in 1 31) in H. cbv in H.
  repeat (destruct H as [<-|H];
          [eexists; split; [vm_compute; reflexivity|repeat econstructor]|]).
  destruct H.
Qed.

Lemma read_hour v rest :
  1 <= v <= 12 ->
  exists tl, hour_re (dec2 v +:+ rest) = (v, rest) :: tl /\ backtracks rest tl.
Proof.
  intros H. apply (range_in 1 12) in H. cbv in H.
  repeat (destruct H as [<-|H];
          [eexists; split; [vm_compute; reflexivity|repeat econstructor]|]).
  destruct H.
Qed.

Lemma read_minute v rest :
  0 <= v <= 59 ->
  exists tl, minute_re (dec2 v +:+ rest) = (v, rest) :: tl /\ backtracks rest tl.
Proof.
  intros H. apply (range_in 0 59) in H. cbv in H.
  repeat (destruct H as [<-|H];
          [eexists; split; [vm_compute; reflexivity|repeat econstructor]|]).
  destruct H.
Qed.

Lemma solid_dec2 v rest : 0 <= v <= 99 -> solid (dec2 v +:+ rest).
Proof.
  intros H. destruct (dec2_digits v H) as (a & b & -> & _ & _ & _ & Ha & _). exact Ha.
Qed.

Lemma dec_year_digits y :
  1000 <= y <= 9999 -> dec_year y = dec2 (y / 100) +:+ dec2 (y mod 100).
Proof.
  intros H. unfold dec_year.
  destruct (y <? 10) eqn:E1; [lia|]. destruct (y <? 100) eqn:E2; [lia|].
  destruct (y <? 1000) eqn:E3; [lia|]. reflexivity.
Qed.

Lemma read_year y rest :
  1000 <= y <= 9999 ->
  year_re (dec_year y +:+ rest) = [(y, rest)] /\ solid (dec_year y +:+ rest).
Proof.
  intros H. rewrite dec_year_digits by exact H.
  assert (0 <= y / 100 <= 99) as Hh by (Z.div_mod_to_equations; lia).
  assert (0 <= y mod 100 <= 99) as Hl by (Z.div_mod_to_equations; lia).
  destruct (dec2_digits _ Hh) as (a & b & -> & Ha & Hb & Hab & Sa & _).
  destruct (dec2_digits _ Hl) as (c & e & -> & Hc & He & Hce & _).
  split; [|exact Sa]. unfold year_re.
  change ((String a (String b "") +:+ String c (String e "")) +:+ rest)
    with (String a (String b (String c (String e rest)))).
  rewrite (m_bind_one _ _ _ _ _ (m_d2_two _ _ a b _ Ha Hb)).
  rewrite (m_bind_one _ _ _ _ _ (m_d2_two _ _ c e _ Hc He)).
  unfold m_ret. do 2 f_equal. rewrite Hab, Hce. Z.div_mod_to_equations; lia.
Qed.

(** *** Reading a date, and a time of day *)

Lemma read_date d rest (k : groups -> matcher groups) g :
  valid d = true -> 1000 <= year d ->
  date_re k g (date_text d rest)
  = k (set_Y (set_d (set_b (set_a g (weekday d)) (month d)) (day d)) (year d)) rest.
Proof.
  intros V Hy. apply Calendar.valid_ranges in V as (Y & Mo & D & _).
  assert (1 <= day d <= 31) as D'.
  { unfold days_in_month in D.
    repeat match type of D with context [if ?b then _ else _] => destruct b end; lia. }
  unfold date_re, date_text.
  rewrite m_bind_map, (m_bind_one _ _ _ _ _ (read_weekday d _)).
  destruct (read_month d (String " " (dec2 (day d) +:+ String "," (String " "
              (dec_year (year d) +:+ rest)))) Mo) as [Em Sm].
  rewrite (m_bind_one _ _ _ _ _ (spaces_one _ Sm)).
  rewrite m_bind_map, (m_bind_one _ _ _ _ _ Em).
  assert (0 <= day d <= 99) as D99 by lia.
  assert (1000 <= year d <= 9999) as Y' by lia.
  rewrite (m_bind_one _ _ _ _ _ (spaces_one _ (solid_dec2 (day d) _ D99))).
  destruct (read_day (day d) (String "," (String " " (dec_year (year d) +:+ rest))) D')
    as (tl & Ed & Bd).
  rewrite m_bind_map, (m_bind_first _ _ _ _ _ _ Ed).
  2:{ clear -Bd. induction Bd as [|[u s] l (c & Hs & Hc) Hl IH]; constructor; [|exact IH].
      cbn in Hs. subst s. cbn [fst snd]. apply m_bind_none. apply (digit_blocks c Hc). }
  destruct (read_year (year d) rest Y') as [Ey Sy].
  rewrite (m_bind_one _ _ _ _ _ (lit_head "," _)).
  rewrite (m_bind_one _ _ _ _ _ (spaces_one _ Sy)).
  rewrite m_bind_map, (m_bind_one _ _ _ _ _ Ey). reflexivity.
Qed.

Lemma hour12_range d : 0 <= hour d <= 23 -> 1 <= hour12 d <= 12.
Proof.
  intros H. unfold hour12. destruct (hour d mod 12 =? 0) eqn:E; [lia|].
  apply Z.eqb_neq in E. Z.div_mod_to_equations; lia.
Qed.

Lemma read_time d (k : groups -> matcher groups) g :
  valid d = true ->
  time_re k g (time_text d)
  = k (set_p (set_M (set_I g (hour12 d)) (minute d)) (if hour d <? 12 then 0 else 1)) "".
Proof.
  intros V. apply Calendar.valid_ranges in V as (_ & _ & _ & H & Mi & _).
  pose proof (hour12_range d H) as H12.
  assert (0 <= hour12 d <= 99) as H99 by lia.
  assert (0 <= minute d <= 99) as M99 by lia.
  unfold time_re, time_text.
  rewrite (m_bind_one _ _ _ _ _ (lit_head "," _)).
  rewrite (m_bind_one _ _ _ _ _ (spaces_one _ (solid_dec2 (hour12 d) _ H99))).
  destruct (read_hour (hour12 d) (String ":" (dec2 (minute d) +:+ String " "
              ((if hour d <? 12 then "AM" else "PM") +:+ ""))) H12) as (tl & Eh & Bh).
  rewrite m_bind_map, (m_bind_first _ _ _ _ _ _ Eh).
  2:{ clear -Bh. induction Bh as [|[u s] l (c & Hs & Hc) Hl IH]; constructor; [|exact IH].
      cbn in Hs. subst s. cbn [fst snd]. apply m_bind_none. apply (digit_blocks c Hc). }
  rewrite (m_bind_one _ _ _ _ _ (lit_head ":" _)).
  destruct (read_minute (minute d) (String " " ((if hour d <? 12 then "AM" else "PM") +:+ ""))
              Mi) as (tl' & Em & Bm).
  rewrite m_bind_map, (m_bind_first _ _ _ _ _ _ Em).
  2:{ clear -Bm. induction Bm as [|[u s] l (c & Hs & Hc) Hl IH]; constructor; [|exact IH].
      cbn in Hs. subst s. cbn [fst snd]. apply m_bind_none.
      cbn [m_spaces]. destruct (digit_blocks c Hc) as (-> & _). reflexivity. }
  destruct (read_am_pm (hour d <? 12)) as [Ep Sp].
  rewrite (m_bind_one _ _ _ _ _ (spaces_one _ Sp)).
  rewrite m_bind_map, (m_bind_one _ _ _ _ _ Ep). reflexivity.
Qed.

Lemma hour_back h :
  0 <= h <= 23 ->
  (if h <? 12
   then (if (if h mod 12 =? 0 then 12 else h mod 12) =? 12 then 0
         else (if h mod 12 =? 0 then 12 else h mod 12))
   else (if (if h mod 12 =? 0 then 12 else h mod 12) =? 12
         then (if h mod 12 =? 0 then 12 else h mod 12)
         else (if h mod 12 =? 0 then 12 else h mod 12) + 12)) = h.
Proof.
  intros H. apply (range_in 0 23) in H. cbv in H.
  repeat (destruct H as [<-|H]; [reflexivity|]). destruct H.
Qed.

(** *** [strptime] after [strftime] *)

Lemma strptime_date_only d :
  valid d = true -> 1000 <= year d ->
  strptime (strftime d DATE_ONLY) DATE_ONLY = inr (at_midnight d).
Proof.
  intros V Hy. unfold strptime.
  rewrite pattern_date_only, strftime_date_only, (read_date d "" _ _ V Hy).
  unfold m_ret. apply Calendar.valid_ranges in V as (Y & Mo & D & _).
  unfold convert, get, set_Y, set_d, set_b, set_a, no_groups. cbn [g_a g_b g_d g_Y g_I g_M g_p].
  cbv zeta.
  assert ((year d <? 1) || (9999 <? year d) = false) as -> by (apply orb_false_iff; lia).
  assert ((day d <? 1) || (days_in_month (year d) (month d) <? day d) = false) as ->
    by (apply orb_false_iff; lia).
  reflexivity.
Qed.

Lemma strptime_date_time d :
  well_formed d -> 1000 <= year d ->
  strptime (strftime d DATE_TIME) DATE_TIME = inr d.
Proof.
  intros (V & S & U) Hy. unfold strptime.
  rewrite pattern_date_time, strftime_date_time, (read_date d _ _ _ V Hy), (read_time d _ _ V).
  unfold m_ret. apply Calendar.valid_ranges in V as (Y & Mo & D & H & _).
  unfold convert, get, set_Y, set_d, set_b, set_a, set_I, set_M, set_p, no_groups.
  cbn [g_a g_b g_d g_Y g_I g_M g_p].
  cbv zeta.
  assert ((year d <? 1) || (9999 <? year d) = false) as -> by (apply orb_false_iff; lia).
  assert ((day d <? 1) || (days_in_month (year d) (month d) <? day d) = false) as ->
    by (apply orb_false_iff; lia).
  pose proof (hour_back (hour d) H) as Hb. unfold hour12.
  destruct d as [y m dd h mi s us]. cbn in *. subst s us. f_equal. f_equal.
  destruct (h <? 12); exact Hb.
Qed.

(** A date without a time of day does not read as one with. *)
Lemma strptime_date_only_as_date_time d :
  valid d = true -> 1000 <= year d ->
  strptime (strftime d DATE_ONLY) DATE_TIME
  = inl (DoesNotMatch (strftime d DATE_ONLY) DATE_TIME).
Proof.
  intros V Hy. unfold strptime.
  rewrite pattern_date_time, strftime_date_only, (read_date d "" _ _ V Hy). reflexivity.
Qed.

(** *** No sentinel in a canonical form *)

Lemma lacks_contains c p s : lacks c s = true -> contains (String c p) s = false.
Proof.
  induction s as [|x t IH]; [reflexivity|]. cbn [lacks]. intros H.
  apply andb_true_iff in H as [Hx Ht]. apply negb_true_iff in Hx.
  simpl. rewrite (IH Ht). destruct (ascii_dec c x) as [->|_]; [|reflexivity].
  rewrite Ascii.eqb_refl in Hx. discriminate.
Qed.

Lemma lacks_app c a b : lacks c (a +:+ b) = lacks c a && lacks c b.
Proof. induction a as [|x t IH]; simpl; [reflexivity|]. rewrite IH. apply andb_assoc. Qed.

Lemma lacks_dec2 c v : is_digit c = false -> 0 <= v <= 99 -> lacks c (dec2 v) = true.
Proof.
  intros Hc H. destruct (dec2_digits v H) as (a & b & -> & Ha & Hb & _).
  cbn [lacks]. destruct (Ascii.eqb_spec a c) as [->|_]; [congruence|].
  destruct (Ascii.eqb_spec b c) as [->|_]; [congruence|]. reflexivity.
Qed.

Lemma lacks_dec_year c y : is_digit c = false -> 1000 <= y <= 9999 -> lacks c (dec_year y) = true.
Proof.
  intros Hc H. rewrite dec_year_digits by exact H.
  rewrite lacks_app, !lacks_dec2; try assumption; try reflexivity;
    Z.div_mod_to_equations; lia.
Qed.

Lemma lacks_time_text c d :
  valid d = true -> c = "N"%char \/ c = "L"%char -> lacks c (time_text d) = true.
Proof.
  intros V Hc. apply Calendar.valid_ranges in V as (_ & _ & _ & H & Mi & _).
  pose proof (hour12_range d H) as H12.
  assert (is_digit c = false) as Dc by (destruct Hc; subst; reflexivity).
  unfold time_text. cbn [lacks]. rewrite lacks_app. cbn [lacks]. rewrite lacks_app.
  cbn [lacks]. rewrite !lacks_dec2 by (assumption || lia).
  destruct Hc; subst; destruct (hour d <? 12); reflexivity.
Qed.

Lemma contains_names d r p :
  In p sentinels -> 1 <= month d <= 12 ->
  contains p (weekday_abbr d +:+ String " " (month_abbr d +:+ String " " r)) = contains p r.
Proof.
  intros Hp Hm. unfold weekday_abbr, month_abbr.
  assert (0 <= weekday d <= 6) as Hw by (unfold weekday; Z.div_mod_to_equations; lia).
  remember (weekday d) as w eqn:E. clear E. remember (month d) as m eqn:E. clear E.
  assert (contains p (nth (Z.to_nat w) ["Mon"; "Tue"; "Wed"; "Thu"; "Fri"; "Sat"; "Sun"] ""
                      +:+ String " " (nth (Z.to_nat (m - 1))
                        ["Jan"; "Feb"; "Mar"; "Apr"; "May"; "Jun"; "Jul"; "Aug"; "Sep"; "Oct";
                         "Nov"; "Dec"] "" +:+ String " " r))
          = contains p (nth (Z.to_nat (m - 1))
                        ["Jan"; "Feb"; "Mar"; "Apr"; "May"; "Jun"; "Jul"; "Aug"; "Sep"; "Oct";
                         "Nov"; "Dec"] "" +:+ String " " r)) as ->.
  { apply (range_in 0 6) in Hw. cbv in Hw. destruct Hp as [<-|[<-|[<-|[]]]];
      repeat (destruct Hw as [<-|Hw]; [reflexivity|]); destruct Hw. }
  apply (range_in 1 12) in Hm. cbv in Hm. destruct Hp as [<-|[<-|[<-|[]]]];
    repeat (destruct Hm as [<-|Hm]; [reflexivity|]); destruct Hm.
Qed.

Lemma no_sentinel_in_date d rest p :
  valid d = true -> 1000 <= year d -> In p sentinels ->
  lacks "N" rest = true -> lacks "L" rest = true ->
  contains p (date_text d rest) = false.
Proof.
  intros V Hy Hp HN HL. apply Calendar.valid_ranges in V as (Y & Mo & D & _).
  assert (0 <= day d <= 99) as D99.
  { unfold days_in_month in D.
    repeat match type of D with context [if ?b then _ else _] => destruct b end; lia. }
  assert (1000 <= year d <= 9999) as Y' by lia.
  unfold date_text. rewrite (contains_names d _ p Hp Mo).
  assert (forall c, c = "N"%char \/ c = "L"%char ->
            lacks c (dec2 (day d) +:+ String "," (String " " (dec_year (year d) +:+ rest)))
            = true) as L.
  { intros c Hc. assert (is_digit c = false) as Dc by (destruct Hc; subst; reflexivity).
    rewrite lacks_app. cbn [lacks]. rewrite lacks_app, lacks_dec2, lacks_dec_year by assumption.
    destruct Hc; subst; rewrite ?HN, ?HL; reflexivity. }
  destruct Hp as [<-|[<-|[<-|[]]]]; apply lacks_contains; apply L; auto.
Qed.

End RoundTrip.

(** ** The stored form of a date reads back *)

Module Canonical.
Import Py Datetime Strptime Monitor Table Statements Facts Once Files Shapes.
Local Open Scope list_scope.

Lemma lstrip_solid s : solid s -> lstrip_by is_space s = s.
Proof. destruct s as [|c t]; [reflexivity|]. cbn. intros ->. reflexivity. Qed.

Lemma rstrip_fixed p s :
  (forall c, last_char s = Some c -> p c = false) -> rstrip_by p s = s.
Proof.
  induction s as [|c t IH]; [reflexivity|]. intros H. destruct t as [|x t'].
  - cbn. rewrite (H c eq_refl). reflexivity.
  - pose proof (IH H) as E. cbn [rstrip_by] in *. rewrite E. reflexivity.
Qed.

Lemma last_char_skip a x t : last_char (a +:+ String x t) = last_char (String x t).
Proof.
  induction a as [|c a IH]; [reflexivity|].
  change (String c a +:+ String x t) with (String c (a +:+ String x t)).
  rewrite <- IH. destruct a; reflexivity.
Qed.

Lemma last_char_cons c a x t :
  last_char (String c (a +:+ String x t)) = last_char (String x t).
Proof. rewrite <- (last_char_skip a x t). destruct a; reflexivity. Qed.

Lemma digit_is_plain c :
  is_digit c = true -> is_space c = false /\ Ascii.eqb "," c = false.
Proof.
  destruct c as [[] [] [] [] [] [] [] []]; intros H; try discriminate H; split; reflexivity.
Qed.

Lemma last_char_date d x t : last_char (date_text d (String x t)) = last_char (String x t).
Proof.
  unfold date_text. rewrite last_char_skip, last_char_cons, last_char_cons.
  change (last_char (String " " (dec_year (year d) +:+ String x t)) = last_char (String x t)).
  apply last_char_cons.
Qed.

Lemma last_char_date_only d :
  1000 <= year d <= 9999 ->
  exists e, last_char (date_text d "") = Some e /\ is_digit e = true.
Proof.
  intros H. unfold date_text. rewrite last_char_skip, last_char_cons, last_char_cons.
  rewrite RoundTrip.dec_year_digits by exact H.
  destruct (RoundTrip.dec2_digits (year d / 100)) as (a & b & -> & _);
    [Z.div_mod_to_equations; lia|].
  destruct (RoundTrip.dec2_digits (year d mod 100)) as (c & e & -> & _ & He & _);
    [Z.div_mod_to_equations; lia|].
  exists e. split; [reflexivity|exact He].
Qed.

Lemma last_char_time d : last_char (time_text d) = Some "M"%char.
Proof.
  unfold time_text.
  change (last_char (String " " (dec2 (hour12 d) +:+ String ":" (dec2 (minute d) +:+
            String " " ((if hour d <? 12 then "AM" else "PM") +:+ "")))) = Some "M"%char).
  rewrite last_char_cons, last_char_cons. destruct (hour d <? 12); reflexivity.
Qed.

Lemma lacks_time_text_N d : valid d = true -> lacks "N" (time_text d) = true.
Proof. intros V. apply RoundTrip.lacks_time_text; auto. Qed.

Lemma lacks_time_text_L d : valid d = true -> lacks "L" (time_text d) = true.
Proof. intros V. apply RoundTrip.lacks_time_text; auto. Qed.

Lemma solid_date d rest : solid (date_text d rest).
Proof.
  unfold date_text, weekday_abbr.
  assert (0 <= weekday d <= 6) as Hw by (unfold weekday; Z.div_mod_to_equations; lia).
  remember (weekday d) as w eqn:E. clear E.
  apply (RoundTrip.range_in 0 6) in Hw. cbv in Hw.
  repeat (destruct Hw as [<-|Hw]; [reflexivity|]). destruct Hw.
Qed.

Lemma cleaned_fixed s :
  solid s ->
  (forall c, last_char s = Some c -> is_space c = false /\ Ascii.eqb "," c = false) ->
  cleaned s = s.
Proof.
  intros S L. unfold cleaned, strip, rstrip_comma. rewrite (lstrip_solid s S).
  rewrite (rstrip_fixed is_space s) by (intros c Hc; apply (L c Hc)).
  apply rstrip_fixed. intros c Hc. apply (L c Hc).
Qed.

Lemma cleaned_date_only d :
  1000 <= year d <= 9999 -> cleaned (date_text d "") = date_text d "".
Proof.
  intros H. apply cleaned_fixed; [apply solid_date|].
  destruct (last_char_date_only d H) as (e & -> & He). intros c [= <-].
  apply digit_is_plain, He.
Qed.

Lemma cleaned_date_time d : cleaned (date_text d (time_text d)) = date_text d (time_text d).
Proof.
  apply cleaned_fixed; [apply solid_date|].
  unfold time_text at 1. rewrite last_char_date. fold (time_text d).
  rewrite last_char_time. intros c [= <-]. split; reflexivity.
Qed.

Lemma parse_date_of_date_time d :
  well_formed d -> 1000 <= year d -> parse_date (strftime d DATE_TIME) = (Some d, []).
Proof.
  intros W Hy. pose proof W as (V & _).
  pose proof (lacks_time_text_N d V) as HN. pose proof (lacks_time_text_L d V) as HL.
  rewrite RoundTrip.strftime_date_time. unfold parse_date.
  rewrite (RoundTrip.no_sentinel_in_date d _ "No Appointments" V Hy) by (cbn; auto).
  rewrite (RoundTrip.no_sentinel_in_date d _ "No Date Found" V Hy) by (cbn; auto).
  rewrite (RoundTrip.no_sentinel_in_date d _ "Location Not Available" V Hy) by (cbn; auto).
  cbn [orb]. cbv zeta.
  change (rstrip_comma (strip (date_text d (time_text d))))
    with (cleaned (date_text d (time_text d))).
  rewrite cleaned_date_time. rewrite <- RoundTrip.strftime_date_time.
  change "%a %b %d, %Y, %I:%M %p" with DATE_TIME.
  rewrite (RoundTrip.strptime_date_time d W Hy). reflexivity.
Qed.

Lemma parse_date_of_date_only d :
  valid d = true -> 1000 <= year d ->
  parse_date (strftime d DATE_ONLY) = (Some (at_midnight d), []).
Proof.
  intros V Hy. pose proof (Calendar.valid_ranges d V) as (Y & _).
  rewrite RoundTrip.strftime_date_only. unfold parse_date.
  rewrite (RoundTrip.no_sentinel_in_date d _ "No Appointments" V Hy) by (cbn; auto).
  rewrite (RoundTrip.no_sentinel_in_date d _ "No Date Found" V Hy) by (cbn; auto).
  rewrite (RoundTrip.no_sentinel_in_date d _ "Location Not Available" V Hy) by (cbn; auto).
  cbn [orb]. cbv zeta.
  change (rstrip_comma (strip (date_text d ""))) with (cleaned (date_text d "")).
  rewrite cleaned_date_only by lia. rewrite <- RoundTrip.strftime_date_only.
  change "%a %b %d, %Y, %I:%M %p" with DATE_TIME. change "%a %b %d, %Y" with DATE_ONLY.
  rewrite (RoundTrip.strptime_date_only_as_date_time d V Hy).
  rewrite (RoundTrip.strptime_date_only d V Hy). reflexivity.
Qed.

(** X11.  The entry a cycle stores for a first or an earlier appointment
    reads back: for a scraped text that parses to a date of the year 1000
    or later, [parse_date] of the stored form logs nothing and returns the
    same date when the text carries an [AM] or [PM] marker, and the same
    day at 00:00 when it carries none. *)
Theorem canonical_form_reads_back raw d :
  parsed raw = Some d -> 1000 <= year d ->
  parse_date (canonical raw d) = (Some (if has_time raw then d else at_midnight d), []).
Proof.
  intros Hd Hy. pose proof (Reading.parsed_well_formed raw d Hd) as W.
  unfold canonical. destruct (has_time raw).
  - apply (parse_date_of_date_time d W Hy).
  - apply (parse_date_of_date_only d (proj1 W) Hy).
Qed.

Lemma canonical_form_reads_back_witness :
  parse_date (canonical "mon jun 10, 2024, 10:30 am" (mk_datetime 2024 6 10 10 30 0 0))
  = (Some (mk_datetime 2024 6 10 0 0 0 0), []).
Proof.
  apply (canonical_form_reads_back "mon jun 10, 2024, 10:30 am" (mk_datetime 2024 6 10 10 30 0 0)).
  - vm_compute. reflexivity.
  - vm_compute. discriminate.
Defined.

Lemma at_midnight_fixed d :
  well_formed d -> hour d = 0 -> minute d = 0 -> at_midnight d = d.
Proof.
  intros (_ & S & U) H M. destruct d. unfold at_midnight. cbn in *. subst. reflexivity.
Qed.

Lemma reads_back_as_scraped raw d :
  parsed raw = Some d -> 1000 <= year d ->
  has_time raw = true \/ (hour d = 0 /\ minute d = 0) ->
  parsed (canonical raw d) = Some d.
Proof.
  intros Hd Hy Ht. pose proof (Reading.parsed_well_formed raw d Hd) as W.
  unfold parsed, canonical. change "%a %b %d, %Y, %I:%M %p" with DATE_TIME.
  change "%a %b %d, %Y" with DATE_ONLY. destruct (has_time raw).
  - rewrite (parse_date_of_date_time d W Hy). reflexivity.
  - rewrite (parse_date_of_date_only d (proj1 W) Hy). cbn [fst]. f_equal.
    destruct Ht as [Ht|[H0 M0]]; [discriminate Ht|]. apply at_midnight_fixed; assumption.
Qed.

(** X12.  Two cycles on the same scraped data, the second started from the
    dictionary the first returned: when the locations of the data are
    distinct and every scraped date is of the year 1000 or later, is not
    before the time of the second cycle, and either carries an [AM] or
    [PM] marker or is at 00:00, the second cycle returns the dictionary
    unchanged, sends no notification and logs no appointment event. *)
Theorem repeated_data_is_idle ntfy_url wandb_run locations_map rmv_url locs env1 env2
    live_data st :
  get_rmv_data env1 rmv_url locs = Some live_data ->
  get_rmv_data env2 rmv_url locs = Some live_data ->
  List.NoDup (map loc_id live_data) ->
  (forall loc d, In loc live_data -> parsed (earliest_date loc) = Some d ->
     1000 <= year d /\ ltb d (now env2) = false /\
     (has_time (earliest_date loc) = true \/ (hour d = 0 /\ minute d = 0))) ->
  second_cycle_is_idle env1 env2 ntfy_url wandb_run locations_map rmv_url locs st.
Proof.
  intros Hget1 Hget2 Hnd H. unfold second_cycle_is_idle. cbn zeta.
  set (r1 := check_for_appointments env1 ntfy_url wandb_run locations_map rmv_url locs st).
  destruct live_data as [|x xs].
  { rewrite (check_for_appointments_no_data env2 _ _ _ _ _ (fst r1) (or_intror Hget2)).
    split; [reflexivity|]. intros o e [E|[E|[]]]; injection E as _ <-; reflexivity. }
  assert (forall loc d, In loc (x :: xs) -> parsed (earliest_date loc) = Some d ->
            last_known (fst r1) (loc_id loc) = Some d /\ ltb d (now env2) = false) as Hset.
  { intros loc d Hin Hd. destruct (H loc d Hin Hd) as (Hy & Hn & Ht). split; [|exact Hn].
    apply in_split in Hin as (pre & post & Hsplit).
    pose proof (Claims.NoDup_split_ids _ pre loc post Hnd Hsplit) as Hu.
    rewrite Hsplit in Hget1.
    destruct (check_for_appointments_once env1 ntfy_url wandb_run locations_map rmv_url locs
                pre loc post st Hget1 Hu) as [E _].
    fold r1 in E. rewrite (Claims.last_known_ext _ _ _ E).
    apply Claims.next_state_settles; [exact Hd|].
    apply (reads_back_as_scraped _ d Hd Hy Ht). }
  destruct (check_for_appointments_signals env2 ntfy_url wandb_run locations_map
              rmv_url locs (fst r1) x xs Hget2) as [E1 E2].
  destruct (Claims.expected_run_settled ntfy_url wandb_run locations_map env2 (x :: xs)
              (fst r1) Hset) as (S1 & Q & C).
  split.
  - rewrite E1. exact S1.
  - apply Claims.quiet_signals. rewrite E2. intros o e Hin.
    apply in_app_or in Hin as [Hin|[Hin|[]]]; [eapply Q; exact Hin|].
    injection Hin as _ <-. reflexivity.
Qed.

Lemma repeated_data_is_idle_witness :
  let live_data := [mk_location "7" "Seven" "Fri Aug 09, 2024";
                    mk_location "5" "Five" "Wed Jul 17, 2024, 12:00 am";
                    mk_location "4" "Four" "Thu Jul 18, 2024, 01:15 PM";
                    mk_location "3" "Three" "No Appointments Available"] in
  second_cycle_is_idle (scraped (Some live_data) june_1st) (scraped (Some live_data) june_2nd)
    "ntfy" false None "url" [] {[ "4" := "Mon Jan 01, 2024, 09:00 AM" ]}.
Proof.
  apply (repeated_data_is_idle "ntfy" false None "url" []
           (scraped (Some [mk_location "7" "Seven" "Fri Aug 09, 2024";
                           mk_location "5" "Five" "Wed Jul 17, 2024, 12:00 am";
                           mk_location "4" "Four" "Thu Jul 18, 2024, 01:15 PM";
                           mk_location "3" "Three" "No Appointments Available"]) june_1st)
           (scraped (Some [mk_location "7" "Seven" "Fri Aug 09, 2024";
                           mk_location "5" "Five" "Wed Jul 17, 2024, 12:00 am";
                           mk_location "4" "Four" "Thu Jul 18, 2024, 01:15 PM";
                           mk_location "3" "Three" "No Appointments Available"]) june_2nd)
           [mk_location "7" "Seven" "Fri Aug 09, 2024";
            mk_location "5" "Five" "Wed Jul 17, 2024, 12:00 am";
            mk_location "4" "Four" "Thu Jul 18, 2024, 01:15 PM";
            mk_location "3" "Three" "No Appointments Available"]).
  - reflexivity.
  - reflexivity.
  - cbn. repeat constructor; cbn; intuition discriminate.
  - intros loc d [<-|[<-|[<-|[<-|[]]]]] Hd; vm_compute in Hd; try discriminate;
      injection Hd as <-; vm_compute; repeat split; auto; discriminate.
Defined.

End Canonical.

(** ** The directory of names at start-up *)

Module Directory.
Import Py Monitor Table Statements Files Startup.
Local Open Scope list_scope.

(** The dictionary comprehension: the last entry of an identifier wins. *)
Lemma insert_all_lookup (l : list center) : forall (m : gmap string string) k,
  (exists c, In c l /\ center_id c = k /\
     fold_left (fun m loc => <[center_id loc := center_name loc]> m) l m !! k
     = Some (center_name c)) \/
  ((forall c, In c l -> center_id c <> k) /\
   fold_left (fun m loc => <[center_id loc := center_name loc]> m) l m !! k = m !! k).
Proof.
  induction l as [|x l IH]; intros m k; cbn [fold_left].
  - right. split; [intros c []|reflexivity].
  - destruct (IH (<[center_id x := center_name x]> m) k) as [(c & Hc & Hk & E)|[Hn E]].
    + left. exists c. split; [right; exact Hc|]. split; assumption.
    + destruct (decide (center_id x = k)) as [Hx|Hx].
      * left. exists x. split; [left; reflexivity|]. split; [exact Hx|].
        rewrite E, <- Hx. apply lookup_insert_eq.
      * right. split; [intros c [<-|Hc]; auto|].
        rewrite E. apply lookup_insert_ne. exact Hx.
Qed.

Lemma add_all_fixed (l : list center) (m : gmap string string) :
  (forall c, In c l -> m !! center_id c <> None) -> fold_left add_new l m = m.
Proof.
  induction l as [|x l IH]; intros H; [reflexivity|]. cbn [fold_left].
  assert (add_new m x = m) as ->.
  { unfold add_new. rewrite bool_decide_eq_false_2; [reflexivity|].
    apply H. left. reflexivity. }
  apply IH. intros c Hc. apply H. right. exact Hc.
Qed.

(** The lines logged while the new locations are added write no JSON
    file. *)
Lemma refresh_fold_writes catalog : forall (acc : W (gmap string string)) (fs : files),
  json_files (after (snd (fold_left
         (fun (acc : W (gmap string string)) loc =>
            bind acc (fun m =>
              if bool_decide (m !! center_id loc = None) then
                bind (emit (Log INFO ("Added new location: " +:+ center_id loc +:+ " -> "
                                      +:+ center_name loc)))
                     (fun _ => ret (<[center_id loc := center_name loc]> m))
              else ret m))
         catalog acc)) fs)
  = json_files (after (snd acc) fs).
Proof.
  induction catalog as [|c l IH]; intros acc fs; [reflexivity|].
  cbn [fold_left]. rewrite IH. cbn [bind snd]. rewrite Cycles.after_app.
  apply Cycles.after_no_write. intros e He data file.
  destruct (bool_decide _); cbn in He; [destruct He as [<-|[]]; discriminate|destruct He].
Qed.

(** What a refresh of a directory that is not empty leaves: the merged
    directory in memory, and in the file when an identifier was new. *)
Lemma refresh_outcome (m : gmap string string) (catalog : list center) (fs : files) :
  m <> ∅ ->
  let r := refresh_locations_map_if_needed m catalog in
  snd (fst r) = fold_left add_new catalog m /\
  ((forall c, In c catalog -> m !! center_id c <> None) ->
     r = ((false, m), [])) /\
  ((exists c, In c catalog /\ m !! center_id c = None) ->
     json_files (after (snd r) fs)
     = <[LOCATIONS_MAP_FILE := fold_left add_new catalog m]> (json_files fs)).
Proof.
  intros Hm. cbn zeta. unfold refresh_locations_map_if_needed, truthy_dict.
  rewrite (bool_decide_eq_false_2 _ Hm). cbn [negb].
  destruct (bool_decide (_ ∖ _ = ∅)) eqn:Hd; cbn [negb].
  - apply bool_decide_eq_true in Hd.
    assert (forall c, In c catalog -> m !! center_id c <> None) as Hall.
    { intros c Hc Hn. apply (proj2 (Claims.new_ids_nonempty m catalog)); eauto. }
    cbn [ret fst snd]. split; [symmetry; apply add_all_fixed; exact Hall|].
    split; [reflexivity|]. intros (c & Hc & Hn). exfalso. eapply Hall; eauto.
  - apply bool_decide_eq_false in Hd. apply Claims.new_ids_nonempty in Hd.
    cbn [bind emit ret fst snd]. rewrite Claims.refresh_fold_fst. cbn [ret fst].
    split; [reflexivity|]. split.
    + intros Hall. destruct Hd as (c & Hc & Hn). exfalso. eapply Hall; eauto.
    + intros _. rewrite !Cycles.after_app.
      change (after [] ?y) with y.
      change (json_files (after [SaveJson ?d ?f] ?x)) with (<[f := d]> (json_files x)).
      rewrite refresh_fold_writes. reflexivity.
Qed.

Lemma find_app {A} (p : A -> bool) (a b : list A) :
  List.find p (a ++ b) = match List.find p a with Some x => Some x | None => List.find p b end.
Proof.
  induction a as [|x a IH]; [reflexivity|]. cbn. destruct (p x); [reflexivity|exact IH].
Qed.

(** The dictionary comprehension gives an identifier the name of its last
    entry. *)
Lemma names_of_lookup (l : list center) : forall (m : gmap string string) k,
  fold_left (fun m loc => <[center_id loc := center_name loc]> m) l m !! k
  = match first_named k (rev l) with
    | Some c => Some (center_name c)
    | None => m !! k
    end.
Proof.
  induction l as [|x l IH]; intros m k; [reflexivity|].
  cbn [fold_left rev]. rewrite IH. unfold first_named. rewrite find_app.
  destruct (List.find _ (rev l)); [reflexivity|]. cbn [List.find].
  case_bool_decide as Hx.
  - rewrite <- Hx. apply lookup_insert_eq.
  - apply lookup_insert_ne. exact Hx.
Qed.

Lemma first_named_In k (l : list center) c :
  In c l -> center_id c = k -> exists c', first_named k l = Some c'.
Proof.
  intros Hc Hk. unfold first_named.
  destruct (List.find _ l) as [c'|] eqn:E; [eauto|].
  pose proof (List.find_none _ _ E c Hc) as N. cbn in N.
  apply bool_decide_eq_false in N. contradiction.
Qed.

(** The two ways [open_locations_map] goes. *)
Lemma open_created (fs : files) catalog :
  load_locations_map fs = ∅ ->
  open_locations_map fs catalog
  = (names_of catalog,
     [Log INFO "Creating locations mapping file...";
      SaveJson (names_of catalog) LOCATIONS_MAP_FILE;
      Log INFO ("Created locations mapping with " +:+ pretty (size (names_of catalog))
                +:+ " locations")]).
Proof.
  intros E. unfold open_locations_map. cbv zeta. rewrite E. unfold truthy_dict.
  rewrite bool_decide_eq_true_2 by reflexivity. reflexivity.
Qed.

Lemma open_loaded (fs : files) catalog :
  load_locations_map fs <> ∅ ->
  let m := load_locations_map fs in
  let r := refresh_locations_map_if_needed m catalog in
  open_locations_map fs catalog
  = (snd (fst r),
     Log INFO ("Loaded existing locations mapping with " +:+ pretty (size m) +:+ " locations")
     :: snd r ++ []).
Proof.
  intros E. cbv zeta. unfold open_locations_map. cbv zeta. unfold truthy_dict.
  rewrite (bool_decide_eq_false_2 _ E). reflexivity.
Qed.

Lemma open_lookup (fs : files) catalog k :
  fst (open_locations_map fs catalog) !! k
  = match load_locations_map fs !! k with
    | Some v => Some v
    | None =>
        center_name <$>
          (if truthy_dict (load_locations_map fs) then first_named k catalog
           else first_named k (rev catalog))
    end.
Proof.
  destruct (decide (load_locations_map fs = ∅)) as [E|E].
  - rewrite (open_created fs catalog E). cbn [fst]. rewrite E, lookup_empty.
    unfold truthy_dict. rewrite bool_decide_eq_true_2 by reflexivity. cbn [negb].
    unfold names_of. rewrite names_of_lookup, lookup_empty.
    destruct (first_named k (rev catalog)); reflexivity.
  - rewrite (open_loaded fs catalog E). cbn [fst].
    destruct (refresh_outcome _ catalog fs E) as (-> & _).
    rewrite Claims.add_all_lookup. unfold truthy_dict.
    rewrite (bool_decide_eq_false_2 _ E). reflexivity.
Qed.

Lemma open_covers (fs : files) catalog c :
  In c catalog -> is_Some (fst (open_locations_map fs catalog) !! center_id c).
Proof.
  intros Hc. rewrite open_lookup.
  destruct (load_locations_map fs !! center_id c); [eauto|].
  destruct (truthy_dict (load_locations_map fs)).
  - destruct (first_named_In (center_id c) catalog c Hc eq_refl) as [c' ->]. cbn. eauto.
  - assert (In c (rev catalog)) as Hr by (apply in_rev; rewrite rev_involutive; exact Hc).
    destruct (first_named_In (center_id c) (rev catalog) c Hr eq_refl) as [c' ->]. cbn. eauto.
Qed.

Lemma load_locations_map_nonempty (fs : files) :
  load_locations_map fs <> ∅ ->
  json_files fs !! LOCATIONS_MAP_FILE = Some (load_locations_map fs).
Proof.
  unfold load_locations_map. destruct (json_files fs !! LOCATIONS_MAP_FILE); [reflexivity|].
  intros H. contradiction.
Qed.

(** The JSON files when [open_locations_map] is done. *)
Lemma open_saved (fs : files) catalog :
  let r := open_locations_map fs catalog in
  json_files (after (snd r) fs) = <[LOCATIONS_MAP_FILE := fst r]> (json_files fs).
Proof.
  cbv zeta. destruct (decide (load_locations_map fs = ∅)) as [E|E].
  - rewrite (open_created fs catalog E). reflexivity.
  - rewrite (open_loaded fs catalog E). cbn [fst snd].
    destruct (refresh_outcome _ catalog fs E) as (Hm & Hsame & Hnew).
    destruct (decide (Forall (fun c => load_locations_map fs !! center_id c <> None) catalog))
      as [Hall|Hsome].
    + rewrite List.Forall_forall in Hall. rewrite (Hsame Hall). cbn [fst snd app].
      cbn [after fold_left perform writes_log json_files].
      symmetry. apply insert_id. apply load_locations_map_nonempty. exact E.
    + apply not_Forall_Exists in Hsome; [|intros c; apply _].
      apply List.Exists_exists in Hsome as (c & Hc & Hn).
      assert (load_locations_map fs !! center_id c = None) as Hn'.
      { destruct (load_locations_map fs !! center_id c) eqn:Ex; [|reflexivity].
        exfalso. apply Hn. rewrite Ex. discriminate. }
      rewrite Hm, app_nil_r.
      rewrite <- (Hnew (ex_intro _ c (conj Hc Hn'))).
      change (Log INFO ?t :: ?l) with ([Log INFO t] ++ l). rewrite Cycles.after_app.
      apply Cycles.after_json_ext. reflexivity.
Qed.

Lemma open_loads_back (fs : files) catalog :
  let r := open_locations_map fs catalog in
  load_locations_map (after (snd r) fs) = fst r.
Proof.
  cbv zeta. unfold load_locations_map at 1. rewrite open_saved, lookup_insert_eq. reflexivity.
Qed.

(** The first thing [open_locations_map] does is to log a line. *)
Lemma open_logs (fs : files) catalog :
  exists text w, snd (open_locations_map fs catalog) = Log INFO text :: w.
Proof.
  destruct (decide (load_locations_map fs = ∅)) as [E|E].
  - rewrite (open_created fs catalog E). cbn [snd]. eauto.
  - rewrite (open_loaded fs catalog E). cbn [snd]. eauto.
Qed.

(** X13.  The directory of names when the loop starts: a name the file
    held is kept; an identifier the file did not hold is named by the
    catalogue, by its first entry when the file held a directory and by
    its last entry when the directory is created, and stays unnamed when
    the catalogue has no entry for it.  So every entry of the catalogue is
    named. *)
Theorem directory_at_start (fs : files) (catalog : list center) :
  let locations_map := fst (open_locations_map fs catalog) in
  (forall k,
     locations_map !! k
     = match load_locations_map fs !! k with
       | Some v => Some v
       | None =>
           center_name <$>
             (if truthy_dict (load_locations_map fs) then first_named k catalog
              else first_named k (rev catalog))
       end) /\
  (forall c, In c catalog -> is_Some (locations_map !! center_id c)).
Proof. cbv zeta. split; [apply open_lookup|apply open_covers]. Qed.

(** X14.  The files when the directory is ready: [locations_map.json]
    holds exactly the directory in memory, [state.json] is as it was, and
    the lines logged on the way (one at least) have been appended to
    [monitor.log]. *)
Theorem directory_file_matches_memory (fs : files) (catalog : list center) :
  let r := open_locations_map fs catalog in
  let fs' := after (snd r) fs in
  load_locations_map fs' = fst r /\
  json_files fs' !! STATE_FILE = json_files fs !! STATE_FILE /\
  exists line lines, monitor_log fs' = monitor_log fs ++ line :: lines.
Proof.
  cbv zeta. split; [apply open_loads_back|]. split.
  - rewrite open_saved. apply lookup_insert_ne. discriminate.
  - rewrite Cycles.after_log. destruct (open_logs fs catalog) as (text & w & ->).
    cbn [List.filter writes_log]. eauto.
Qed.



End Directory.

(** ** The state file across the loop *)

Module Restart.
Import Py Monitor Table Statements Files Loop.
Local Open Scope list_scope.

Section Turns.
Context (ntfy_url : string) (wandb_run : bool) (locations_map : option (gmap string string))
        (rmv_url : string) (locs : list center) (frequency_minutes : Z).

Lemma run_loop_app a : forall b st (fs : files),
  run_loop ntfy_url wandb_run locations_map rmv_url locs frequency_minutes (a ++ b) st fs
  = run_loop ntfy_url wandb_run locations_map rmv_url locs frequency_minutes b
      (fst (run_loop ntfy_url wandb_run locations_map rmv_url locs frequency_minutes a st fs))
      (snd (run_loop ntfy_url wandb_run locations_map rmv_url locs frequency_minutes a st fs)).
Proof.
  induction a as [|[env|st' fs'] a IH]; intros b st fs; [reflexivity| |];
    cbn [app run_loop]; apply IH.
Qed.

(** The JSON files after a turn in which the call returned. *)
Lemma completed_turn env st (fs : files) :
  let r := check_for_appointments env ntfy_url wandb_run locations_map rmv_url locs st in
  json_files (perform (after (map snd (snd r)) fs)
                (Log INFO ("Sleeping for " +:+ pretty frequency_minutes +:+ " minutes...")))
  = match get_rmv_data env rmv_url locs with
    | None | Some [] => json_files fs
    | Some _ => <[STATE_FILE := fst r]> (json_files fs)
    end.
Proof. cbv zeta. rewrite <- Cycles.after_cycle. reflexivity. Qed.

Lemma completed_turns_keep turns :
  Forall (fun t => is_completed t = true) turns ->
  forall st (fs : files),
  load_json fs STATE_FILE = st ->
  load_json (snd (run_loop ntfy_url wandb_run locations_map rmv_url locs frequency_minutes
                    turns st fs)) STATE_FILE
  = fst (run_loop ntfy_url wandb_run locations_map rmv_url locs frequency_minutes turns st fs) /\
  json_files (snd (run_loop ntfy_url wandb_run locations_map rmv_url locs frequency_minutes
                     turns st fs)) !! LOCATIONS_MAP_FILE
  = json_files fs !! LOCATIONS_MAP_FILE.
Proof.
  induction 1 as [|[env|st' fs'] turns Hc _ IH]; intros st fs H; [auto| |discriminate Hc].
  cbn [run_loop]. cbv zeta.
  pose proof (completed_turn env st fs) as J. cbv zeta in J.
  set (r := check_for_appointments env ntfy_url wandb_run locations_map rmv_url locs st) in *.
  set (fs1 := perform _ _) in *.
  assert (load_json fs1 STATE_FILE = fst r /\
          json_files fs1 !! LOCATIONS_MAP_FILE = json_files fs !! LOCATIONS_MAP_FILE) as [A O].
  { unfold load_json. rewrite J.
    destruct (get_rmv_data env rmv_url locs) as [[|x xs]|] eqn:Hget.
    - unfold r. rewrite Facts.check_for_appointments_no_data by auto. auto.
    - rewrite lookup_insert_eq. split; [reflexivity|].
      apply lookup_insert_ne. discriminate.
    - unfold r. rewrite Facts.check_for_appointments_no_data by auto. auto. }
  destruct (IH _ _ A) as [A' O']. split; [exact A'|]. rewrite O'. exact O.
Qed.

(** X16.  Memory and [state.json] across the loop, a turn of which may
    raise.  When no turn raises and the loop starts from the dictionary
    [load_json] reads from [state.json], then after any number of turns
    [load_json] on the state file gives the dictionary the loop holds,
    and [locations_map.json] is as it was.  Whatever happened before
    (turns that raised included), once a cycle that had data has returned
    and no later turn has raised, the state file again holds the
    dictionary the loop holds. *)
Theorem loop_keeps_state_file_current (post : list turn) st (fs : files) :
  Forall (fun t => is_completed t = true) post ->
  let run := run_loop ntfy_url wandb_run locations_map rmv_url locs frequency_minutes in
  (load_json fs STATE_FILE = st ->
     load_json (snd (run post st fs)) STATE_FILE = fst (run post st fs) /\
     json_files (snd (run post st fs)) !! LOCATIONS_MAP_FILE
     = json_files fs !! LOCATIONS_MAP_FILE) /\
  (forall pre env x xs,
     get_rmv_data env rmv_url locs = Some (x :: xs) ->
     load_json (snd (run (pre ++ completed env :: post) st fs)) STATE_FILE
     = fst (run (pre ++ completed env :: post) st fs)).
Proof.
  intros Hp. cbv zeta. split; [apply completed_turns_keep; exact Hp|].
  intros pre env x xs Hget. rewrite run_loop_app. cbn [run_loop]. cbv zeta.
  apply completed_turns_keep; [exact Hp|].
  unfold load_json. rewrite completed_turn, Hget, lookup_insert_eq. reflexivity.
Qed.

End Turns.

Lemma loop_keeps_state_file_current_witness :
  let post := [completed (scraped None june_2nd);
               completed (scraped (Some [mk_location "7" "Seven" "Mon Jun 10, 2024, 10:30 AM"])
                            june_2nd)] in
  let st : gmap string string := ∅ in
  let fs := mk_files {[ LOCATIONS_MAP_FILE := {[ "7" := "Seven" ]} ]} [] in
  let run := run_loop "ntfy" true None "url" [] 30 in
  (load_json fs STATE_FILE = st ->
     load_json (snd (run post st fs)) STATE_FILE = fst (run post st fs) /\
     json_files (snd (run post st fs)) !! LOCATIONS_MAP_FILE
     = json_files fs !! LOCATIONS_MAP_FILE) /\
  (forall pre env x xs,
     get_rmv_data env "url" [] = Some (x :: xs) ->
     load_json (snd (run (pre ++ completed env :: post) st fs)) STATE_FILE
     = fst (run (pre ++ completed env :: post) st fs)).
Proof.
  apply (loop_keeps_state_file_current "ntfy" true None "url" [] 30
           [completed (scraped None june_2nd);
            completed (scraped (Some [mk_location "7" "Seven" "Mon Jun 10, 2024, 10:30 AM"])
                         june_2nd)]
           ∅ (mk_files {[ LOCATIONS_MAP_FILE := {[ "7" := "Seven" ]} ]} [])).
  repeat constructor.
Defined.

End Restart.
